(** * Match finders of the Brotli encoder (enc/hash.h)

    A shallow embedding of the three hashers of [enc/hash.h]
    ([HashLongestMatchQuickly], [HashLongestMatch], [BT4_Matchfinder]) and of
    the [Hashers] facade, followed by the properties of the specification
    that are settled on it.

    Conventions of the embedding.
    - [uint32_t], [uint64_t]/[size_t] and [uint16_t] values are integers of
      [Z] with the wrap-around written out ([u32], [u64], [u16]).
    - [int] values are integers of [Z]; a conversion from an unsigned type to
      [int] is written [to_int32]; overflow of signed arithmetic is undefined
      behaviour in the source and is not given a meaning here.
    - A [const uint8_t*] is a memory [Mem] together with an offset.
    - The unaligned loads of [enc/port.h] are taken on a little-endian host.
    - [double] is an interface ([DoubleOps]): the hashers only multiply,
      subtract and compare scores, and the results below need nothing of the
      comparison but its transitivity. *)

From Stdlib Require Import ZArith List Bool Lia QArith.
Import ListNotations.
Local Open Scope Z_scope.

(** ** Machine integers *)

Definition u16 (x : Z) : Z := x mod 2 ^ 16.
Definition u32 (x : Z) : Z := x mod 2 ^ 32.
Definition u64 (x : Z) : Z := x mod 2 ^ 64.

(** Conversion of an unsigned value to [int] (two's complement). *)
Definition to_int32 (x : Z) : Z :=
  let y := x mod 2 ^ 32 in if y <? 2 ^ 31 then y else y - 2 ^ 32.

(** Arrays are total functions from indices; [upd] is the assignment
    [a[i] = v]. *)
Definition upd {A : Type} (i : Z) (v : A) (a : Z -> A) : Z -> A :=
  fun j => if j =? i then v else a j.

(** ** enc/port.h *)

(** A byte memory: each cell holds a value in 0..255. *)
Definition Mem := Z -> Z.

Definition BROTLI_UNALIGNED_LOAD16 (m : Mem) (p : Z) : Z :=
  m p + 2 ^ 8 * m (p + 1).

Definition BROTLI_UNALIGNED_LOAD32 (m : Mem) (p : Z) : Z :=
  m p + 2 ^ 8 * m (p + 1) + 2 ^ 16 * m (p + 2) + 2 ^ 24 * m (p + 3).

Definition BROTLI_UNALIGNED_LOAD64 (m : Mem) (p : Z) : Z :=
  BROTLI_UNALIGNED_LOAD32 m p + 2 ^ 32 * BROTLI_UNALIGNED_LOAD32 m (p + 4).

Definition BROTLI_LOADED_U32_TO_U24 (v : Z) : Z := Z.land v 16777215.
Definition BROTLI_LOADED_U32_TO_U16 (v : Z) : Z := Z.land v 65535.

(** ** Collaborators that are not part of enc/hash.h *)

(** Modelled from the spec: [FindMatchLengthWithLimit] of
    [find_match_length.h], "compute match length with limit": the number of
    leading bytes on which the two sequences agree, at most [limit]. *)
Fixpoint match_length (limit : nat) (m1 : Mem) (p1 : Z) (m2 : Mem) (p2 : Z)
  : Z :=
  match limit with
  | O => 0
  | S k => if m1 p1 =? m2 p2
           then 1 + match_length k m1 (p1 + 1) m2 (p2 + 1)
           else 0
  end.

Definition FindMatchLengthWithLimit (m1 : Mem) (p1 : Z) (m2 : Mem) (p2 : Z)
  (limit : Z) : Z :=
  match_length (Z.to_nat limit) m1 p1 m2 p2.

(** Modelled from the spec: [Log2Floor] of [fast_log.h], the floor of the
    binary logarithm that the score formula of the spec uses. *)
Definition Log2Floor (n : Z) : Z := Z.log2 n.

(** The tables of [dictionary_hash.h] and of the static dictionary, and the
    whole-dictionary search of [static_dict.h]; their contents are data of the
    collaborator. *)
Record StaticDictionary := {
  kStaticDictionaryHash : Z -> Z;
  kBrotliDictionaryOffsetsByLength : Z -> Z;
  kBrotliDictionarySizeBitsByLength : Z -> Z;
  kBrotliDictionary : Mem;
  kMaxDictionaryMatchLen : Z;
  kInvalidMatch : Z;
  (** [FindAllStaticDictionaryMatches data minlen maxlen matches] gives the
      returned flag and the [matches] array after the call. *)
  FindAllStaticDictionaryMatches :
    Mem -> Z -> Z -> Z -> (Z -> Z) -> bool * (Z -> Z)
}.

(** The arithmetic of [double] used by the scoring functions. *)
Class DoubleOps := {
  double : Type;
  d_lit : Q -> double;
  d_of_int : Z -> double;
  d_mul : double -> double -> double;
  d_sub : double -> double -> double;
  d_lt : double -> double -> bool;
  d_lt_trans : forall a b c,
    d_lt a b = true -> d_lt b c = true -> d_lt a c = true
}.

(** ** enc/hash.h: constants and scores *)

Definition table (l : list Z) (i : Z) : Z := nth (Z.to_nat i) l 0.

Definition kDistanceCacheIndex : Z -> Z :=
  table [0; 1; 2; 3; 0; 0; 0; 0; 0; 0; 1; 1; 1; 1; 1; 1].
Definition kDistanceCacheOffset : Z -> Z :=
  table [0; 0; 0; 0; -1; 1; -2; 2; -3; 3; -1; 1; -2; 2; -3; 3].

Definition kCutoffTransformsCount : Z := 10.
Definition kCutoffTransforms : Z -> Z :=
  table [0; 12; 27; 23; 42; 63; 56; 48; 59; 64].

Definition kHashMul32 : Z := 506832829.

Definition Hash (kShiftBits : Z) (data : Mem) (p : Z) : Z :=
  let h := u32 (BROTLI_UNALIGNED_LOAD32 data p * kHashMul32) in
  Z.shiftr h (32 - kShiftBits).

Section Scores.
Context {D : DoubleOps}.

Definition BackwardReferenceScore (copy_length backward_reference_offset : Z)
  : double :=
  d_sub (d_mul (d_lit 5.4) (d_of_int copy_length))
        (d_mul (d_lit 1.20) (d_of_int (Log2Floor backward_reference_offset))).

Definition kDistanceShortCodeBitCost (i : Z) : double :=
  d_lit (nth (Z.to_nat i)
           [-0.6; 0.95; 1.17; 1.27; 0.93; 0.93; 0.96; 0.96; 0.99; 0.99;
            1.05; 1.05; 1.15; 1.15; 1.25; 1.25]%Q 0%Q).

Definition BackwardReferenceScoreUsingLastDistance
  (copy_length distance_short_code : Z) : double :=
  d_sub (d_mul (d_lit 5.4) (d_of_int copy_length))
        (kDistanceShortCodeBitCost distance_short_code).

(** The four in/out parameters of [FindLongestMatch]. *)
Record Out := {
  best_len_out : Z;
  best_len_code_out : Z;
  best_distance_out : Z;
  best_score_out : double
}.
End Scores.

(** ** struct BackwardMatch *)

Record BackwardMatch := {
  distance : Z;
  length_and_code : Z
}.

Definition BackwardMatch2 (dist len : Z) : BackwardMatch :=
  {| distance := dist; length_and_code := Z.shiftl len 5 |}.

Definition BackwardMatch3 (dist len len_code : Z) : BackwardMatch :=
  {| distance := dist;
     length_and_code :=
       Z.lor (Z.shiftl len 5) (if len =? len_code then 0 else len_code) |}.

Definition length (m : BackwardMatch) : Z := Z.shiftr (length_and_code m) 5.


(** The caller's [matches] array with the write pointer.  [pos] is the
    offset of the pointer [matches] from the start of the array, [arr] its
    contents.  [written] is a ghost history: every match stored through
    [*matches++ = ...], newest first. *)
Record MatchBuf := {
  arr : Z -> BackwardMatch;
  pos : Z;
  written : list BackwardMatch
}.

(** [*matches++ = m] *)
Definition push (m : BackwardMatch) (b : MatchBuf) : MatchBuf :=
  {| arr := upd (pos b) m (arr b); pos := pos b + 1;
     written := m :: written b |}.

(** [matches = orig_matches] *)
Definition rewind (orig_matches : Z) (b : MatchBuf) : MatchBuf :=
  {| arr := arr b; pos := orig_matches; written := written b |}.

(** Early exit of a function body: [Return] carries the returned flag. *)
Inductive ctl (A : Type) : Type :=
| Return (r : bool) (x : A)
| Continue (x : A).
Arguments Return {A} r x.
Arguments Continue {A} x.

(** [0; 1; ...; n-1], the values of a loop counter. *)
Definition zrange (n : Z) : list Z := List.map Z.of_nat (seq 0 (Z.to_nat n)).

(** ** template class HashLongestMatchQuickly (H1 to H4) *)

Module Quick.

Record params := {
  kBucketBits : Z;
  kBucketSweep : Z;
  kUseDictionary : bool
}.

Definition kHashLength : Z := 5.
Definition kHashTypeLength : Z := 8.

Record state := {
  buckets_ : Z -> Z;
  num_dict_lookups_ : Z;
  num_dict_matches_ : Z
}.

Definition Reset (s : state) : state :=
  {| buckets_ := fun _ => 0; num_dict_lookups_ := 0; num_dict_matches_ := 0 |}.

Definition HashBytes (P : params) (data : Mem) (p : Z) : Z :=
  let h := u64 (u64 (Z.shiftl (BROTLI_UNALIGNED_LOAD64 data p) 24)
                * kHashMul32) in
  u32 (Z.shiftr h (64 - kBucketBits P)).

Definition Store (P : params) (data : Mem) (p : Z) (ix : Z) (s : state)
  : state :=
  let key := HashBytes P data p in
  let off := Z.shiftr (u32 ix) 3 mod kBucketSweep P in
  {| buckets_ := upd (key + off) (u32 ix) (buckets_ s);
     num_dict_lookups_ := num_dict_lookups_ s;
     num_dict_matches_ := num_dict_matches_ s |}.

(** [StoreHashes]: the loop over [p], an [int] compared with the [size_t]
    [len]; [fuel] bounds the number of iterations. *)
Fixpoint StoreHashes_loop (P : params) (data : Mem) (data_p : Z)
  (len startix mask : Z) (fuel : nat) (p : Z) (s : state) : state :=
  match fuel with
  | O => s
  | S fuel' =>
      if u64 p <? len then
        StoreHashes_loop P data data_p len startix mask fuel' (p + 1)
          (Store P data (data_p + Z.land p mask) (startix + p) s)
      else s
  end.

Definition StoreHashes (P : params) (data : Mem) (data_p : Z)
  (len startix mask : Z) (s : state) : state :=
  StoreHashes_loop P data data_p len startix mask (Z.to_nat len) 0 s.

Section FindLongestMatch.
Context {D : DoubleOps}.
Variable SD : StaticDictionary.
Variable P : params.
Variable s : state.
Variable ring_buffer : Mem.
Variable ring_buffer_mask : Z.
Variable distance_cache : Z -> Z.
Variables cur_ix max_length max_backward : Z.

(** The local variables of the function together with the four
    in/out parameters. *)
Record locals := {
  out : Out;
  best_score : double;
  best_len : Z;
  compare_char : Z;
  match_found : bool
}.

Definition cur_ix_masked : Z := Z.land cur_ix ring_buffer_mask.

Definition accept (len len_code backward : Z) (score : double)
  (found : bool) : locals :=
  {| out := {| best_len_out := len; best_len_code_out := len_code;
               best_distance_out := backward; best_score_out := score |};
     best_score := score;
     best_len := len;
     compare_char := ring_buffer (cur_ix_masked + len);
     match_found := found |}.

(** Lines 172 to 201: the probe of [distance_cache[0]]. *)
Definition probe_last_distance (o : Out) : ctl locals :=
  let best_len_in := best_len_out o in
  let L0 := {| out := o;
               best_score := best_score_out o;
               best_len := best_len_in;
               compare_char := ring_buffer (cur_ix_masked + best_len_in);
               match_found := false |} in
  let backward := distance_cache 0 in
  let prev_ix := u32 (cur_ix - backward) in
  if prev_ix <? cur_ix then
    let prev_ix := Z.land prev_ix ring_buffer_mask in
    if compare_char L0 =? ring_buffer (prev_ix + best_len L0) then
      let len := FindMatchLengthWithLimit ring_buffer prev_ix
                   ring_buffer cur_ix_masked max_length in
      if 4 <=? len then
        let score := BackwardReferenceScoreUsingLastDistance len 0 in
        if kBucketSweep P =? 1
        then Return true (accept len len backward score false)
        else Continue (accept len len backward score true)
      else Continue L0
    else Continue L0
  else Continue L0.

Definition key : Z := HashBytes P ring_buffer cur_ix_masked.

(** Lines 203 to 223: [kBucketSweep == 1]. *)
Definition lookup_single (best_len_in : Z) (L : locals) : ctl locals :=
  let prev_ix := buckets_ s key in
  let backward := to_int32 (cur_ix - prev_ix) in
  let prev_ix := Z.land prev_ix ring_buffer_mask in
  if negb (compare_char L =? ring_buffer (prev_ix + best_len_in)) then
    Return false L
  else if (backward =? 0) || (max_backward <? u32 backward) then
    Return false L
  else
    let len := FindMatchLengthWithLimit ring_buffer prev_ix
                 ring_buffer cur_ix_masked max_length in
    if 4 <=? len then
      Return true
        {| out := {| best_len_out := len; best_len_code_out := len;
                     best_distance_out := backward;
                     best_score_out := BackwardReferenceScore len backward |};
           best_score := best_score L;
           best_len := best_len L;
           compare_char := compare_char L;
           match_found := match_found L |}
    else Continue L.

(** Lines 225 to 253: one iteration of the sweep over
    [buckets_[key + i]]. *)
Definition sweep_step (L : locals) (i : Z) : locals :=
  let prev_ix := buckets_ s (key + i) in
  let backward := to_int32 (cur_ix - prev_ix) in
  let prev_ix := Z.land prev_ix ring_buffer_mask in
  if negb (compare_char L =? ring_buffer (prev_ix + best_len L)) then L
  else if (backward =? 0) || (max_backward <? u32 backward) then L
  else
    let len := FindMatchLengthWithLimit ring_buffer prev_ix
                 ring_buffer cur_ix_masked max_length in
    if 4 <=? len then
      let score := BackwardReferenceScore len backward in
      if d_lt (best_score L) score
      then accept len len backward score true
      else L
    else L.

Definition lookup_sweep (L : locals) : locals :=
  fold_left sweep_step (zrange (kBucketSweep P)) L.

(** What [FindLongestMatch] leaves behind: the returned flag, the four
    in/out parameters, the hasher, and (ghost) the indices at which
    [kStaticDictionaryHash] was read. *)
Record result := {
  ret : bool;
  outs : Out;
  hasher : state;
  dict_reads : list Z
}.

Definition count_lookup (t : state) : state :=
  {| buckets_ := buckets_ t;
     num_dict_lookups_ := u64 (num_dict_lookups_ t + 1);
     num_dict_matches_ := num_dict_matches_ t |}.

Definition count_match (t : state) : state :=
  {| buckets_ := buckets_ t;
     num_dict_lookups_ := num_dict_lookups_ t;
     num_dict_matches_ := u64 (num_dict_matches_ t + 1) |}.

(** Lines 255 to 289: the static dictionary. *)
Definition probe_dictionary (L : locals) : result :=
  if kUseDictionary P && negb (match_found L) &&
     (Z.shiftr (num_dict_lookups_ s) 7 <=? num_dict_matches_ s) then
    let s1 := count_lookup s in
    let key := Z.shiftl (Hash 14 ring_buffer cur_ix_masked) 1 in
    let v := kStaticDictionaryHash SD key in
    let miss := {| ret := match_found L; outs := out L; hasher := s1;
                   dict_reads := [key] |} in
    if 0 <? v then
      let len := Z.land v 31 in
      let dist := Z.shiftr v 5 in
      let offset := kBrotliDictionaryOffsetsByLength SD len + len * dist in
      if len <=? max_length then
        let matchlen := FindMatchLengthWithLimit ring_buffer cur_ix_masked
                          (kBrotliDictionary SD) offset len in
        if (len - kCutoffTransformsCount <? matchlen) && (0 <? matchlen)
        then
          let transform_id := kCutoffTransforms (len - matchlen) in
          let word_id :=
            transform_id
            * Z.shiftl 1 (kBrotliDictionarySizeBitsByLength SD len)
            + dist in
          let backward := u32 (max_backward + word_id + 1) in
          let score := BackwardReferenceScore matchlen (to_int32 backward) in
          if d_lt (best_score L) score then
            {| ret := true;
               outs := {| best_len_out := matchlen;
                          best_len_code_out := len;
                          best_distance_out := to_int32 backward;
                          best_score_out := score |};
               hasher := count_match s1;
               dict_reads := [key] |}
          else miss
        else miss
      else miss
    else miss
  else {| ret := match_found L; outs := out L; hasher := s;
          dict_reads := [] |}.

Definition early (r : bool) (L : locals) : result :=
  {| ret := r; outs := out L; hasher := s; dict_reads := [] |}.

Definition FindLongestMatch (o : Out) : result :=
  match probe_last_distance o with
  | Return r L => early r L
  | Continue L =>
      if kBucketSweep P =? 1 then
        match lookup_single (best_len_out o) L with
        | Return r L' => early r L'
        | Continue L' => probe_dictionary L'
        end
      else probe_dictionary (lookup_sweep L)
  end.
End FindLongestMatch.

End Quick.


(** The maximum length for which the zopflification uses distinct
    distances. *)
Definition kMaxZopfliLen : Z := 325.

(** ** template class HashLongestMatch (H5 to H9) *)

Module Block.

Record params := {
  kBucketBits : Z;
  kBlockBits : Z;
  kNumLastDistancesToCheck : Z
}.

Definition kHashLength : Z := 4.
Definition kHashTypeLength : Z := 4.

Definition kBlockSize (P : params) : Z := Z.shiftl 1 (kBlockBits P).
Definition kBlockMask (P : params) : Z := Z.shiftl 1 (kBlockBits P) - 1.

(** [num_] holds 16-bit counters, [buckets_] is the two-dimensional array
    of positions. *)
Record state := {
  num_ : Z -> Z;
  buckets_ : Z -> Z -> Z;
  num_dict_lookups_ : Z;
  num_dict_matches_ : Z
}.

(** [Reset] clears the counters only; [buckets_] keeps its contents. *)
Definition Reset (s : state) : state :=
  {| num_ := fun _ => 0; buckets_ := buckets_ s;
     num_dict_lookups_ := 0; num_dict_matches_ := 0 |}.

Definition HashBytes (P : params) (data : Mem) (p : Z) : Z :=
  let h := u32 (BROTLI_UNALIGNED_LOAD32 data p * kHashMul32) in
  Z.shiftr h (32 - kBucketBits P).

Definition Store (P : params) (data : Mem) (p : Z) (ix : Z) (s : state)
  : state :=
  let key := HashBytes P data p in
  let minor_ix := Z.land (num_ s key) (kBlockMask P) in
  {| num_ := upd key (u16 (num_ s key + 1)) (num_ s);
     buckets_ := upd key (upd minor_ix ix (buckets_ s key)) (buckets_ s);
     num_dict_lookups_ := num_dict_lookups_ s;
     num_dict_matches_ := num_dict_matches_ s |}.

(** [StoreHashes]: the loop over [p], an [int] compared with the [size_t]
    [len]; [fuel] bounds the number of iterations. *)
Fixpoint StoreHashes_loop (P : params) (data : Mem) (data_p : Z)
  (len startix mask : Z) (fuel : nat) (p : Z) (s : state) : state :=
  match fuel with
  | O => s
  | S fuel' =>
      if u64 p <? len then
        StoreHashes_loop P data data_p len startix mask fuel' (p + 1)
          (Store P data (data_p + Z.land p mask) (startix + p) s)
      else s
  end.

Definition StoreHashes (P : params) (data : Mem) (data_p : Z)
  (len startix mask : Z) (s : state) : state :=
  StoreHashes_loop P data data_p len startix mask (Z.to_nat len) 0 s.

Section Search.
Context {D : DoubleOps}.
Variable SD : StaticDictionary.
Variable P : params.
Variable s : state.
Variable data : Mem.
Variable ring_buffer_mask : Z.
Variable distance_cache : Z -> Z.
Variables cur_ix max_length max_backward : Z.

Record locals := {
  out : Out;
  best_score : double;
  best_len : Z;
  match_found : bool
}.

Definition cur_ix_masked : Z := Z.land cur_ix ring_buffer_mask.

Definition accept (len len_code backward : Z) (score : double) : locals :=
  {| out := {| best_len_out := len; best_len_code_out := len_code;
               best_distance_out := backward; best_score_out := score |};
     best_score := score;
     best_len := len;
     match_found := true |}.

(** The guard shared by the scans: the byte after the current best length
    must lie inside the ring buffer on both sides and agree. *)
Definition tail_differs (prev_ix best_len : Z) : bool :=
  (ring_buffer_mask <? u64 (cur_ix_masked + best_len))
  || (ring_buffer_mask <? u64 (prev_ix + best_len))
  || negb (data (cur_ix_masked + best_len) =? data (prev_ix + best_len)).

(** Lines 381 to 416: one iteration of "try last distance first". *)
Definition last_distance_step (L : locals) (i : Z) : locals :=
  let idx := kDistanceCacheIndex i in
  let backward := distance_cache idx + kDistanceCacheOffset i in
  let prev_ix := u32 (cur_ix - backward) in
  if cur_ix <=? prev_ix then L
  else if max_backward <? u32 backward then L
  else
    let prev_ix := Z.land prev_ix ring_buffer_mask in
    if tail_differs prev_ix (best_len L) then L
    else
      let len := FindMatchLengthWithLimit data prev_ix data cur_ix_masked
                   max_length in
      if (3 <=? len) || ((len =? 2) && (i <? 2)) then
        let score := BackwardReferenceScoreUsingLastDistance len i in
        if d_lt (best_score L) score
        then accept len len backward score
        else L
      else L.

Definition key : Z := HashBytes P data cur_ix_masked.

Definition down : Z :=
  if kBlockSize P <? num_ s key then num_ s key - kBlockSize P else 0.

(** Lines 420 to 452: the scan of the bucket, newest entry first.  [fuel]
    bounds the number of iterations; the loop is entered with
    [i = num_[key] - 1] and leaves when [i < down]. *)
Fixpoint bucket_loop (fuel : nat) (i : Z) (L : locals) : locals :=
  match fuel with
  | O => L
  | S fuel' =>
      if down <=? i then
        let prev_ix := buckets_ s key (Z.land i (kBlockMask P)) in
        if 0 <=? prev_ix then
          let backward := u32 (cur_ix - prev_ix) in
          if max_backward <? backward then L
          else
            let prev_ix := Z.land prev_ix ring_buffer_mask in
            if tail_differs prev_ix (best_len L) then
              bucket_loop fuel' (i - 1) L
            else
              let len := FindMatchLengthWithLimit data prev_ix
                           data cur_ix_masked max_length in
              if 4 <=? len then
                let score :=
                  BackwardReferenceScore len (to_int32 backward) in
                if d_lt (best_score L) score
                then bucket_loop fuel' (i - 1)
                       (accept len len (to_int32 backward) score)
                else bucket_loop fuel' (i - 1) L
              else bucket_loop fuel' (i - 1) L
        else bucket_loop fuel' (i - 1) L
      else L
  end.

(** The locals of the dictionary loop: the search state, the two counters
    and (ghost) the indices at which [kStaticDictionaryHash] was read, in
    the order of the reads. *)
Record dict_state := {
  loc : locals;
  lookups : Z;
  matches : Z;
  reads : list Z
}.

(** Lines 455 to 486: one iteration of the loop over [k], reading
    [kStaticDictionaryHash[key]]. *)
Definition dictionary_step (key0 : Z) (d : dict_state) (k : Z) : dict_state :=
  let key := u32 (key0 + k) in
  let lookups' := u64 (lookups d + 1) in
  let v := kStaticDictionaryHash SD key in
  let miss := {| loc := loc d; lookups := lookups'; matches := matches d;
                 reads := reads d ++ [key] |} in
  if 0 <? v then
    let len := Z.land v 31 in
    let dist := Z.shiftr v 5 in
    let offset := kBrotliDictionaryOffsetsByLength SD len + len * dist in
    if len <=? max_length then
      let matchlen := FindMatchLengthWithLimit data cur_ix_masked
                        (kBrotliDictionary SD) offset len in
      if (len - kCutoffTransformsCount <? matchlen) && (0 <? matchlen) then
        let transform_id := kCutoffTransforms (len - matchlen) in
        let word_id :=
          transform_id * Z.shiftl 1 (kBrotliDictionarySizeBitsByLength SD len)
          + dist in
        let backward := u32 (max_backward + word_id + 1) in
        let score := BackwardReferenceScore matchlen (to_int32 backward) in
        if d_lt (best_score (loc d)) score then
          {| loc := accept matchlen len (to_int32 backward) score;
             lookups := lookups';
             matches := u64 (matches d + 1);
             reads := reads d ++ [key] |}
        else miss
      else miss
    else miss
  else miss.

Record result := {
  ret : bool;
  outs : Out;
  hasher : state;
  dict_reads : list Z
}.

Definition probe_dictionary (L : locals) : result :=
  if negb (match_found L) &&
     (Z.shiftr (num_dict_lookups_ s) 7 <=? num_dict_matches_ s) then
    let key0 := Z.shiftl (Hash 14 data cur_ix_masked) 1 in
    let d := fold_left (dictionary_step key0) (zrange 2)
               {| loc := L; lookups := num_dict_lookups_ s;
                  matches := num_dict_matches_ s; reads := [] |} in
    {| ret := match_found (loc d);
       outs := out (loc d);
       hasher := {| num_ := num_ s; buckets_ := buckets_ s;
                    num_dict_lookups_ := lookups d;
                    num_dict_matches_ := matches d |};
       dict_reads := reads d |}
  else {| ret := match_found L; outs := out L; hasher := s;
          dict_reads := [] |}.

(** Lines 373 to 379: the entry of [FindLongestMatch]. *)
Definition enter (o : Out) : locals :=
  {| out := {| best_len_out := 0; best_len_code_out := 0;
               best_distance_out := best_distance_out o;
               best_score_out := best_score_out o |};
     best_score := best_score_out o;
     best_len := best_len_out o;
     match_found := false |}.

Definition FindLongestMatch (o : Out) : result :=
  let L1 := fold_left last_distance_step
              (zrange (kNumLastDistancesToCheck P)) (enter o) in
  let L2 := bucket_loop (Z.to_nat (num_ s key)) (num_ s key - 1) L1 in
  probe_dictionary L2.

(** *** FindAllMatches *)

(** The locals of the two scans of [FindAllMatches]: the best length so
    far and the caller's array with its write pointer. *)
Record scan := {
  longest : Z;
  buf : MatchBuf
}.

(** Lines 526 to 532 and 553 to 559: a match of length [len] at distance
    [backward] is kept when it is longer than every match before it; past
    [kMaxZopfliLen] the write pointer first returns to [orig_matches]. *)
Definition record_match (orig_matches backward len : Z) (c : scan) : scan :=
  if longest c <? len then
    let b := if kMaxZopfliLen <? len
             then rewind orig_matches (buf c) else buf c in
    {| longest := len;
       buf := push (BackwardMatch2 (to_int32 backward) (to_int32 len)) b |}
  else c.

Definition stop : Z :=
  let stop := to_int32 cur_ix - 64 in if stop <? 0 then 0 else stop.

(** Lines 512 to 533: the scan of the positions just before [cur_ix],
    entered with [i = cur_ix - 1] and left when [i <= stop].  [fuel] bounds
    the number of iterations. *)
Fixpoint short_scan (orig_matches : Z) (fuel : nat) (i : Z) (c : scan)
  : scan :=
  match fuel with
  | O => c
  | S fuel' =>
      if (stop <? i) && (longest c <=? 2) then
        let prev_ix := i in
        let backward := u64 (cur_ix - prev_ix) in
        if max_backward <? backward then c
        else
          let prev_ix := Z.land prev_ix ring_buffer_mask in
          if negb (data cur_ix_masked =? data prev_ix)
             || negb (data (cur_ix_masked + 1) =? data (prev_ix + 1))
          then short_scan orig_matches fuel' (i - 1) c
          else
            let len := FindMatchLengthWithLimit data prev_ix
                         data cur_ix_masked max_length in
            short_scan orig_matches fuel' (i - 1)
              (record_match orig_matches backward len c)
      else c
  end.

(** Lines 537 to 561: the scan of the bucket. *)
Fixpoint bucket_scan (orig_matches : Z) (fuel : nat) (i : Z) (c : scan)
  : scan :=
  match fuel with
  | O => c
  | S fuel' =>
      if down <=? i then
        let prev_ix := buckets_ s key (Z.land i (kBlockMask P)) in
        if 0 <=? prev_ix then
          let backward := u32 (cur_ix - prev_ix) in
          if max_backward <? backward then c
          else
            let prev_ix := Z.land prev_ix ring_buffer_mask in
            if tail_differs prev_ix (longest c) then
              bucket_scan orig_matches fuel' (i - 1) c
            else
              let len := FindMatchLengthWithLimit data prev_ix
                           data cur_ix_masked max_length in
              bucket_scan orig_matches fuel' (i - 1)
                (record_match orig_matches backward len c)
        else bucket_scan orig_matches fuel' (i - 1) c
      else c
  end.

(** Lines 507 to 561: both scans, from the caller's array [matches] and the
    offset [orig_matches] of the pointer into it. *)
Definition scan_matches (matches : Z -> BackwardMatch) (orig_matches : Z)
  : scan :=
  let c0 := {| longest := 1;
               buf := {| arr := matches; pos := orig_matches;
                         written := [] |} |} in
  let i0 := to_int32 (cur_ix - 1) in
  let c1 := short_scan orig_matches (Z.to_nat (i0 - stop)) i0 c0 in
  bucket_scan orig_matches (Z.to_nat (num_ s key)) (num_ s key - 1) c1.

(** Lines 567 to 573: one iteration of the loop over the lengths [l]. *)
Definition dictionary_match (dict_matches : Z -> Z) (b : MatchBuf) (l : Z)
  : MatchBuf :=
  let dict_id := dict_matches l in
  if dict_id <? kInvalidMatch SD then
    push (BackwardMatch3
            (to_int32 (u32 (max_backward + Z.shiftr dict_id 5 + 1)))
            l (Z.land dict_id 31)) b
  else b.

(** Lines 562 to 574: the matches of the static dictionary. *)
Definition dictionary_pass (c : scan) : MatchBuf :=
  let minlen := Z.max 4 (longest c + 1) in
  let '(found, dict_matches) :=
    FindAllStaticDictionaryMatches SD data cur_ix_masked minlen max_length
      (fun _ => kInvalidMatch SD) in
  if found then
    let maxlen := Z.min (kMaxDictionaryMatchLen SD) (to_int32 max_length) in
    fold_left (dictionary_match dict_matches)
      (List.map (fun k => minlen + k) (zrange (maxlen - minlen + 1)))
      (buf c)
  else buf c.

(** [FindAllMatches] gives the new value of [*num_matches] and the
    caller's array. *)
Definition FindAllMatches (num_matches : Z) (matches : Z -> BackwardMatch)
  (orig_matches : Z) : Z * MatchBuf :=
  let b := dictionary_pass (scan_matches matches orig_matches) in
  (to_int32 (num_matches + (pos b - orig_matches)), b).

End Search.

End Block.


(** ** template class BT4_Matchfinder (H10) *)

Module BT4.

Record params := {
  kHash2Log : Z;
  kHash3Log : Z;
  kHash4Log : Z
}.

Definition kHash2Length (P : params) : Z := Z.shiftl 1 (kHash2Log P).
Definition kHash3Length (P : params) : Z := Z.shiftl 1 (kHash3Log P).
Definition kHash4Length (P : params) : Z := Z.shiftl 1 (kHash4Log P).
Definition kHash2Offset (P : params) : Z := 0.
Definition kHash3Offset (P : params) : Z := kHash2Offset P + kHash2Length P.
Definition kHash4Offset (P : params) : Z := kHash3Offset P + kHash3Length P.
Definition kHashTotalLength (P : params) : Z :=
  kHash4Offset P + kHash4Length P.

(** The members of the class.  [child_stores] is ghost: every assignment
    to a cell of [child_tab_] as (index, value), newest first. *)
Record matchfinder := {
  window_mask_ : Z;
  hash_tabs_ : Z -> Z;
  child_tab_ : Z -> Z;
  max_search_depth_ : Z;
  nice_length_ : Z;
  child_stores : list (Z * Z)
}.

Definition set_hash (i v : Z) (t : matchfinder) : matchfinder :=
  {| window_mask_ := window_mask_ t;
     hash_tabs_ := upd i v (hash_tabs_ t);
     child_tab_ := child_tab_ t;
     max_search_depth_ := max_search_depth_ t;
     nice_length_ := nice_length_ t;
     child_stores := child_stores t |}.

(** An assignment [child_tab_[i] = v] (through [pending_lt_ptr] or
    [pending_gt_ptr]). *)
Definition set_child (i v : Z) (t : matchfinder) : matchfinder :=
  {| window_mask_ := window_mask_ t;
     hash_tabs_ := hash_tabs_ t;
     child_tab_ := upd i v (child_tab_ t);
     max_search_depth_ := max_search_depth_ t;
     nice_length_ := nice_length_ t;
     child_stores := (i, v) :: child_stores t |}.

Definition Reset (P : params) (t : matchfinder) : matchfinder :=
  {| window_mask_ := window_mask_ t;
     hash_tabs_ := fun i => if (0 <=? i) && (i <? kHashTotalLength P)
                            then u32 (- window_mask_ t) else hash_tabs_ t i;
     child_tab_ := child_tab_ t;
     max_search_depth_ := max_search_depth_ t;
     nice_length_ := nice_length_ t;
     child_stores := child_stores t |}.

(** The constructor; [hash0] and [child0] are the contents of the freshly
    allocated arrays. *)
Definition create (P : params) (lgwin max_search_depth nice_length : Z)
  (hash0 child0 : Z -> Z) : matchfinder :=
  Reset P {| window_mask_ := u32 (Z.shiftl 1 lgwin - 1);
             hash_tabs_ := hash0;
             child_tab_ := child0;
             max_search_depth_ := max_search_depth;
             nice_length_ := nice_length;
             child_stores := [] |}.

Definition Hash (seq num_bits : Z) : Z :=
  let h := u32 (seq * kHashMul32) in
  Z.shiftr h (32 - num_bits).

Section AdvanceOneByte.
Variable P : params.
Variable data : Mem.
Variable cur_ix : Z.
Variable ring_buffer_mask : Z.
Variable max_length : Z.
Variable orig_matches : Z.
Variable record_matches : bool.

(** What [AdvanceOneByte] leaves behind: the returned pointer, the value
    of [*best_len_ret] and the tables. *)
Record result := {
  matches_ret : MatchBuf;
  best_len_ret : Z;
  finder : matchfinder
}.

(** The locals of the descent. *)
Record descent := {
  prev_ix : Z;
  pending_lt_ptr : Z;
  pending_gt_ptr : Z;
  best_lt_len : Z;
  best_gt_len : Z;
  len : Z;
  best_len : Z;
  matches : MatchBuf;
  tree : matchfinder
}.

Definition strptr : Z := Z.land cur_ix ring_buffer_mask.

Definition nice_len (t : matchfinder) : Z := Z.min (nice_length_ t) max_length.

Definition sentinel (t : matchfinder) : Z := u32 (- window_mask_ t).

(** [cur_ix - prev_ix > window_mask_ - 15] *)
Definition out_of_window (t : matchfinder) (prev_ix : Z) : bool :=
  u32 (window_mask_ t - 15) <? u32 (cur_ix - prev_ix).

(** [*pending_lt_ptr = a; *pending_gt_ptr = b] where [a] and [b] are read
    from the table in this order. *)
Definition splice (d : descent) (pair : Z) : matchfinder :=
  let t1 := set_child (pending_lt_ptr d) (child_tab_ (tree d) pair) (tree d) in
  set_child (pending_gt_ptr d) (child_tab_ t1 (pair + 1)) t1.

Definition close (d : descent) : matchfinder :=
  let t1 := set_child (pending_lt_ptr d) (sentinel (tree d)) (tree d) in
  set_child (pending_gt_ptr d) (sentinel t1) t1.

(** Lines 751 to 775: the comparison at depth [len]. *)
Definition extend (best_len_ret0 : Z) (d : descent) : result + descent :=
  let matchptr := Z.land (prev_ix d) ring_buffer_mask in
  let pair := 2 * Z.land (prev_ix d) (window_mask_ (tree d)) in
  if data (matchptr + len d) =? data (strptr + len d) then
    let len1 := u32 (len d + 1) in
    let len2 :=
      u32 (len1 + FindMatchLengthWithLimit data (strptr + len1)
                    data (matchptr + len1) (u32 (max_length - len1))) in
    let d2 := {| prev_ix := prev_ix d;
                 pending_lt_ptr := pending_lt_ptr d;
                 pending_gt_ptr := pending_gt_ptr d;
                 best_lt_len := best_lt_len d;
                 best_gt_len := best_gt_len d;
                 len := len2;
                 best_len := best_len d;
                 matches := matches d;
                 tree := tree d |} in
    if negb record_matches then
      if nice_len (tree d) <=? len2 then
        inl {| matches_ret := matches d;
               best_len_ret := best_len_ret0;
               finder := splice d pair |}
      else inr d2
    else if best_len d <? len2 then
      let m := BackwardMatch2 (to_int32 (cur_ix - prev_ix d)) (to_int32 len2) in
      if nice_len (tree d) <=? len2 then
        inl {| matches_ret := push m (rewind orig_matches (matches d));
               best_len_ret := len2;
               finder := splice d pair |}
      else
        inr {| prev_ix := prev_ix d;
               pending_lt_ptr := pending_lt_ptr d;
               pending_gt_ptr := pending_gt_ptr d;
               best_lt_len := best_lt_len d;
               best_gt_len := best_gt_len d;
               len := len2;
               best_len := len2;
               matches := push m (matches d);
               tree := tree d |}
    else inr d2
  else inr d.

(** Lines 777 to 793: the step to the left or to the right child. *)
Definition branch (d : descent) : descent :=
  let matchptr := Z.land (prev_ix d) ring_buffer_mask in
  let pair := 2 * Z.land (prev_ix d) (window_mask_ (tree d)) in
  if data (matchptr + len d) <? data (strptr + len d) then
    let t1 := set_child (pending_lt_ptr d) (prev_ix d) (tree d) in
    {| prev_ix := child_tab_ t1 (pair + 1);
       pending_lt_ptr := pair + 1;
       pending_gt_ptr := pending_gt_ptr d;
       best_lt_len := len d;
       best_gt_len := best_gt_len d;
       len := if best_gt_len d <? len d then best_gt_len d else len d;
       best_len := best_len d;
       matches := matches d;
       tree := t1 |}
  else
    let t1 := set_child (pending_gt_ptr d) (prev_ix d) (tree d) in
    {| prev_ix := child_tab_ t1 pair;
       pending_lt_ptr := pending_lt_ptr d;
       pending_gt_ptr := pair;
       best_lt_len := best_lt_len d;
       best_gt_len := len d;
       len := if best_lt_len d <? len d then best_lt_len d else len d;
       best_len := best_len d;
       matches := matches d;
       tree := t1 |}.

Definition finish (d : descent) : result :=
  {| matches_ret := matches d;
     best_len_ret := best_len d;
     finder := close d |}.

(** Lines 746 to 801: the loop.  The counter [depth_remaining] is kept as
    the number of decrements that are left before it reaches 0; the loop is
    entered with a counter of at least 1. *)
Fixpoint descend (best_len_ret0 : Z) (depth_remaining : nat) (d : descent)
  : result :=
  match depth_remaining with
  | O => finish d
  | S k =>
      match extend best_len_ret0 d with
      | inl r => r
      | inr d1 =>
          let d2 := branch d1 in
          if out_of_window (tree d2) (prev_ix d2) then finish d2
          else match k with
               | O => finish d2
               | S _ => descend best_len_ret0 k d2
               end
      end
  end.

(** The number of iterations after which [--depth_remaining == 0] holds,
    for a 32-bit counter that starts at [max_search_depth_]. *)
Definition depth_budget (t : matchfinder) : nat :=
  S (Z.to_nat (u32 (max_search_depth_ t - 1))).

(** Lines 703 to 710 and 714 to 722: a subtable that keeps one position. *)
Definition probe_subtable (slot : Z) (len : Z) (same_prefix : Z -> bool)
  (tb : matchfinder * MatchBuf) : matchfinder * MatchBuf :=
  let '(t, b) := tb in
  let prev_ix := hash_tabs_ t slot in
  let t1 := set_hash slot cur_ix t in
  if record_matches
     && (u32 (cur_ix - prev_ix) <=? u32 (window_mask_ t - 15))
     && same_prefix prev_ix
  then (t1, push (BackwardMatch2 (to_int32 (cur_ix - prev_ix)) len) b)
  else (t1, b).

Definition AdvanceOneByte (t : matchfinder) (matches : MatchBuf)
  (best_len_ret0 : Z) : result :=
  if max_length <? nice_length_ t then
    {| matches_ret := matches; best_len_ret := best_len_ret0; finder := t |}
  else
    let seq4 := BROTLI_UNALIGNED_LOAD32 data strptr in
    let seq3 := BROTLI_LOADED_U32_TO_U24 seq4 in
    let seq2 := BROTLI_LOADED_U32_TO_U16 seq4 in
    let hash2 := Hash seq2 (kHash2Log P) in
    let tb2 :=
      probe_subtable (kHash2Offset P + hash2) 2
        (fun prev_ix =>
           seq2 =? BROTLI_UNALIGNED_LOAD16 data
                     (Z.land prev_ix ring_buffer_mask))
        (t, matches) in
    let hash3 := Hash seq3 (kHash3Log P) in
    let '(t3, b3) :=
      probe_subtable (kHash3Offset P + hash3) 3
        (fun prev_ix =>
           seq3 =? BROTLI_LOADED_U32_TO_U24
                     (BROTLI_UNALIGNED_LOAD32 data
                        (Z.land prev_ix ring_buffer_mask)))
        tb2 in
    let hash4 := Hash seq4 (kHash4Log P) in
    let prev_ix := hash_tabs_ t3 (kHash4Offset P + hash4) in
    let t4 := set_hash (kHash4Offset P + hash4) cur_ix t3 in
    let d := {| prev_ix := prev_ix;
                pending_lt_ptr := 2 * Z.land cur_ix (window_mask_ t4) + 0;
                pending_gt_ptr := 2 * Z.land cur_ix (window_mask_ t4) + 1;
                best_lt_len := 0;
                best_gt_len := 0;
                len := 0;
                best_len := 3;
                matches := b3;
                tree := t4 |} in
    if out_of_window t4 prev_ix then finish d
    else descend best_len_ret0 (depth_budget t4) d.

End AdvanceOneByte.

Section FindAllMatches.
Variable SD : StaticDictionary.
Variable P : params.
Variable t : matchfinder.
Variable data : Mem.
Variable cur_ix : Z.
Variable ring_buffer_mask : Z.
Variable max_length : Z.

(** Lines 839 to 845: one iteration of the loop over the lengths [l]. *)
Definition dictionary_match (dict_matches : Z -> Z) (b : MatchBuf) (l : Z)
  : MatchBuf :=
  let dict_id := dict_matches l in
  if dict_id <? kInvalidMatch SD then
    push (BackwardMatch3
            (to_int32 (u32 (Z.min cur_ix (u32 (window_mask_ t - 15))
                            + Z.shiftr dict_id 5 + 1)))
            l (Z.land dict_id 31)) b
  else b.

(** [FindAllMatches] gives the new value of [*num_matches], the caller's
    array and the tables.  [best_len0] is the indeterminate value of the
    local [best_len] before the call of [AdvanceOneByte]. *)
Definition FindAllMatches (num_matches : Z) (matches : Z -> BackwardMatch)
  (orig_matches : Z) (best_len0 : Z) : Z * MatchBuf * matchfinder :=
  let r := AdvanceOneByte P data cur_ix ring_buffer_mask max_length
             orig_matches true t
             {| arr := matches; pos := orig_matches; written := [] |}
             best_len0 in
  let minlen := to_int32 (best_len_ret r + 1) in
  let '(found, dict_matches) :=
    FindAllStaticDictionaryMatches SD data (Z.land cur_ix ring_buffer_mask)
      minlen max_length (fun _ => kInvalidMatch SD) in
  let b :=
    if found then
      let maxlen := Z.min (kMaxDictionaryMatchLen SD) (to_int32 max_length) in
      fold_left (dictionary_match dict_matches)
        (List.map (fun k => minlen + k) (zrange (maxlen - minlen + 1)))
        (matches_ret r)
    else matches_ret r in
  (to_int32 (pos b - orig_matches), b, finder r).

(** [SkipByte] passes a null pointer for [matches]; nothing is stored
    through it. *)
Definition SkipByte (best_len0 : Z) : matchfinder :=
  finder (AdvanceOneByte P data cur_ix ring_buffer_mask max_length 0 false t
            {| arr := fun _ => BackwardMatch2 0 0; pos := 0; written := [] |}
            best_len0).

End FindAllMatches.

End BT4.


(** ** struct Hashers *)

(** What the template [WarmupHash] uses of its [Hasher] argument. *)
Class Hasher (H : Type) := {
  kHashTypeLength : Z;
  Store : Mem -> Z -> Z -> H -> H
}.

Definition QuickHasher (P : Quick.params) : Hasher Quick.state :=
  {| kHashTypeLength := Quick.kHashTypeLength; Store := Quick.Store P |}.

Definition BlockHasher (P : Block.params) : Hasher Block.state :=
  {| kHashTypeLength := Block.kHashTypeLength; Store := Block.Store P |}.

Definition H1 : Quick.params :=
  {| Quick.kBucketBits := 16; Quick.kBucketSweep := 1;
     Quick.kUseDictionary := true |}.
Definition H2 : Quick.params :=
  {| Quick.kBucketBits := 16; Quick.kBucketSweep := 2;
     Quick.kUseDictionary := false |}.
Definition H3 : Quick.params :=
  {| Quick.kBucketBits := 16; Quick.kBucketSweep := 4;
     Quick.kUseDictionary := false |}.
Definition H4 : Quick.params :=
  {| Quick.kBucketBits := 17; Quick.kBucketSweep := 4;
     Quick.kUseDictionary := true |}.
Definition H5 : Block.params :=
  {| Block.kBucketBits := 14; Block.kBlockBits := 4;
     Block.kNumLastDistancesToCheck := 4 |}.
Definition H6 : Block.params :=
  {| Block.kBucketBits := 14; Block.kBlockBits := 5;
     Block.kNumLastDistancesToCheck := 4 |}.
Definition H7 : Block.params :=
  {| Block.kBucketBits := 15; Block.kBlockBits := 6;
     Block.kNumLastDistancesToCheck := 10 |}.
Definition H8 : Block.params :=
  {| Block.kBucketBits := 15; Block.kBlockBits := 7;
     Block.kNumLastDistancesToCheck := 10 |}.
Definition H9 : Block.params :=
  {| Block.kBucketBits := 15; Block.kBlockBits := 8;
     Block.kNumLastDistancesToCheck := 16 |}.
Definition H10 : BT4.params :=
  {| BT4.kHash2Log := 10; BT4.kHash3Log := 15; BT4.kHash4Log := 17 |}.

(** The ten [unique_ptr] members; [None] is the null pointer. *)
Record Hashers := {
  hash_h1 : option Quick.state;
  hash_h2 : option Quick.state;
  hash_h3 : option Quick.state;
  hash_h4 : option Quick.state;
  hash_h5 : option Block.state;
  hash_h6 : option Block.state;
  hash_h7 : option Block.state;
  hash_h8 : option Block.state;
  hash_h9 : option Block.state;
  hash_h10 : option BT4.matchfinder
}.

(** The loop of [WarmupHash], with the counter [i] of type [size_t]:
    [Store(dict, i)] as long as [i + kHashTypeLength - 1 < size].  [fuel]
    bounds the number of iterations. *)
Fixpoint WarmupHash_loop {H : Type} (I : Hasher H) (fuel : nat) (size : Z)
  (dict : Mem) (dict_p : Z) (i : Z) (hasher : H) : H :=
  match fuel with
  | O => hasher
  | S fuel' =>
      if u64 (i + kHashTypeLength - 1) <? size then
        WarmupHash_loop I fuel' size dict dict_p (u64 (i + 1))
          (Store dict dict_p (to_int32 i) hasher)
      else hasher
  end.

Definition WarmupHash {H : Type} (I : Hasher H) (size : Z) (dict : Mem)
  (dict_p : Z) (hasher : H) : H :=
  WarmupHash_loop I (Z.to_nat size) size dict dict_p 0 hasher.

(** An operation on the hasher behind [hash_h1]; a null pointer stays
    null. *)
Definition on_h1 (f : Quick.state -> Quick.state) (hs : Hashers) : Hashers :=
  {| hash_h1 := option_map f (hash_h1 hs);
     hash_h2 := hash_h2 hs;
     hash_h3 := hash_h3 hs;
     hash_h4 := hash_h4 hs;
     hash_h5 := hash_h5 hs;
     hash_h6 := hash_h6 hs;
     hash_h7 := hash_h7 hs;
     hash_h8 := hash_h8 hs;
     hash_h9 := hash_h9 hs;
     hash_h10 := hash_h10 hs |}.

(** An operation on the hasher behind [hash_h2]; a null pointer stays
    null. *)
Definition on_h2 (f : Quick.state -> Quick.state) (hs : Hashers) : Hashers :=
  {| hash_h1 := hash_h1 hs;
     hash_h2 := option_map f (hash_h2 hs);
     hash_h3 := hash_h3 hs;
     hash_h4 := hash_h4 hs;
     hash_h5 := hash_h5 hs;
     hash_h6 := hash_h6 hs;
     hash_h7 := hash_h7 hs;
     hash_h8 := hash_h8 hs;
     hash_h9 := hash_h9 hs;
     hash_h10 := hash_h10 hs |}.

(** An operation on the hasher behind [hash_h3]; a null pointer stays
    null. *)
Definition on_h3 (f : Quick.state -> Quick.state) (hs : Hashers) : Hashers :=
  {| hash_h1 := hash_h1 hs;
     hash_h2 := hash_h2 hs;
     hash_h3 := option_map f (hash_h3 hs);
     hash_h4 := hash_h4 hs;
     hash_h5 := hash_h5 hs;
     hash_h6 := hash_h6 hs;
     hash_h7 := hash_h7 hs;
     hash_h8 := hash_h8 hs;
     hash_h9 := hash_h9 hs;
     hash_h10 := hash_h10 hs |}.

(** An operation on the hasher behind [hash_h4]; a null pointer stays
    null. *)
Definition on_h4 (f : Quick.state -> Quick.state) (hs : Hashers) : Hashers :=
  {| hash_h1 := hash_h1 hs;
     hash_h2 := hash_h2 hs;
     hash_h3 := hash_h3 hs;
     hash_h4 := option_map f (hash_h4 hs);
     hash_h5 := hash_h5 hs;
     hash_h6 := hash_h6 hs;
     hash_h7 := hash_h7 hs;
     hash_h8 := hash_h8 hs;
     hash_h9 := hash_h9 hs;
     hash_h10 := hash_h10 hs |}.

(** An operation on the hasher behind [hash_h5]; a null pointer stays
    null. *)
Definition on_h5 (f : Block.state -> Block.state) (hs : Hashers) : Hashers :=
  {| hash_h1 := hash_h1 hs;
     hash_h2 := hash_h2 hs;
     hash_h3 := hash_h3 hs;
     hash_h4 := hash_h4 hs;
     hash_h5 := option_map f (hash_h5 hs);
     hash_h6 := hash_h6 hs;
     hash_h7 := hash_h7 hs;
     hash_h8 := hash_h8 hs;
     hash_h9 := hash_h9 hs;
     hash_h10 := hash_h10 hs |}.

(** An operation on the hasher behind [hash_h6]; a null pointer stays
    null. *)
Definition on_h6 (f : Block.state -> Block.state) (hs : Hashers) : Hashers :=
  {| hash_h1 := hash_h1 hs;
     hash_h2 := hash_h2 hs;
     hash_h3 := hash_h3 hs;
     hash_h4 := hash_h4 hs;
     hash_h5 := hash_h5 hs;
     hash_h6 := option_map f (hash_h6 hs);
     hash_h7 := hash_h7 hs;
     hash_h8 := hash_h8 hs;
     hash_h9 := hash_h9 hs;
     hash_h10 := hash_h10 hs |}.

(** An operation on the hasher behind [hash_h7]; a null pointer stays
    null. *)
Definition on_h7 (f : Block.state -> Block.state) (hs : Hashers) : Hashers :=
  {| hash_h1 := hash_h1 hs;
     hash_h2 := hash_h2 hs;
     hash_h3 := hash_h3 hs;
     hash_h4 := hash_h4 hs;
     hash_h5 := hash_h5 hs;
     hash_h6 := hash_h6 hs;
     hash_h7 := option_map f (hash_h7 hs);
     hash_h8 := hash_h8 hs;
     hash_h9 := hash_h9 hs;
     hash_h10 := hash_h10 hs |}.

(** An operation on the hasher behind [hash_h8]; a null pointer stays
    null. *)
Definition on_h8 (f : Block.state -> Block.state) (hs : Hashers) : Hashers :=
  {| hash_h1 := hash_h1 hs;
     hash_h2 := hash_h2 hs;
     hash_h3 := hash_h3 hs;
     hash_h4 := hash_h4 hs;
     hash_h5 := hash_h5 hs;
     hash_h6 := hash_h6 hs;
     hash_h7 := hash_h7 hs;
     hash_h8 := option_map f (hash_h8 hs);
     hash_h9 := hash_h9 hs;
     hash_h10 := hash_h10 hs |}.

(** An operation on the hasher behind [hash_h9]; a null pointer stays
    null. *)
Definition on_h9 (f : Block.state -> Block.state) (hs : Hashers) : Hashers :=
  {| hash_h1 := hash_h1 hs;
     hash_h2 := hash_h2 hs;
     hash_h3 := hash_h3 hs;
     hash_h4 := hash_h4 hs;
     hash_h5 := hash_h5 hs;
     hash_h6 := hash_h6 hs;
     hash_h7 := hash_h7 hs;
     hash_h8 := hash_h8 hs;
     hash_h9 := option_map f (hash_h9 hs);
     hash_h10 := hash_h10 hs |}.

(** [PrependCustomDictionary(type, size, dict)]. *)
Definition PrependCustomDictionary (type : Z) (size : Z) (dict : Mem)
  (dict_p : Z) (hs : Hashers) : Hashers :=
  match type with
  | 1 => on_h1 (WarmupHash (QuickHasher H1) size dict dict_p) hs
  | 2 => on_h2 (WarmupHash (QuickHasher H2) size dict dict_p) hs
  | 3 => on_h3 (WarmupHash (QuickHasher H3) size dict dict_p) hs
  | 4 => on_h4 (WarmupHash (QuickHasher H4) size dict dict_p) hs
  | 5 => on_h5 (WarmupHash (BlockHasher H5) size dict dict_p) hs
  | 6 => on_h6 (WarmupHash (BlockHasher H6) size dict dict_p) hs
  | 7 => on_h7 (WarmupHash (BlockHasher H7) size dict dict_p) hs
  | 8 => on_h8 (WarmupHash (BlockHasher H8) size dict dict_p) hs
  | 9 => on_h9 (WarmupHash (BlockHasher H9) size dict dict_p) hs
  | 10 => hs
  | _ => hs
  end.

(** ** Sequences of stores, and the words of the specification *)

(** A call [Store(&data[p], ix)]. *)
Record store_call := {
  st_data : Mem;
  st_p : Z;
  st_ix : Z
}.

Definition StoreAll (P : Block.params) (calls : list store_call)
  (s : Block.state) : Block.state :=
  fold_left (fun s c => Block.Store P (st_data c) (st_p c) (st_ix c) s) calls s.

(** The positions stored under the key [h], newest first. *)
Definition stored_at (P : Block.params) (h : Z) (calls : list store_call)
  : list Z :=
  rev (List.map st_ix
         (filter (fun c => Block.HashBytes P (st_data c) (st_p c) =? h) calls)).

(** The key of the static dictionary probe as the specification words it:
    [k = Hash<15>(p) & ~1]. *)
Definition spec_dictionary_key (data : Mem) (p : Z) : Z :=
  Z.land (Hash 15 data p) (Z.lnot 1).


(** The positions [WarmupHash] visits: those [i] with
    [i + kHashTypeLength - 1 < size]. *)
Definition warmup_positions (hash_type_length size : Z) : list Z :=
  zrange (size - hash_type_length + 1).

(** The stores of [WarmupHash] replayed from a list of positions: position
    [i] is stored with the pointer [dict + q i]. *)
Definition store_each {H : Type} (I : Hasher H) (dict : Mem) (q : Z -> Z)
  (positions : list Z) (hasher : H) : H :=
  fold_left (fun h i => Store dict (q i) i h) positions hasher.

(** The warm-up as the specification words it: one [Store] for each [i] of
    the half-open range from 0 to [size - kHashTypeLength], hashing the bytes
    [dict[i..]] and recording [i]. *)
Definition spec_WarmupHash {H : Type} (I : Hasher H) (size : Z) (dict : Mem)
  (dict_p : Z) (hasher : H) : H :=
  store_each I dict (fun i => dict_p + i) (zrange (size - kHashTypeLength))
    hasher.

(** ** Data for the examples *)

Definition Qltb (a b : Q) : bool := (Qnum a * QDen b <? Qnum b * QDen a)%Z.

(** Scores computed exactly, in the rationals. *)
Definition exact_scores : DoubleOps :=
  {| double := Q;
     d_lit := fun q => q;
     d_of_int := inject_Z;
     d_mul := Qmult;
     d_sub := Qminus;
     d_lt := Qltb;
     d_lt_trans := fun a b c Hab Hbc =>
       proj2 (Z.ltb_lt _ _)
         (Qlt_trans a b c (proj1 (Z.ltb_lt _ _) Hab)
                          (proj1 (Z.ltb_lt _ _) Hbc)) |}.

(** A memory that holds the bytes of [l] from offset 0, and 0 elsewhere. *)
Definition mem_of (l : list Z) : Mem :=
  fun i => if i <? 0 then 0 else nth (Z.to_nat i) l 0.

(** A static dictionary without words. *)
Definition no_words : StaticDictionary :=
  {| kStaticDictionaryHash := fun _ => 0;
     kBrotliDictionaryOffsetsByLength := fun _ => 0;
     kBrotliDictionarySizeBitsByLength := fun _ => 0;
     kBrotliDictionary := fun _ => 0;
     kMaxDictionaryMatchLen := 37;
     kInvalidMatch := 268435455;
     FindAllStaticDictionaryMatches := fun _ _ _ _ m => (false, m) |}.

(** A block hasher with counters and positions left over from an earlier
    stream. *)
Definition fresh_block : Block.state :=
  {| Block.num_ := fun _ => 9; Block.buckets_ := fun _ _ => -1;
     Block.num_dict_lookups_ := 5; Block.num_dict_matches_ := 5 |}.

(** A block hasher without stored positions whose dictionary quota is
    used up: 128 lookups and no match, so that [FindLongestMatch] does not
    consult the dictionary. *)
Definition quota_spent : Block.state :=
  {| Block.num_ := fun _ => 0; Block.buckets_ := fun _ _ => -1;
     Block.num_dict_lookups_ := 128; Block.num_dict_matches_ := 0 |}.

Definition fresh_quick : Quick.state :=
  Quick.Reset {| Quick.buckets_ := fun _ => 9;
                 Quick.num_dict_lookups_ := 9;
                 Quick.num_dict_matches_ := 9 |}.

Definition empty_matches : MatchBuf :=
  {| arr := fun _ => BackwardMatch2 0 0; pos := 0; written := [] |}.

(** H10 as [Init] creates it: [lgwin = 10], search depth 32, nice length
    48. *)
Definition fresh_bt4 : BT4.matchfinder :=
  BT4.create H10 10 32 48 (fun _ => 7) (fun _ => 7).

(** A [Hashers] whose only hasher is an H5 that has just been reset. *)
Definition only_h5 : Hashers :=
  {| hash_h1 := None; hash_h2 := None; hash_h3 := None; hash_h4 := None;
     hash_h5 := Some (Block.Reset fresh_block);
     hash_h6 := None; hash_h7 := None; hash_h8 := None; hash_h9 := None;
     hash_h10 := None |}.

(** "ababababab". *)
Definition abab : Mem := mem_of [97; 98; 97; 98; 97; 98; 97; 98; 97; 98].

(** Three stores of the same four bytes into a block hasher. *)
Definition three_stores : list store_call :=
  [ {| st_data := abab; st_p := 0; st_ix := 0 |};
    {| st_data := abab; st_p := 2; st_ix := 2 |};
    {| st_data := abab; st_p := 4; st_ix := 4 |} ].

(** The eight bytes "abcdefgh" again and again. *)
Definition period8 : Mem := fun i => 97 + i mod 8.

(** The first sixteen positions of [period8] stored into a block hasher. *)
Definition warm16 : Block.state :=
  StoreAll H5
    (List.map (fun i => {| st_data := period8; st_p := i; st_ix := i |})
       (zrange 16))
    (Block.Reset fresh_block).


(** A run of equal bytes. *)
Definition all_x : Mem := fun _ => 120.

(** "abcdefgh", "xyz", "abcdefgh". *)
Definition repeat_after_xyz : Mem :=
  mem_of [97; 98; 99; 100; 101; 102; 103; 104; 120; 121; 122;
          97; 98; 99; 100; 101; 102; 103; 104].

(** The four in/out parameters on entry, with an exact score. *)
Definition entry (len len_code dist : Z) (score : Q)
  : Out (D := exact_scores) :=
  @Build_Out exact_scores len len_code dist score.

(** The H10 of [fresh_bt4] after the position 8 of [period8] was
    inserted. *)
Definition bt4_after_8 : BT4.matchfinder :=
  BT4.finder (BT4.AdvanceOneByte H10 period8 8 1023 64 0 true fresh_bt4
                empty_matches 0).

(** ** Invariants *)

(** The ring of a bucket of a block hasher: [hist] lists the positions
    stored under [h], newest first. *)
Definition bucket_inv (P : Block.params) (h : Z) (s : Block.state)
  (hist : list Z) : Prop :=
  Block.num_ s h = Z.of_nat (List.length hist) /\
  forall j, 0 <= j < Z.min (Z.of_nat (List.length hist)) (Block.kBlockSize P) ->
    Block.buckets_ s h
      (Z.land (Z.of_nat (List.length hist) - 1 - j) (Block.kBlockMask P))
    = nth (Z.to_nat j) hist 0.

(** The search of a block hasher entered with the outputs [o]: either
    nothing was accepted yet, and the outputs are as [enter] left them, or
    the score written last beats the score on entry. *)
Definition improving {D : DoubleOps} (o : Out) (L : Block.locals) : Prop :=
  (Block.match_found L = false /\
   Block.out L = Block.out (Block.enter o) /\
   Block.best_score L = best_score_out o) \/
  (Block.match_found L = true /\
   d_lt (best_score_out o) (Block.best_score L) = true /\
   best_score_out (Block.out L) = Block.best_score L).

(** The probe of [distance_cache[0]] of a quick hasher accepted a match. *)
Definition last_distance_hits {D : DoubleOps} (P : Quick.params)
  (ring_buffer : Mem) (mask : Z) (distance_cache : Z -> Z)
  (cur_ix max_length : Z) (o : Out) : bool :=
  match Quick.probe_last_distance P ring_buffer mask distance_cache cur_ix
          max_length o with
  | Return _ _ => true
  | Continue L => Quick.match_found L
  end.

(** The same for the search of a quick hasher in which the probe of
    [distance_cache[0]] accepted nothing. *)
Definition q_improving {D : DoubleOps} (o : Out) (L : Quick.locals) : Prop :=
  (Quick.match_found L = false /\
   Quick.out L = o /\
   Quick.best_score L = best_score_out o) \/
  (Quick.match_found L = true /\
   d_lt (best_score_out o) (Quick.best_score L) = true /\
   best_score_out (Quick.out L) = Quick.best_score L).

(** The locals of a quick hasher when the probe of [distance_cache[0]]
    accepts nothing. *)
Definition q_start {D : DoubleOps} (rb : Mem) (mask cur_ix : Z) (o : Out)
  : Quick.locals :=
  {| Quick.out := o;
     Quick.best_score := best_score_out o;
     Quick.best_len := best_len_out o;
     Quick.compare_char :=
       rb (Quick.cur_ix_masked mask cur_ix + best_len_out o);
     Quick.match_found := false |}.

(** The scans of [FindAllMatches]: every match so far is at most as long
    as the best, and a best match beyond [kMaxZopfliLen] is the only one
    between the start [orig] of the array and the write pointer. *)
Definition scan_inv (orig : Z) (c : Block.scan) : Prop :=
  (forall m, In m (written (Block.buf c)) -> length m <= Block.longest c) /\
  (kMaxZopfliLen < Block.longest c ->
   pos (Block.buf c) = orig + 1 /\
   In (arr (Block.buf c) orig) (written (Block.buf c)) /\
   length (arr (Block.buf c) orig) = Block.longest c).

(** The cell [i] of [child_tab_] was assigned since the store history was
    [base]. *)
Definition assigned_since (base : list (Z * Z)) (i : Z) (t : BT4.matchfinder)
  : Prop :=
  exists new, BT4.child_stores t = new ++ base /\ In i (List.map fst new).

Definition extends (base : list (Z * Z)) (t : BT4.matchfinder) : Prop :=
  exists new, BT4.child_stores t = new ++ base.






(** ** Matches of the data *)

(** The [len] bytes of [m1] from [p1] are those of [m2] from [p2]. *)
Definition same_bytes (m1 : Mem) (p1 : Z) (m2 : Mem) (p2 len : Z) : Prop :=
  forall j, 0 <= j < len -> m1 (p1 + j) = m2 (p2 + j).

(** Outputs that describe a copy from the ring buffer: at least [min_len]
    and at most [max_length] bytes, the length code being the length, and
    the bytes [best_distance_out] before [cur_ix] being those at [cur_ix]. *)
Definition copies_window {D : DoubleOps} (data : Mem)
  (mask cur_ix max_length min_len : Z) (o : Out) : Prop :=
  min_len <= best_len_out o <= max_length /\
  best_len_code_out o = best_len_out o /\
  same_bytes data (Z.land (cur_ix - best_distance_out o) mask)
    data (Z.land cur_ix mask) (best_len_out o).

(** Outputs that describe a word of the static dictionary: the length code
    is the length of the word, below 32 and at most [max_length]; the copy
    length is the part of the word that agrees with the data, cut by fewer
    than [kCutoffTransformsCount] bytes. *)
Definition copies_word {D : DoubleOps} (SD : StaticDictionary) (data : Mem)
  (mask cur_ix max_length : Z) (o : Out) : Prop :=
  0 < best_len_out o <= best_len_code_out o /\
  best_len_code_out o <= max_length /\
  best_len_code_out o < 32 /\
  best_len_code_out o - kCutoffTransformsCount < best_len_out o /\
  exists w,
    same_bytes data (Z.land cur_ix mask) (kBrotliDictionary SD)
      (kBrotliDictionaryOffsetsByLength SD (best_len_code_out o)
       + best_len_code_out o * w)
      (best_len_out o).

(** The locals of the search of a block hasher, once a match was found,
    hold a copy from the ring buffer at most [max_backward] away. *)
Definition window_found {D : DoubleOps} (data : Mem)
  (mask cur_ix max_length max_backward : Z) (L : Block.locals) : Prop :=
  Block.match_found L = true ->
  copies_window data mask cur_ix max_length 2 (Block.out L) /\
  u32 (best_distance_out (Block.out L)) <= max_backward.

(** The dictionary loop of a block hasher entered with the locals [L0] and
    the counter [m0]: nothing was accepted, or the locals hold a word. *)
Definition word_or_unchanged {D : DoubleOps} (SD : StaticDictionary)
  (data : Mem) (mask cur_ix max_length : Z) (L0 : Block.locals) (m0 : Z)
  (d : Block.dict_state) : Prop :=
  (Block.loc d = L0 /\ Block.matches d = m0) \/
  (Block.match_found (Block.loc d) = true /\
   copies_word SD data mask cur_ix max_length (Block.out (Block.loc d))).

(** The outputs of a quick hasher that hold a copy from the ring buffer:
    it has at least 4 bytes and, unless the probe of [distance_cache[0]]
    accepted a match, lies between 1 and [max_backward] back. *)
Definition q_window_match {D : DoubleOps} (P : Quick.params) (rb : Mem)
  (mask : Z) (distance_cache : Z -> Z) (cur_ix max_length max_backward : Z)
  (o0 o : Out) : Prop :=
  copies_window rb mask cur_ix max_length 4 o /\
  (last_distance_hits P rb mask distance_cache cur_ix max_length o0 = true \/
   1 <= u32 (best_distance_out o) <= max_backward).

(** ** Ranges of stores, and the caller's array of matches *)

(** The calls of [Store] that [StoreHashes] makes, in their order. *)
Definition StoreHashes_calls (data : Mem) (data_p len startix mask : Z)
  : list store_call :=
  List.map (fun p => {| st_data := data; st_p := data_p + Z.land p mask;
                        st_ix := startix + p |}) (zrange len).

(** The cell of [buckets_] that [Store(&data[p], ix)] of a quick hasher
    writes. *)
Definition Quick_cell (P : Quick.params) (data : Mem) (p ix : Z) : Z :=
  Quick.HashBytes P data p + Z.shiftr (u32 ix) 3 mod Quick.kBucketSweep P.

(** The matches between the start [orig] of the caller's array and the
    write pointer: their lengths lie between 2 and [bound] and increase
    strictly. *)
Definition sorted_below (orig bound : Z) (b : MatchBuf) : Prop :=
  orig <= pos b /\
  (forall i, orig <= i < pos b -> 2 <= length (arr b i) <= bound) /\
  (forall i j, orig <= i -> i < j -> j < pos b ->
               length (arr b i) < length (arr b j)).

(** ** The descent of the BT4 matchfinder *)

(** The cells of [hash_tabs_] that belong to the two, three and four bytes
    at [cur_ix]. *)
Definition BT4_slot2 (P : BT4.params) (data : Mem) (cur_ix mask : Z) : Z :=
  BT4.kHash2Offset P
  + BT4.Hash (BROTLI_LOADED_U32_TO_U16
                (BROTLI_UNALIGNED_LOAD32 data (BT4.strptr cur_ix mask)))
      (BT4.kHash2Log P).

Definition BT4_slot3 (P : BT4.params) (data : Mem) (cur_ix mask : Z) : Z :=
  BT4.kHash3Offset P
  + BT4.Hash (BROTLI_LOADED_U32_TO_U24
                (BROTLI_UNALIGNED_LOAD32 data (BT4.strptr cur_ix mask)))
      (BT4.kHash3Log P).

Definition BT4_slot4 (P : BT4.params) (data : Mem) (cur_ix mask : Z) : Z :=
  BT4.kHash4Offset P
  + BT4.Hash (BROTLI_UNALIGNED_LOAD32 data (BT4.strptr cur_ix mask))
      (BT4.kHash4Log P).

(** [AdvanceOneByte] after the two subtables that keep one position each:
    the tables and the caller's array. *)
Definition BT4_probes (P : BT4.params) (data : Mem) (cur_ix mask : Z)
  (record : bool) (t : BT4.matchfinder) (matches : MatchBuf)
  : BT4.matchfinder * MatchBuf :=
  let seq4 := BROTLI_UNALIGNED_LOAD32 data (BT4.strptr cur_ix mask) in
  let seq3 := BROTLI_LOADED_U32_TO_U24 seq4 in
  let seq2 := BROTLI_LOADED_U32_TO_U16 seq4 in
  BT4.probe_subtable cur_ix record (BT4_slot3 P data cur_ix mask) 3
    (fun prev_ix =>
       seq3 =? BROTLI_LOADED_U32_TO_U24
                 (BROTLI_UNALIGNED_LOAD32 data (Z.land prev_ix mask)))
    (BT4.probe_subtable cur_ix record (BT4_slot2 P data cur_ix mask) 2
       (fun prev_ix =>
          seq2 =? BROTLI_UNALIGNED_LOAD16 data (Z.land prev_ix mask))
       (t, matches)).

(** The locals of [AdvanceOneByte] when the descent of the tree starts. *)
Definition BT4_start (P : BT4.params) (data : Mem) (cur_ix mask : Z)
  (record : bool) (t : BT4.matchfinder) (matches : MatchBuf) : BT4.descent :=
  let tb := BT4_probes P data cur_ix mask record t matches in
  let t4 := BT4.set_hash (BT4_slot4 P data cur_ix mask) cur_ix (fst tb) in
  {| BT4.prev_ix := BT4.hash_tabs_ (fst tb) (BT4_slot4 P data cur_ix mask);
     BT4.pending_lt_ptr := 2 * Z.land cur_ix (BT4.window_mask_ t4) + 0;
     BT4.pending_gt_ptr := 2 * Z.land cur_ix (BT4.window_mask_ t4) + 1;
     BT4.best_lt_len := 0;
     BT4.best_gt_len := 0;
     BT4.len := 0;
     BT4.best_len := 3;
     BT4.matches := snd tb;
     BT4.tree := t4 |}.

(** The members of the matchfinder other than [child_tab_]. *)
Definition same_hash_tabs (t t' : BT4.matchfinder) : Prop :=
  BT4.hash_tabs_ t' = BT4.hash_tabs_ t /\
  BT4.window_mask_ t' = BT4.window_mask_ t /\
  BT4.max_search_depth_ t' = BT4.max_search_depth_ t /\
  BT4.nice_length_ t' = BT4.nice_length_ t.

(** Every match stored since the history [old] lies at most
    [window_mask - 15] back (as [uint32_t]). *)
Definition in_window (window_mask : Z) (old : list BackwardMatch)
  (b : MatchBuf) : Prop :=
  forall m, In m (written b) ->
    In m old \/ u32 (distance m) <= u32 (window_mask - 15).

(** The descent while matches are recorded: the matches so far are sorted
    by length, the best length is below the nice length [nl], and the
    number of bytes known to agree is at most the best length. *)
Definition bt4_sorted (orig nl : Z) (d : BT4.descent) : Prop :=
  sorted_below orig (BT4.best_len d) (BT4.matches d) /\
  3 <= BT4.best_len d < nl /\
  0 <= BT4.len d <= BT4.best_len d /\
  0 <= BT4.best_lt_len d /\
  0 <= BT4.best_gt_len d /\
  BT4.nice_length_ (BT4.tree d) = nl.

(** What [AdvanceOneByte] reports when matches are recorded: the matches
    are sorted by length, none is longer than [*best_len_ret], and a best
    length of at least the nice length [nl] is that of a single match. *)
Definition bt4_reported (orig nl max_length : Z) (r : BT4.result) : Prop :=
  sorted_below orig (BT4.best_len_ret r) (BT4.matches_ret r) /\
  3 <= BT4.best_len_ret r <= max_length /\
  (nl <= BT4.best_len_ret r ->
   pos (BT4.matches_ret r) = orig + 1 /\
   length (arr (BT4.matches_ret r) orig) = BT4.best_len_ret r).

(** ** The matches of [FindAllMatches] *)

(** A match that is a copy from the ring buffer: between 2 and
    [max_length] bytes, at most [max_backward] back (as [uint32_t]), the
    bytes that far before [cur_ix] being those at [cur_ix]. *)
Definition window_match (data : Mem) (mask cur_ix max_length max_backward : Z)
  (m : BackwardMatch) : Prop :=
  2 <= length m <= max_length /\
  u32 (distance m) <= max_backward /\
  same_bytes data (Z.land (cur_ix - distance m) mask)
    data (Z.land cur_ix mask) (length m).

(** A match that stands for a word of the static dictionary: at least 4
    bytes, with a distance beyond [max_backward] that encodes the word. *)
Definition dictionary_word_match (max_backward : Z) (m : BackwardMatch)
  : Prop :=
  exists dict_id,
    4 <= length m /\
    m = BackwardMatch3
          (to_int32 (u32 (max_backward + Z.shiftr dict_id 5 + 1)))
          (length m) (Z.land dict_id 31).

(** Every match between the start [orig] of the caller's array and the
    write pointer satisfies [Q]. *)
Definition all_cells (Q : BackwardMatch -> Prop) (orig : Z) (b : MatchBuf)
  : Prop :=
  forall i, orig <= i < pos b -> Q (arr b i).

(** * Properties *)

(** ** Machine integers *)

Lemma u16_small : forall x, 0 <= x < 2 ^ 16 -> u16 x = x.
Proof. intros x Hx. unfold u16. apply Z.mod_small. exact Hx. Qed.

Lemma u32_small : forall x, 0 <= x < 2 ^ 32 -> u32 x = x.
Proof. intros x Hx. unfold u32. apply Z.mod_small. exact Hx. Qed.

Lemma u32_range : forall x, 0 <= u32 x < 2 ^ 32.
Proof. intros x. unfold u32. apply Z.mod_pos_bound. reflexivity. Qed.

Lemma to_int32_small : forall x, - 2 ^ 31 <= x < 2 ^ 31 -> to_int32 x = x.
Proof.
  intros x Hx. unfold to_int32.
  destruct (Z_lt_le_dec x 0) as [Hneg | Hpos].
  - replace (x mod 2 ^ 32) with (x + 2 ^ 32).
    + destruct (Z.ltb_spec (x + 2 ^ 32) (2 ^ 31)); lia.
    + apply Z.mod_unique with (q := -1); lia.
  - rewrite Z.mod_small by lia.
    destruct (Z.ltb_spec x (2 ^ 31)); lia.
Qed.

Lemma upd_same : forall (A : Type) (i : Z) (v : A) (a : Z -> A),
  upd i v a i = v.
Proof. intros. unfold upd. rewrite Z.eqb_refl. reflexivity. Qed.

Lemma upd_other : forall (A : Type) (i j : Z) (v : A) (a : Z -> A),
  j <> i -> upd i v a j = a j.
Proof.
  intros A i j v a Hne. unfold upd.
  destruct (Z.eqb_spec j i); [contradiction | reflexivity].
Qed.

(** ** The ring of positions of a bucket (block hashers) *)

Section BucketRing.
Variable P : Block.params.
Variable h : Z.

Lemma block_size_cases :
  (Block.kBlockSize P = 0 /\ Block.kBlockBits P < 0) \/
  (0 <= Block.kBlockBits P /\
   Block.kBlockSize P = 2 ^ Block.kBlockBits P /\
   forall x, Z.land x (Block.kBlockMask P) = x mod 2 ^ Block.kBlockBits P).
Proof.
  unfold Block.kBlockSize, Block.kBlockMask.
  destruct (Z_lt_le_dec (Block.kBlockBits P) 0) as [Hneg | Hpos].
  - left. split; [| exact Hneg].
    rewrite Z.shiftl_1_l. apply Z.pow_neg_r. exact Hneg.
  - right. split; [exact Hpos |]. split.
    + apply Z.shiftl_1_l.
    + intros x. rewrite <- Z.land_ones by exact Hpos.
      unfold Z.ones. rewrite <- Z.sub_1_r. reflexivity.
Qed.

Lemma slots_differ : forall n j,
  1 <= j < Block.kBlockSize P ->
  Z.land (n - j) (Block.kBlockMask P) <> Z.land n (Block.kBlockMask P).
Proof.
  intros n j Hj.
  destruct block_size_cases as [[H0 _] | [Hk [Hsz Hland]]]; [lia |].
  rewrite !Hland. rewrite Hsz in Hj. intros Heq.
  assert (Hz : (n - (n - j)) mod 2 ^ Block.kBlockBits P = 0).
  { rewrite Zminus_mod, Heq, Z.sub_diag. apply Zmod_0_l. }
  replace (n - (n - j)) with j in Hz by lia.
  rewrite Z.mod_small in Hz by lia. lia.
Qed.

Lemma bucket_inv_Reset : forall s, bucket_inv P h (Block.Reset s) [].
Proof.
  intros s. split; [reflexivity |].
  intros j Hj. simpl in Hj. lia.
Qed.

Lemma bucket_inv_Store_other : forall data p ix s hist,
  Block.HashBytes P data p <> h ->
  bucket_inv P h s hist ->
  bucket_inv P h (Block.Store P data p ix s) hist.
Proof.
  intros data p ix s hist Hne [Hnum Hslots].
  unfold bucket_inv, Block.Store; simpl.
  rewrite !upd_other by congruence.
  split; assumption.
Qed.

Lemma bucket_inv_Store_same : forall data p ix s hist,
  Block.HashBytes P data p = h ->
  Z.of_nat (List.length hist) + 1 < 2 ^ 16 ->
  bucket_inv P h s hist ->
  bucket_inv P h (Block.Store P data p ix s) (ix :: hist).
Proof.
  intros data p ix s hist Hkey Hlen [Hnum Hslots].
  unfold bucket_inv, Block.Store.
  cbn [Block.num_ Block.buckets_ List.length].
  rewrite Hkey, !upd_same, Hnum, Nat2Z.inj_succ.
  split.
  - rewrite u16_small by lia. lia.
  - intros j Hj.
    destruct (Z.eq_dec j 0) as [-> | Hj0].
    + replace (Z.succ (Z.of_nat (List.length hist)) - 1 - 0)
        with (Z.of_nat (List.length hist)) by lia.
      rewrite upd_same. reflexivity.
    + replace (Z.succ (Z.of_nat (List.length hist)) - 1 - j)
        with (Z.of_nat (List.length hist) - j) by lia.
      rewrite upd_other by (apply slots_differ; lia).
      replace (Z.to_nat j) with (S (Z.to_nat (j - 1))) by lia.
      simpl nth.
      rewrite <- Hslots by lia.
      f_equal. f_equal. lia.
Qed.

Lemma stored_at_cons : forall c calls,
  stored_at P h (c :: calls) =
  stored_at P h calls ++
  (if Block.HashBytes P (st_data c) (st_p c) =? h then [st_ix c] else []).
Proof.
  intros c calls. unfold stored_at. simpl filter.
  destruct (Block.HashBytes P (st_data c) (st_p c) =? h); simpl.
  - reflexivity.
  - rewrite app_nil_r. reflexivity.
Qed.

Lemma bucket_inv_StoreAll : forall calls s hist,
  bucket_inv P h s hist ->
  Z.of_nat (List.length (stored_at P h calls ++ hist)) < 2 ^ 16 ->
  bucket_inv P h (StoreAll P calls s) (stored_at P h calls ++ hist).
Proof.
  induction calls as [| c calls IH]; intros s hist Hinv Hlen.
  - exact Hinv.
  - rewrite stored_at_cons in *. rewrite <- app_assoc in *.
    change (StoreAll P (c :: calls) s)
      with (StoreAll P calls (Block.Store P (st_data c) (st_p c) (st_ix c) s)).
    apply IH; [| exact Hlen].
    destruct (Z.eqb_spec (Block.HashBytes P (st_data c) (st_p c)) h)
      as [Heq | Hne]; simpl app.
    + apply bucket_inv_Store_same; [exact Heq | | exact Hinv].
      rewrite length_app in Hlen. simpl in Hlen. lia.
    + apply bucket_inv_Store_other; assumption.
Qed.

End BucketRing.

(** C7.  After [Reset] and any sequence of [Store] calls of a block hasher
    in which fewer than 2^16 stores had the key [h], [num_[h]] is the number
    of those stores, and the [min(num_[h], kBlockSize)] newest of their
    positions are found at [buckets_[h][(num_[h] - 1 - j) & kBlockMask]],
    [j = 0] being the newest. *)
Theorem block_store_keeps_newest_positions :
  forall (P : Block.params) (s : Block.state) (calls : list store_call)
         (h : Z),
    let s' := StoreAll P calls (Block.Reset s) in
    let hist := stored_at P h calls in
    Z.of_nat (List.length hist) < 2 ^ 16 ->
    Block.num_ s' h = Z.of_nat (List.length hist) /\
    forall j, 0 <= j < Z.min (Block.num_ s' h) (Block.kBlockSize P) ->
      Block.buckets_ s' h
        (Z.land (Block.num_ s' h - 1 - j) (Block.kBlockMask P))
      = nth (Z.to_nat j) hist 0.
Proof.
  intros P s calls h s' hist Hlen.
  destruct (bucket_inv_StoreAll P h calls (Block.Reset s) [])
    as [Hnum Hslots].
  - apply bucket_inv_Reset.
  - rewrite app_nil_r. exact Hlen.
  - rewrite app_nil_r in Hnum, Hslots. fold s' in Hnum, Hslots.
    fold hist in Hnum, Hslots.
    split; [exact Hnum |].
    intros j Hj. rewrite Hnum in *. apply Hslots. exact Hj.
Qed.

Lemma block_store_keeps_newest_positions_witness :
  let h := Block.HashBytes H5 abab 0 in
  let s' := StoreAll H5 three_stores (Block.Reset fresh_block) in
  Block.num_ s' h = 3 /\
  forall j, 0 <= j < Z.min (Block.num_ s' h) (Block.kBlockSize H5) ->
    Block.buckets_ s' h (Z.land (Block.num_ s' h - 1 - j) (Block.kBlockMask H5))
    = nth (Z.to_nat j) [4; 2; 0] 0.
Proof.
  exact (block_store_keeps_newest_positions H5 fresh_block three_stores
           (Block.HashBytes H5 abab 0) eq_refl).
Defined.

(** ** The key of the static dictionary *)






Section DictionaryReads.
Context {D : DoubleOps}.
Variable SD : StaticDictionary.


Lemma block_dictionary_step_reads : forall data mask cur_ix max_length
  max_backward key0 d k,
  Block.reads (Block.dictionary_step SD data mask cur_ix max_length
                 max_backward key0 d k)
  = Block.reads d ++ [u32 (key0 + k)].
Proof.
  intros. unfold Block.dictionary_step. cbv zeta.
  repeat match goal with
         | |- context [if ?b then _ else _] => destruct b
         end; reflexivity.
Qed.


End DictionaryReads.


(** ** The stream tail of the binary tree matchfinder *)

(** C9.  [AdvanceOneByte] called with [max_length < nice_length_] returns
    the pointer [matches] it was given, nothing recorded, and leaves
    [hash_tabs_] and [child_tab_] (the whole matchfinder) as they were. *)
Theorem bt4_short_lookahead_inserts_nothing :
  forall P data cur_ix ring_buffer_mask max_length orig_matches
         record_matches t matches best_len0,
    max_length < BT4.nice_length_ t ->
    let r := BT4.AdvanceOneByte P data cur_ix ring_buffer_mask max_length
               orig_matches record_matches t matches best_len0 in
    BT4.matches_ret r = matches /\
    BT4.finder r = t /\
    BT4.hash_tabs_ (BT4.finder r) = BT4.hash_tabs_ t /\
    BT4.child_tab_ (BT4.finder r) = BT4.child_tab_ t.
Proof.
  intros P data cur_ix mask max_length orig record t matches best_len0 Hshort r.
  subst r. unfold BT4.AdvanceOneByte.
  apply Z.ltb_lt in Hshort. rewrite Hshort.
  cbn [BT4.matches_ret BT4.finder]. repeat split; reflexivity.
Qed.

Lemma bt4_short_lookahead_inserts_nothing_witness :
  let r := BT4.AdvanceOneByte H10 abab 2 1023 8 0 true fresh_bt4
             empty_matches 0 in
  BT4.matches_ret r = empty_matches /\
  BT4.finder r = fresh_bt4 /\
  BT4.hash_tabs_ (BT4.finder r) = BT4.hash_tabs_ fresh_bt4 /\
  BT4.child_tab_ (BT4.finder r) = BT4.child_tab_ fresh_bt4.
Proof.
  exact (bt4_short_lookahead_inserts_nothing H10 abab 2 1023 8 0 true
           fresh_bt4 empty_matches 0 eq_refl).
Defined.

(** ** The count of matches *)

(** C10.  The block hashers' [FindAllMatches] adds the number of matches
    of the call, [matches - orig_matches], to the value [*num_matches] had
    (and what it stores does not depend on that value); the binary tree
    matchfinder's [FindAllMatches] sets [*num_matches] to that number
    whatever value it had. *)
Theorem num_matches_added_by_block_set_by_bt4 :
  (forall SD P s data mask cur_ix max_length max_backward num_matches
          matches orig_matches,
     let r := Block.FindAllMatches SD P s data mask cur_ix max_length
                max_backward num_matches matches orig_matches in
     let count := pos (snd r) - orig_matches in
     snd r = snd (Block.FindAllMatches SD P s data mask cur_ix max_length
                    max_backward 0 matches orig_matches) /\
     fst r = to_int32 (num_matches + count) /\
     (- 2 ^ 31 <= num_matches + count < 2 ^ 31 ->
      fst r = num_matches + count)) /\
  (forall SD P t data cur_ix mask max_length num_matches matches
          orig_matches best_len0,
     let r := BT4.FindAllMatches SD P t data cur_ix mask max_length
                num_matches matches orig_matches best_len0 in
     let count := pos (snd (fst r)) - orig_matches in
     r = BT4.FindAllMatches SD P t data cur_ix mask max_length
           0 matches orig_matches best_len0 /\
     fst (fst r) = to_int32 count /\
     (- 2 ^ 31 <= count < 2 ^ 31 -> fst (fst r) = count)).
Proof.
  split.
  - intros SD P s data mask cur_ix max_length max_backward n matches orig
      r count.
    subst count r. unfold Block.FindAllMatches. cbn [fst snd].
    split; [reflexivity |]. split; [reflexivity |].
    intros Hrange. apply to_int32_small. exact Hrange.
  - intros SD P t data cur_ix mask max_length n matches orig best_len0
      r count.
    subst count r. unfold BT4.FindAllMatches.
    destruct (FindAllStaticDictionaryMatches SD data (Z.land cur_ix mask) _ _ _)
      as [found dict_matches].
    cbn [fst snd].
    split; [reflexivity |]. split; [reflexivity |].
    intros Hrange. apply to_int32_small. exact Hrange.
Qed.

(** ** The warm-up of the hashers *)

Section Warmup.
Context {H : Type} (I : Hasher H).
Variables (size : Z) (dict : Mem) (dict_p : Z).
Hypothesis type_length : 1 <= kHashTypeLength <= 2 ^ 31.
Hypothesis size_is_int : 0 <= size < 2 ^ 31.

Lemma WarmupHash_loop_stores : forall n a fuel h,
  (n <= fuel)%nat ->
  (a + n = Z.to_nat (size - kHashTypeLength + 1))%nat ->
  WarmupHash_loop I fuel size dict dict_p (Z.of_nat a) h
  = store_each I dict (fun _ => dict_p) (List.map Z.of_nat (seq a n)) h.
Proof.
  induction n as [| n IH]; intros a fuel h Hfuel Hsum.
  - destruct fuel as [| fuel]; [reflexivity |].
    cbn [WarmupHash_loop seq List.map store_each fold_left].
    unfold u64. rewrite Z.mod_small by lia.
    destruct (Z.ltb_spec (Z.of_nat a + kHashTypeLength - 1) size);
      [lia | reflexivity].
  - destruct fuel as [| fuel]; [lia |].
    cbn [WarmupHash_loop seq List.map].
    unfold u64. rewrite !Z.mod_small by lia.
    destruct (Z.ltb_spec (Z.of_nat a + kHashTypeLength - 1) size); [| lia].
    rewrite to_int32_small by lia.
    replace (Z.of_nat a + 1) with (Z.of_nat (S a)) by lia.
    rewrite IH by lia. reflexivity.
Qed.

Lemma WarmupHash_stores : forall h,
  WarmupHash I size dict dict_p h
  = store_each I dict (fun _ => dict_p)
      (warmup_positions kHashTypeLength size) h.
Proof.
  intros h. unfold WarmupHash, warmup_positions, zrange.
  apply (WarmupHash_loop_stores _ 0%nat); lia.
Qed.

End Warmup.

(** C3 (amended).  For the types 1 to 9, [PrependCustomDictionary] stores
    into the hasher of that type once for every [i] with
    [i + kHashTypeLength - 1 < size], that is for [i] from 0 to
    [size - kHashTypeLength] inclusive, in increasing order, each store
    recording the position [i]; for type 10, and any other type, nothing
    changes. *)
Theorem prepend_custom_dictionary_stores_each_position :
  forall type size dict dict_p hs,
    0 <= size < 2 ^ 31 ->
    exists q : Z -> Z,
      let quick P := store_each (QuickHasher P) dict q
                       (warmup_positions Quick.kHashTypeLength size) in
      let block P := store_each (BlockHasher P) dict q
                       (warmup_positions Block.kHashTypeLength size) in
      PrependCustomDictionary type size dict dict_p hs =
      match type with
      | 1 => on_h1 (quick H1) hs
      | 2 => on_h2 (quick H2) hs
      | 3 => on_h3 (quick H3) hs
      | 4 => on_h4 (quick H4) hs
      | 5 => on_h5 (block H5) hs
      | 6 => on_h6 (block H6) hs
      | 7 => on_h7 (block H7) hs
      | 8 => on_h8 (block H8) hs
      | 9 => on_h9 (block H9) hs
      | 10 => hs
      | _ => hs
      end.
Proof.
  intros type size dict dict_p hs Hsize.
  exists (fun _ => dict_p). cbv zeta.
  assert (Hq : forall P h,
    WarmupHash (QuickHasher P) size dict dict_p h
    = store_each (QuickHasher P) dict (fun _ => dict_p)
        (warmup_positions Quick.kHashTypeLength size) h).
  { intros P h. apply (WarmupHash_stores (QuickHasher P)).
    - cbn. unfold Quick.kHashTypeLength. lia.
    - exact Hsize. }
  assert (Hb : forall P h,
    WarmupHash (BlockHasher P) size dict dict_p h
    = store_each (BlockHasher P) dict (fun _ => dict_p)
        (warmup_positions Block.kHashTypeLength size) h).
  { intros P h. apply (WarmupHash_stores (BlockHasher P)).
    - cbn. unfold Block.kHashTypeLength. lia.
    - exact Hsize. }
  assert (Hmap : forall (A : Type) (f g : A -> A) (o : option A),
    (forall x, f x = g x) -> option_map f o = option_map g o).
  { intros A f g o Hfg. destruct o; simpl; [rewrite Hfg |]; reflexivity. }
  unfold PrependCustomDictionary.
  destruct type as [| p | p]; [reflexivity | | reflexivity].
  do 4 (try (destruct p as [p | p |]));
    lazymatch goal with
    | |- ?a = ?a => reflexivity
    | |- _ =>
        unfold on_h1, on_h2, on_h3, on_h4, on_h5, on_h6, on_h7, on_h8, on_h9;
        f_equal; apply Hmap; intros x; first [apply Hq | apply Hb]
    end.
Qed.

Lemma prepend_custom_dictionary_stores_each_position_witness :
  exists q : Z -> Z,
    PrependCustomDictionary 5 4 abab 0 only_h5
    = on_h5 (store_each (BlockHasher H5) abab q
               (warmup_positions Block.kHashTypeLength 4)) only_h5.
Proof.
  apply (prepend_custom_dictionary_stores_each_position 5 4 abab 0 only_h5).
  lia.
Defined.

(** The warm-up of the specification on the input of the witness: the range
    from 0 to [size - kHashTypeLength] is empty for [size = 4] and nothing
    is stored, while the code stores position 0. *)
Lemma prepend_custom_dictionary_range_is_not_half_open :
  hash_h5 (PrependCustomDictionary 5 4 abab 0 only_h5)
  <> option_map (spec_WarmupHash (BlockHasher H5) 4 abab 0)
       (hash_h5 only_h5).
Proof.
  intros Heq.
  apply (f_equal (fun h => match h with
                           | Some s => Block.num_ s (Block.HashBytes H5 abab 0)
                           | None => 0
                           end)) in Heq.
  vm_compute in Heq. discriminate Heq.
Qed.

(** Case analysis on every test of the goal. *)
Ltac split_ifs :=
  repeat match goal with
         | |- context [if ?b then _ else _] => destruct b eqn:?
         end.

(** ** Scores and outputs of [FindLongestMatch] (block hashers) *)

Section BlockSearch.
Context {D : DoubleOps}.
Variable SD : StaticDictionary.
Variable P : Block.params.
Variable s : Block.state.
Variable data : Mem.
Variable mask : Z.
Variable distance_cache : Z -> Z.
Variables cur_ix max_length max_backward : Z.
Variable o : Out.

Lemma improving_enter : improving o (Block.enter o).
Proof. left. repeat split. Qed.

Lemma improving_accept : forall L len len_code backward score,
  improving o L ->
  d_lt (Block.best_score L) score = true ->
  improving o (Block.accept len len_code backward score).
Proof.
  intros L len len_code backward score HL Hlt.
  right. split; [reflexivity |]. split; [| reflexivity].
  cbn [Block.accept Block.best_score].
  destruct HL as [[_ [_ Hs]] | [_ [Hin _]]].
  - rewrite <- Hs. exact Hlt.
  - exact (d_lt_trans _ _ _ Hin Hlt).
Qed.

Lemma improving_last_distance_step : forall L i,
  improving o L ->
  improving o (Block.last_distance_step data mask distance_cache cur_ix
               max_length max_backward L i).
Proof.
  intros L i HL. unfold Block.last_distance_step. cbv zeta.
  split_ifs; try exact HL.
  eapply improving_accept; eassumption.
Qed.

Lemma improving_last_distances : forall l L,
  improving o L ->
  improving o (fold_left (Block.last_distance_step data mask distance_cache
                          cur_ix max_length max_backward) l L).
Proof.
  induction l as [| i l IH]; intros L HL; [exact HL |].
  apply IH. apply improving_last_distance_step. exact HL.
Qed.

Lemma improving_bucket_loop : forall fuel i L,
  improving o L ->
  improving o (Block.bucket_loop P s data mask cur_ix max_length max_backward
               fuel i L).
Proof.
  induction fuel as [| fuel IH]; intros i L HL; [exact HL |].
  cbn [Block.bucket_loop]. cbv zeta.
  split_ifs; try exact HL; apply IH; try exact HL.
  eapply improving_accept; eassumption.
Qed.

Lemma improving_dictionary_step : forall key0 d k,
  improving o (Block.loc d) ->
  improving o (Block.loc (Block.dictionary_step SD data mask cur_ix max_length
                          max_backward key0 d k)).
Proof.
  intros key0 d k Hd. unfold Block.dictionary_step. cbv zeta.
  split_ifs; cbn [Block.loc]; try exact Hd.
  eapply improving_accept; eassumption.
Qed.

Lemma improving_dictionary_steps : forall key0 l d,
  improving o (Block.loc d) ->
  improving o (Block.loc (fold_left
                          (Block.dictionary_step SD data mask cur_ix
                             max_length max_backward key0) l d)).
Proof.
  induction l as [| k l IH]; intros d Hd; [exact Hd |].
  apply IH. apply improving_dictionary_step. exact Hd.
Qed.

(** The flag and the outputs of [FindLongestMatch] are those of locals
    that satisfy [improving]. *)
Lemma block_FindLongestMatch_improving :
  exists L,
    improving o L /\
    Block.ret (Block.FindLongestMatch SD P s data mask distance_cache cur_ix
                 max_length max_backward o) = Block.match_found L /\
    Block.outs (Block.FindLongestMatch SD P s data mask distance_cache cur_ix
                  max_length max_backward o) = Block.out L.
Proof.
  unfold Block.FindLongestMatch. cbv zeta.
  set (L2 := Block.bucket_loop _ _ _ _ _ _ _ _ _ _).
  assert (H2 : improving o L2).
  { apply improving_bucket_loop, improving_last_distances, improving_enter. }
  unfold Block.probe_dictionary.
  destruct (negb (Block.match_found L2) && _).
  - eexists. split; [| split; reflexivity].
    apply improving_dictionary_steps. exact H2.
  - exists L2. split; [exact H2 | split; reflexivity].
Qed.


Lemma block_false_keeps_distance_and_score :
  let r := Block.FindLongestMatch SD P s data mask distance_cache cur_ix
             max_length max_backward o in
  Block.ret r = false ->
  Block.outs r = {| best_len_out := 0; best_len_code_out := 0;
                    best_distance_out := best_distance_out o;
                    best_score_out := best_score_out o |}.
Proof.
  intros r Hret. subst r.
  destruct block_FindLongestMatch_improving as [L [HL [Hr Ho]]].
  rewrite Hr in Hret. rewrite Ho.
  destruct HL as [[_ [Hout _]] | [Ht _]]; [exact Hout | congruence].
Qed.

End BlockSearch.

(** ** Scores and outputs of [FindLongestMatch] (quick hashers) *)

Section QuickSearch.
Context {D : DoubleOps}.
Variable SD : StaticDictionary.
Variable P : Quick.params.
Variable s : Quick.state.
Variable rb : Mem.
Variable mask : Z.
Variable distance_cache : Z -> Z.
Variables cur_ix max_length max_backward : Z.
Variable o : Out.

Lemma q_improving_start : q_improving o (q_start rb mask cur_ix o).
Proof. left. repeat split. Qed.

Lemma probe_last_distance_cases :
  let c := Quick.probe_last_distance P rb mask distance_cache cur_ix
             max_length o in
  (last_distance_hits P rb mask distance_cache cur_ix max_length o = false /\
   c = Continue (q_start rb mask cur_ix o)) \/
  (last_distance_hits P rb mask distance_cache cur_ix max_length o = true /\
   ((exists L, c = Return true L) \/
    (exists L, c = Continue L /\ Quick.match_found L = true /\
               Quick.kBucketSweep P <> 1))).
Proof.
  unfold last_distance_hits, Quick.probe_last_distance. cbv zeta.
  fold (q_start rb mask cur_ix o).
  split_ifs; try (left; split; reflexivity); right; split;
    try reflexivity.
  - left. eexists. reflexivity.
  - right. eexists. split; [reflexivity |]. split; [reflexivity |].
    intros H1. rewrite H1 in *. discriminate.
Qed.

Lemma q_improving_sweep_step : forall L i,
  q_improving o L ->
  q_improving o (Quick.sweep_step P s rb mask cur_ix max_length max_backward
                 L i).
Proof.
  intros L i HL. unfold Quick.sweep_step. cbv zeta.
  split_ifs; try exact HL.
  right. split; [reflexivity |]. split; [| reflexivity].
  cbn [Quick.accept Quick.best_score].
  destruct HL as [[_ [_ Hs]] | [_ [Hin _]]].
  - rewrite <- Hs. assumption.
  - eapply d_lt_trans; eassumption.
Qed.

Lemma found_sweep_step : forall L i,
  Quick.match_found L = true ->
  Quick.match_found (Quick.sweep_step P s rb mask cur_ix max_length
                       max_backward L i) = true.
Proof.
  intros L i HL. unfold Quick.sweep_step. cbv zeta.
  split_ifs; first [exact HL | reflexivity].
Qed.

Lemma q_improving_lookup_sweep : forall L,
  q_improving o L ->
  q_improving o (Quick.lookup_sweep P s rb mask cur_ix max_length max_backward
                 L).
Proof.
  unfold Quick.lookup_sweep. generalize (zrange (Quick.kBucketSweep P)).
  induction l as [| i l IH]; intros L HL; [exact HL |].
  apply IH. apply q_improving_sweep_step. exact HL.
Qed.

Lemma found_lookup_sweep : forall L,
  Quick.match_found L = true ->
  Quick.match_found (Quick.lookup_sweep P s rb mask cur_ix max_length
                       max_backward L) = true.
Proof.
  unfold Quick.lookup_sweep. generalize (zrange (Quick.kBucketSweep P)).
  induction l as [| i l IH]; intros L HL; [exact HL |].
  apply IH. apply found_sweep_step. exact HL.
Qed.

Lemma q_probe_dictionary_found : forall L,
  Quick.match_found L = true ->
  Quick.ret (Quick.probe_dictionary SD P s rb mask cur_ix max_length
               max_backward L) = true.
Proof.
  intros L HL. unfold Quick.probe_dictionary. rewrite HL.
  rewrite andb_false_r. reflexivity.
Qed.

Lemma q_probe_dictionary_improving : forall L,
  q_improving o L ->
  let r := Quick.probe_dictionary SD P s rb mask cur_ix max_length
             max_backward L in
  (Quick.ret r = false /\ Quick.outs r = o) \/
  (Quick.ret r = true /\
   d_lt (best_score_out o) (best_score_out (Quick.outs r)) = true).
Proof.
  intros L HL r. subst r. unfold Quick.probe_dictionary. cbv zeta.
  destruct HL as [[Hf [Hout Hs]] | [Ht [Hlt Hsc]]].
  - rewrite Hf.
    split_ifs; cbn [Quick.ret Quick.outs best_score_out];
      try (left; split; [reflexivity | exact Hout]).
    right. split; [reflexivity |]. rewrite <- Hs. assumption.
  - rewrite Ht. rewrite andb_false_r.
    right. cbn [Quick.ret Quick.outs andb]. split; [reflexivity |].
    rewrite Hsc. exact Hlt.
Qed.

Lemma lookup_single_cases : forall L,
  let c := Quick.lookup_single P s rb mask cur_ix max_length max_backward
             (best_len_out o) L in
  c = Return false L \/ c = Continue L \/
  exists L', c = Return true L' /\
    4 <= best_len_out (Quick.out L') /\
    best_score_out (Quick.out L')
    = BackwardReferenceScore (best_len_out (Quick.out L'))
        (best_distance_out (Quick.out L')).
Proof.
  intros L. unfold Quick.lookup_single. cbv zeta.
  split_ifs; auto.
  right. right. eexists. split; [reflexivity |].
  cbn [Quick.out best_len_out best_score_out best_distance_out].
  split; [| reflexivity].
  apply Z.leb_le. assumption.
Qed.

Lemma quick_false_keeps_outputs :
  let r := Quick.FindLongestMatch SD P s rb mask distance_cache cur_ix
             max_length max_backward o in
  Quick.ret r = false -> Quick.outs r = o.
Proof.
  intros r Hret. subst r. unfold Quick.FindLongestMatch in *.
  destruct probe_last_distance_cases
    as [[_ Hc] | [_ [[L Hc] | [L [Hc [Hfound Hsweep]]]]]];
    rewrite Hc in *.
  - destruct (Quick.kBucketSweep P =? 1).
    + destruct (lookup_single_cases (q_start rb mask cur_ix o)) as [Hl | [Hl | [L' [Hl _]]]];
        rewrite Hl in *.
      * reflexivity.
      * destruct (q_probe_dictionary_improving (q_start rb mask cur_ix o) q_improving_start)
          as [[_ Ho] | [Ht _]]; [exact Ho | congruence].
      * discriminate Hret.
    + destruct (q_probe_dictionary_improving _
                  (q_improving_lookup_sweep _ q_improving_start))
        as [[_ Ho] | [Ht _]]; [exact Ho | congruence].
  - discriminate Hret.
  - destruct (Z.eqb_spec (Quick.kBucketSweep P) 1); [contradiction |].
    rewrite q_probe_dictionary_found in Hret; [discriminate Hret |].
    apply found_lookup_sweep. exact Hfound.
Qed.


End QuickSearch.

(** ** C1: the score on a successful search *)




(** The probe of [distance_cache[0]] does the same: H3 entered with the
    score 100 accepts the match of length 8 at the last distance and leaves
    the score 5.4 * 8 + 0.6. *)
Example quick_last_distance_lowers_score :
  let o := entry 0 0 0 100 in
  let r := Quick.FindLongestMatch (D := exact_scores) no_words H3
             fresh_quick period8 63 (fun _ => 8) 16 8 16 o in
  Quick.ret r = true /\
  best_distance_out (Quick.outs r) = 8 /\
  Qeq (best_score_out (Quick.outs r)) 43.8 /\
  d_lt (best_score_out o) (best_score_out (Quick.outs r)) = false.
Proof. vm_compute. repeat split; reflexivity. Qed.

(** ** C4: the outputs of an unsuccessful search *)

(** C4 (amended).  A call of a quick hasher's [FindLongestMatch] that
    returns false leaves the four outputs as they were on entry.  A call of
    a block hasher's that returns false leaves [*best_distance_out] and
    [*best_score_out] as they were and has set [*best_len_out] and
    [*best_len_code_out] to 0. *)
Theorem outputs_after_unsuccessful_search :
  forall (D : DoubleOps) (SD : StaticDictionary),
    (forall P s rb mask distance_cache cur_ix max_length max_backward o,
       let r := Quick.FindLongestMatch SD P s rb mask distance_cache cur_ix
                  max_length max_backward o in
       Quick.ret r = false -> Quick.outs r = o) /\
    (forall P s data mask distance_cache cur_ix max_length max_backward o,
       let r := Block.FindLongestMatch SD P s data mask distance_cache cur_ix
                  max_length max_backward o in
       Block.ret r = false ->
       Block.outs r = {| best_len_out := 0; best_len_code_out := 0;
                         best_distance_out := best_distance_out o;
                         best_score_out := best_score_out o |}).
Proof.
  intros D SD. split.
  - intros. apply quick_false_keeps_outputs. assumption.
  - intros. apply block_false_keeps_distance_and_score. assumption.
Qed.

Lemma outputs_after_unsuccessful_search_witness :
  Quick.outs (Quick.FindLongestMatch (D := exact_scores) no_words H1
                fresh_quick period8 63 (table [4; 11; 15; 16]) 16 8 15
                (entry 5 5 3 4))
  = entry 5 5 3 4 /\
  Block.outs (Block.FindLongestMatch (D := exact_scores) no_words H5
                quota_spent period8 63 (fun _ => 4) 16 8 16
                (entry 5 5 3 4))
  = entry 0 0 3 4.
Proof.
  split.
  - exact (proj1 (outputs_after_unsuccessful_search exact_scores no_words)
             H1 fresh_quick period8 63 (table [4; 11; 15; 16]) 16 8 15
             (entry 5 5 3 4) eq_refl).
  - exact (proj2 (outputs_after_unsuccessful_search exact_scores no_words)
             H5 quota_spent period8 63 (fun _ => 4) 16 8 16
             (entry 5 5 3 4) eq_refl).
Defined.

(** H5 without stored positions and with its dictionary quota used up,
    entered with the length 5 and the length code 5: nothing matches, the
    dictionary is not consulted, the call returns false, and both are 0 on
    exit. *)
Lemma block_unsuccessful_search_clears_lengths :
  let o := entry 5 5 3 4 in
  let r := Block.FindLongestMatch (D := exact_scores) no_words H5
             quota_spent period8 63 (fun _ => 4) 16 8 16 o in
  Block.ret r = false /\
  Block.dict_reads r = [] /\
  best_len_out (Block.outs r) = 0 /\
  best_len_code_out (Block.outs r) = 0 /\
  best_len_out (Block.outs r) <> best_len_out o /\
  best_len_code_out (Block.outs r) <> best_len_code_out o.
Proof. vm_compute. repeat split; discriminate. Qed.

(** ** C2: the distance of a match from the last-distance probe *)

(** C2 (the code at the failing input).  H1 at position 16 of [period8]
    with [max_backward = 4] and [distance_cache[0] = 8]: the probe of the
    last distance accepts the match of length 8 at distance 8, which is
    beyond [max_backward]. *)
Theorem quick_last_distance_exceeds_max_backward :
  let max_backward := 4 in
  let r := Quick.FindLongestMatch (D := exact_scores) no_words H1
             fresh_quick period8 63 (fun _ => 8) 16 8 max_backward
             (entry 0 0 0 4) in
  Quick.ret r = true /\
  Quick.dict_reads r = [] /\
  best_len_out (Quick.outs r) = 8 /\
  best_distance_out (Quick.outs r) = 8 /\
  max_backward < best_distance_out (Quick.outs r).
Proof. vm_compute. repeat split; reflexivity. Qed.

(** A block hasher in which the position [cur_ix] itself is stored reports
    a match at distance 0. *)
Lemma block_bucket_reports_distance_zero :
  let s := Block.Store H5 period8 16 16 (Block.Reset fresh_block) in
  let r := Block.FindLongestMatch (D := exact_scores) no_words H5 s
             period8 63 (fun _ => 4) 16 8 16 (entry 0 0 0 4) in
  Block.ret r = true /\ best_distance_out (Block.outs r) = 0.
Proof. vm_compute. repeat split; reflexivity. Qed.

(** ** C5: matches longer than [kMaxZopfliLen] *)

Lemma match_length_bound : forall n m1 p1 m2 p2,
  0 <= match_length n m1 p1 m2 p2 <= Z.of_nat n.
Proof.
  induction n as [| n IH]; intros m1 p1 m2 p2; cbn [match_length].
  - lia.
  - destruct (m1 p1 =? m2 p2).
    + specialize (IH m1 (p1 + 1) m2 (p2 + 1)). lia.
    + lia.
Qed.

Lemma FindMatchLengthWithLimit_bound : forall m1 p1 m2 p2 limit,
  0 <= limit ->
  0 <= FindMatchLengthWithLimit m1 p1 m2 p2 limit <= limit.
Proof.
  intros m1 p1 m2 p2 limit Hl. unfold FindMatchLengthWithLimit.
  pose proof (match_length_bound (Z.to_nat limit) m1 p1 m2 p2). lia.
Qed.

Lemma length_BackwardMatch2 : forall dist len,
  length (BackwardMatch2 dist len) = len.
Proof.
  intros dist len. unfold length, BackwardMatch2. cbn [length_and_code].
  rewrite Z.shiftr_shiftl_l by lia. apply Z.shiftl_0_r.
Qed.

Lemma length_BackwardMatch3 : forall dist len dict_id,
  length (BackwardMatch3 dist len (Z.land dict_id 31)) = len.
Proof.
  intros dist len dict_id. unfold length, BackwardMatch3.
  cbn [length_and_code].
  rewrite Z.shiftr_lor, Z.shiftr_shiftl_l, Z.shiftl_0_r by lia.
  assert (Hcode : 0 <= Z.land dict_id 31 < 2 ^ 5).
  { change 31 with (Z.ones 5). rewrite Z.land_ones by lia.
    apply Z.mod_pos_bound. lia. }
  replace (Z.shiftr (if len =? Z.land dict_id 31 then 0
                     else Z.land dict_id 31) 5) with 0.
  - apply Z.lor_0_r.
  - rewrite Z.shiftr_div_pow2 by lia.
    destruct (len =? Z.land dict_id 31).
    + reflexivity.
    + symmetry. apply Z.div_small. exact Hcode.
Qed.

Section LongMatches.
Variable SD : StaticDictionary.
Variable P : Block.params.
Variable s : Block.state.
Variable data : Mem.
Variable mask : Z.
Variables cur_ix max_length max_backward : Z.
Variable orig : Z.
Hypothesis max_length_is_int : 0 <= max_length < 2 ^ 31.

Lemma scan_inv_record_match : forall backward len c,
  0 <= len <= max_length ->
  scan_inv orig c ->
  scan_inv orig (Block.record_match orig backward len c).
Proof.
  intros backward len c Hlen [Hall Hlong]. unfold Block.record_match.
  destruct (Z.ltb_spec (Block.longest c) len) as [Hlt | Hge];
    [| split; assumption].
  rewrite (to_int32_small len) by lia.
  split; cbn [Block.longest Block.buf].
  - intros m [<- | Hin].
    + rewrite length_BackwardMatch2. lia.
    + specialize (Hall m).
      destruct (kMaxZopfliLen <? len); cbn [written rewind] in Hin;
        specialize (Hall Hin); lia.
  - intros Hbig. apply Z.ltb_lt in Hbig. rewrite Hbig.
    cbn [push rewind pos arr written].
    rewrite upd_same, length_BackwardMatch2.
    split; [reflexivity |]. split; [left; reflexivity | reflexivity].
Qed.

Lemma scan_inv_short_scan : forall fuel i c,
  scan_inv orig c ->
  scan_inv orig (Block.short_scan data mask cur_ix max_length max_backward orig
              fuel i c).
Proof.
  induction fuel as [| fuel IH]; intros i c Hc; [exact Hc |].
  cbn [Block.short_scan]. cbv zeta.
  split_ifs; try exact Hc; apply IH; try exact Hc.
  apply scan_inv_record_match; [| exact Hc].
  apply FindMatchLengthWithLimit_bound. lia.
Qed.

Lemma scan_inv_bucket_scan : forall fuel i c,
  scan_inv orig c ->
  scan_inv orig (Block.bucket_scan P s data mask cur_ix max_length max_backward
              orig fuel i c).
Proof.
  induction fuel as [| fuel IH]; intros i c Hc; [exact Hc |].
  cbn [Block.bucket_scan]. cbv zeta.
  split_ifs; try exact Hc; apply IH; try exact Hc.
  apply scan_inv_record_match; [| exact Hc].
  apply FindMatchLengthWithLimit_bound. lia.
Qed.

Lemma scan_inv_scan_matches : forall matches,
  scan_inv orig (Block.scan_matches P s data mask cur_ix max_length max_backward
              matches orig).
Proof.
  intros matches. unfold Block.scan_matches. cbv zeta.
  apply scan_inv_bucket_scan, scan_inv_short_scan.
  split; cbn [Block.longest Block.buf written].
  - intros m [].
  - unfold kMaxZopfliLen. lia.
Qed.

(** What the loop over the dictionary lengths appends. *)
Lemma dictionary_matches_written : forall dict_matches ls b m,
  In m (written (fold_left (Block.dictionary_match SD max_backward
                              dict_matches) ls b)) ->
  In m (written b) \/ exists l, In l ls /\ length m = l.
Proof.
  induction ls as [| l ls IH]; intros b m Hin; [left; exact Hin |].
  cbn [fold_left] in Hin. apply IH in Hin.
  destruct Hin as [Hin | [l' [Hl' Hm]]].
  - unfold Block.dictionary_match in Hin.
    destruct (dict_matches l <? kInvalidMatch SD); [| left; exact Hin].
    destruct Hin as [<- | Hin]; [| left; exact Hin].
    right. exists l. split; [left; reflexivity |].
    apply length_BackwardMatch3.
  - right. exists l'. split; [right; exact Hl' | exact Hm].
Qed.

Lemma dictionary_pass_written : forall c m,
  In m (written (Block.dictionary_pass SD data mask cur_ix max_length
                   max_backward c)) ->
  In m (written (Block.buf c)) \/ length m <= kMaxDictionaryMatchLen SD.
Proof.
  intros c m. unfold Block.dictionary_pass.
  destruct (FindAllStaticDictionaryMatches SD data _ _ _ _)
    as [found dict_matches].
  destruct found; [| left; assumption].
  intros Hin. apply dictionary_matches_written in Hin.
  destruct Hin as [Hin | [l [Hl Hm]]]; [left; exact Hin | right].
  apply in_map_iff in Hl. destruct Hl as [k [<- Hk]].
  unfold zrange in Hk. apply in_map_iff in Hk.
  destruct Hk as [n [<- Hn]]. apply in_seq in Hn. lia.
Qed.

Lemma dictionary_pass_after_long_match : forall c,
  kMaxDictionaryMatchLen SD <= kMaxZopfliLen ->
  kMaxZopfliLen < Block.longest c ->
  Block.dictionary_pass SD data mask cur_ix max_length max_backward c
  = Block.buf c.
Proof.
  intros c Hdict Hlong. unfold Block.dictionary_pass.
  destruct (FindAllStaticDictionaryMatches SD data _ _ _ _)
    as [found dict_matches].
  destruct found; [| reflexivity].
  unfold zrange.
  replace (Z.to_nat _) with 0%nat by lia. reflexivity.
Qed.

End LongMatches.

(** C5.  When a match that a block hasher's [FindAllMatches] finds is
    longer than [kMaxZopfliLen], the call leaves exactly one match between
    the start of the caller's array and the returned write pointer (and
    adds 1 to [*num_matches]); it is a match of the scan, no match of the
    scan is longer, and the dictionary pass has written nothing.  The
    dictionary collaborator is taken to report no word longer than
    [kMaxZopfliLen], and [max_length] to fit an [int]. *)
Theorem block_long_match_is_reported_alone :
  forall SD P s data mask cur_ix max_length max_backward num_matches
         matches orig_matches,
    0 <= max_length < 2 ^ 31 ->
    kMaxDictionaryMatchLen SD <= kMaxZopfliLen ->
    let c := Block.scan_matches P s data mask cur_ix max_length max_backward
               matches orig_matches in
    let r := Block.FindAllMatches SD P s data mask cur_ix max_length
               max_backward num_matches matches orig_matches in
    (exists m, In m (written (snd r)) /\ kMaxZopfliLen < length m) ->
    pos (snd r) - orig_matches = 1 /\
    fst r = to_int32 (num_matches + 1) /\
    In (arr (snd r) orig_matches) (written (Block.buf c)) /\
    (forall m, In m (written (Block.buf c)) ->
               length m <= length (arr (snd r) orig_matches)) /\
    written (snd r) = written (Block.buf c).
Proof.
  intros SD P s data mask cur_ix max_length max_backward num_matches
    matches orig Hmax Hdict c r [m [Hin Hlen]].
  subst r. unfold Block.FindAllMatches in *. cbv zeta in *.
  cbn [fst snd] in *. fold c in Hin |- *.
  destruct (scan_inv_scan_matches P s data mask cur_ix max_length
              max_backward orig Hmax matches) as [Hall Hlong].
  fold c in Hall, Hlong.
  assert (Hbest : kMaxZopfliLen < Block.longest c).
  { apply dictionary_pass_written in Hin.
    destruct Hin as [Hin | Hshort]; [| lia].
    specialize (Hall m Hin). lia. }
  rewrite (dictionary_pass_after_long_match SD data mask cur_ix max_length
             max_backward c Hdict Hbest).
  destruct (Hlong Hbest) as [Hpos [Hfirst Hfirst_len]].
  rewrite Hpos, Hfirst_len.
  split; [lia |]. split; [f_equal; lia |].
  split; [exact Hfirst |]. split; [exact Hall | reflexivity].
Qed.

Lemma block_long_match_is_reported_alone_witness :
  let c := Block.scan_matches H5 (Block.Reset fresh_block) all_x 1023 2 400 2
             (arr empty_matches) 0 in
  let r := Block.FindAllMatches no_words H5 (Block.Reset fresh_block)
             all_x 1023 2 400 2 0 (arr empty_matches) 0 in
  pos (snd r) - 0 = 1 /\
  fst r = to_int32 (0 + 1) /\
  In (arr (snd r) 0) (written (Block.buf c)) /\
  (forall m, In m (written (Block.buf c)) ->
             length m <= length (arr (snd r) 0)) /\
  written (snd r) = written (Block.buf c).
Proof.
  apply (block_long_match_is_reported_alone no_words H5
           (Block.Reset fresh_block) all_x 1023 2 400 2 0
           (arr empty_matches) 0).
  - lia.
  - vm_compute. discriminate.
  - exists (BackwardMatch2 1 400). split.
    + vm_compute. left. reflexivity.
    + vm_compute. reflexivity.
Defined.

(** ** C6: the children of the new node *)




Lemma assigned_extends : forall base i t,
  assigned_since base i t -> extends base t.
Proof. intros base i t [new [Hnew _]]. exists new. exact Hnew. Qed.

Section NewNode.
Variable P : BT4.params.
Variable data : Mem.
Variable cur_ix : Z.
Variable mask : Z.
Variable max_length : Z.
Variable orig : Z.
Variable record_matches : bool.
Variable base : list (Z * Z).
Variables lt_slot gt_slot : Z.







End NewNode.

Lemma probe_subtable_keeps_children : forall cur_ix record_matches slot len
  same_prefix t b,
  let tb := BT4.probe_subtable cur_ix record_matches slot len same_prefix
              (t, b) in
  BT4.child_stores (fst tb) = BT4.child_stores t /\
  BT4.window_mask_ (fst tb) = BT4.window_mask_ t /\
  BT4.child_tab_ (fst tb) = BT4.child_tab_ t /\
  BT4.hash_tabs_ (fst tb) = upd slot cur_ix (BT4.hash_tabs_ t).
Proof.
  intros. subst tb. unfold BT4.probe_subtable.
  destruct (_ && _ && _); repeat split; reflexivity.
Qed.

Section Links.
Variable data : Mem.
Variable cur_ix : Z.
Variable mask : Z.
Variable max_length : Z.
Variable orig : Z.
Variable record_matches : bool.
Variable t0 : BT4.matchfinder.







End Links.

Lemma BT4_Hash_range : forall seq num_bits,
  0 <= num_bits <= 32 -> 0 <= BT4.Hash seq num_bits < 2 ^ num_bits.
Proof.
  intros seq num_bits Hb. unfold BT4.Hash. cbv zeta.
  pose proof (u32_range (seq * kHashMul32)) as Hr.
  rewrite Z.shiftr_div_pow2 by lia.
  assert (Hpow : 2 ^ (32 - num_bits) * 2 ^ num_bits = 2 ^ 32).
  { rewrite <- Z.pow_add_r by lia. f_equal. lia. }
  assert (0 < 2 ^ (32 - num_bits)) by (apply Z.pow_pos_nonneg; lia).
  split.
  - apply Z.div_pos; lia.
  - apply Z.div_lt_upper_bound; lia.
Qed.





(** ** The scenarios of the specification, run on the embedding *)

(** Last-distance hit: H5 at the second "abcdefgh" with
    [distance_cache[0] = 11] reports length 8 at distance 11, scored with
    the short code 0 (5.4 * 8 + 0.6). *)
Example scenario_last_distance_hit :
  let s := StoreAll H5
             (List.map (fun i => {| st_data := repeat_after_xyz; st_p := i;
                                    st_ix := i |}) (zrange 11))
             (Block.Reset fresh_block) in
  let r := Block.FindLongestMatch (D := exact_scores) no_words H5 s
             repeat_after_xyz 63 (table [11; 4; 15; 16]) 11 8 11
             (entry 0 0 0 4) in
  Block.ret r = true /\
  best_len_out (Block.outs r) = 8 /\
  best_distance_out (Block.outs r) = 11 /\
  Qeq (best_score_out (Block.outs r)) 43.8.
Proof. vm_compute. repeat split; reflexivity. Qed.

(** Single repeat: a run of equal bytes, H1 at position 4 with
    [distance_cache[0] = 1] reports length 32 at distance 1. *)
Example scenario_single_repeat :
  let s := fold_left (fun s i => Quick.Store H1 all_x i i s) (zrange 4)
             fresh_quick in
  let r := Quick.FindLongestMatch (D := exact_scores) no_words H1 s all_x
             255 (table [1; 11; 15; 16]) 4 32 255 (entry 0 0 0 4) in
  Quick.ret r = true /\
  best_len_out (Quick.outs r) = 32 /\
  best_distance_out (Quick.outs r) = 1 /\
  Qeq (best_score_out (Quick.outs r)) 173.4.
Proof. vm_compute. repeat split; reflexivity. Qed.

(** The dictionary is reached: H1 finds a match of length 3 only and reads
    one entry, H5 finds nothing and reads two. *)
Example dictionary_entries_are_read :
  let k := spec_dictionary_key period8 16 in
  Quick.dict_reads
    (Quick.FindLongestMatch (D := exact_scores) no_words H1 fresh_quick
       period8 63 (table [4; 11; 15; 16]) 16 3 16 (entry 0 0 0 4)) = [k] /\
  Block.dict_reads
    (Block.FindLongestMatch (D := exact_scores) no_words H5
       (Block.Reset fresh_block) period8 63 (fun _ => 4) 16 8 16
       (entry 0 0 0 4)) = [k; Z.lor k 1].
Proof. vm_compute. split; reflexivity. Qed.

(** The new node of the witness above is node 16: its slots 32 and 33
    receive the sentinel, the bucket being empty. *)
Example fresh_tree_gets_sentinels :
  BT4.child_stores
    (BT4.finder (BT4.AdvanceOneByte H10 period8 16 1023 64 0 true fresh_bt4
                   empty_matches 0))
  = [(33, 4294966273); (32, 4294966273)].
Proof. vm_compute. reflexivity. Qed.

(** ** Distances that the other probes accept (for comparison with C2) *)

Lemma u32_zero_shift : forall a b, u32 b = 0 -> u32 (a - b) = u32 a.
Proof.
  intros a b Hb. unfold u32 in *.
  rewrite <- Zminus_mod_idemp_r, Hb, Z.sub_0_r. reflexivity.
Qed.

(** The last-distance loop of the block hashers tests [max_backward]: a
    step that accepts a candidate leaves a distance between 1 and
    [max_backward] (read as [uint32_t]). *)
Lemma block_last_distance_within_max_backward :
  forall (D : DoubleOps) data mask distance_cache cur_ix max_length
         max_backward L i,
    0 <= cur_ix < 2 ^ 32 ->
    let L' := Block.last_distance_step data mask distance_cache cur_ix
                max_length max_backward L i in
    L' = L \/
    1 <= u32 (best_distance_out (Block.out L')) <= max_backward.
Proof.
  intros D data mask dc cur_ix max_length max_backward L i Hcur L'.
  subst L'. unfold Block.last_distance_step. cbv zeta.
  destruct (Z.leb_spec cur_ix
              (u32 (cur_ix - (dc (kDistanceCacheIndex i)
                              + kDistanceCacheOffset i))))
    as [| Hprev]; [left; reflexivity |].
  destruct (Z.ltb_spec max_backward
              (u32 (dc (kDistanceCacheIndex i) + kDistanceCacheOffset i)))
    as [| Hmax]; [left; reflexivity |].
  split_ifs; try (left; reflexivity).
  right. cbn [Block.accept Block.out best_distance_out].
  split; [| exact Hmax].
  pose proof (u32_range (dc (kDistanceCacheIndex i) + kDistanceCacheOffset i))
    as Hr.
  destruct (Z.eq_dec
              (u32 (dc (kDistanceCacheIndex i) + kDistanceCacheOffset i)) 0)
    as [Hz | Hnz]; [| lia].
  rewrite (u32_zero_shift cur_ix _ Hz), u32_small in Hprev by exact Hcur.
  lia.
Qed.

(** The sweep of the quick hashers tests it too. *)
Lemma quick_sweep_within_max_backward :
  forall (D : DoubleOps) P s rb mask cur_ix max_length max_backward L i,
    let L' := Quick.sweep_step P s rb mask cur_ix max_length max_backward
                L i in
    L' = L \/
    1 <= u32 (best_distance_out (Quick.out L')) <= max_backward.
Proof.
  intros D P s rb mask cur_ix max_length max_backward L i L'.
  subst L'. unfold Quick.sweep_step. cbv zeta.
  destruct (negb _); [left; reflexivity |].
  destruct ((to_int32 (cur_ix - Quick.buckets_ s _) =? 0)
            || (max_backward <? u32 (to_int32 (cur_ix - Quick.buckets_ s _))))
    eqn:Hgate; [left; reflexivity |].
  apply orb_false_iff in Hgate. destruct Hgate as [Hzero Hmax].
  apply Z.eqb_neq in Hzero. apply Z.ltb_ge in Hmax.
  split_ifs; try (left; reflexivity).
  right. cbn [Quick.accept Quick.out best_distance_out].
  split; [| exact Hmax].
  pose proof (u32_range
                (to_int32 (cur_ix - Quick.buckets_ s
                                      (Quick.key P rb mask cur_ix + i))))
    as Hr.
  destruct (Z.eq_dec
              (u32 (to_int32 (cur_ix - Quick.buckets_ s
                                         (Quick.key P rb mask cur_ix + i))))
              0) as [Hz | Hnz]; [| lia].
  exfalso. apply Hzero.
  revert Hz. unfold to_int32, u32.
  set (y := (cur_ix - _) mod 2 ^ 32).
  assert (0 <= y < 2 ^ 32) by (apply Z.mod_pos_bound; lia).
  destruct (y <? 2 ^ 31) eqn:Hy; intros Hz.
  - rewrite Z.mod_small in Hz by lia. exact Hz.
  - apply Z.ltb_ge in Hy. exfalso.
    assert (Hq : (y - 2 ^ 32) mod 2 ^ 32 = y).
    { symmetry. apply Z.mod_unique with (q := -1); lia. }
    lia.
Qed.

(** The warm-up passes [dict] itself to every [Store]: on "abcdefgh" with
    [size = 6], H5 stores the positions 0, 1 and 2 under the key of "abcd",
    and nothing under the key of "bcde". *)
Example warmup_hashes_the_first_bytes :
  let s := WarmupHash (BlockHasher H5) 6 period8 0 (Block.Reset fresh_block) in
  Block.num_ s (Block.HashBytes H5 period8 0) = 3 /\
  Block.num_ s (Block.HashBytes H5 period8 1) = 0.
Proof. vm_compute. split; reflexivity. Qed.

(** * Further properties of the code *)

(** ** enc/port.h: the prefixes of a 32-bit load *)

(** X1.  On bytes, the value of a 32-bit load fits 32 bits, and
    [BROTLI_LOADED_U32_TO_U16] and [BROTLI_LOADED_U32_TO_U24] give the
    values of the first two and the first three bytes at the address of the
    load: the former is what [BROTLI_UNALIGNED_LOAD16] reads there. *)
Theorem loaded_u32_prefixes_are_the_first_bytes :
  forall (m : Mem) (p : Z),
    (forall i, 0 <= i < 4 -> 0 <= m (p + i) < 256) ->
    0 <= BROTLI_UNALIGNED_LOAD32 m p < 2 ^ 32 /\
    BROTLI_LOADED_U32_TO_U16 (BROTLI_UNALIGNED_LOAD32 m p)
    = BROTLI_UNALIGNED_LOAD16 m p /\
    BROTLI_LOADED_U32_TO_U24 (BROTLI_UNALIGNED_LOAD32 m p)
    = m p + 2 ^ 8 * m (p + 1) + 2 ^ 16 * m (p + 2).
Proof.
  intros m p Hbytes.
  pose proof (Hbytes 0 ltac:(lia)) as H0. rewrite Z.add_0_r in H0.
  pose proof (Hbytes 1 ltac:(lia)) as H1.
  pose proof (Hbytes 2 ltac:(lia)) as H2.
  pose proof (Hbytes 3 ltac:(lia)) as H3.
  unfold BROTLI_LOADED_U32_TO_U16, BROTLI_LOADED_U32_TO_U24,
    BROTLI_UNALIGNED_LOAD32, BROTLI_UNALIGNED_LOAD16.
  split; [lia |]. split.
  - change 65535 with (Z.ones 16). rewrite Z.land_ones by lia.
    symmetry. apply Z.mod_unique with (q := m (p + 2) + 2 ^ 8 * m (p + 3)); lia.
  - change 16777215 with (Z.ones 24). rewrite Z.land_ones by lia.
    symmetry. apply Z.mod_unique with (q := m (p + 3)); lia.
Qed.

Lemma loaded_u32_prefixes_are_the_first_bytes_witness :
  0 <= BROTLI_UNALIGNED_LOAD32 period8 3 < 2 ^ 32 /\
  BROTLI_LOADED_U32_TO_U16 (BROTLI_UNALIGNED_LOAD32 period8 3)
  = BROTLI_UNALIGNED_LOAD16 period8 3 /\
  BROTLI_LOADED_U32_TO_U24 (BROTLI_UNALIGNED_LOAD32 period8 3)
  = period8 3 + 2 ^ 8 * period8 (3 + 1) + 2 ^ 16 * period8 (3 + 2).
Proof.
  apply (loaded_u32_prefixes_are_the_first_bytes period8 3).
  intros i Hi. unfold period8.
  pose proof (Z.mod_pos_bound (3 + i) 8 ltac:(lia)). lia.
Defined.

(** ** struct BackwardMatch: what the constructors store is read back *)





(** ** Store: the one cell written, and its place in the arrays *)

Lemma shifted_word_range : forall x w b,
  0 <= x < 2 ^ w -> 0 <= b <= w ->
  0 <= Z.shiftr x (w - b) < 2 ^ b.
Proof.
  intros x w b Hx Hb.
  rewrite Z.shiftr_div_pow2 by lia.
  assert (Hpow : 2 ^ (w - b) * 2 ^ b = 2 ^ w).
  { rewrite <- Z.pow_add_r by lia. f_equal. lia. }
  assert (0 < 2 ^ (w - b)) by (apply Z.pow_pos_nonneg; lia).
  split.
  - apply Z.div_pos; lia.
  - apply Z.div_lt_upper_bound; lia.
Qed.

Lemma Block_HashBytes_range : forall P data p,
  0 <= Block.kBucketBits P <= 32 ->
  0 <= Block.HashBytes P data p < 2 ^ Block.kBucketBits P.
Proof.
  intros P data p Hb. unfold Block.HashBytes. cbv zeta.
  apply shifted_word_range; [apply u32_range | exact Hb].
Qed.

Lemma Quick_HashBytes_range : forall P data p,
  0 <= Quick.kBucketBits P <= 32 ->
  0 <= Quick.HashBytes P data p < 2 ^ Quick.kBucketBits P.
Proof.
  intros P data p Hb. unfold Quick.HashBytes. cbv zeta.
  set (h := u64 _).
  assert (Hh : 0 <= h < 2 ^ 64) by (apply Z.mod_pos_bound; lia).
  pose proof (shifted_word_range h 64 (Quick.kBucketBits P) Hh ltac:(lia))
    as Hr.
  assert (2 ^ Quick.kBucketBits P <= 2 ^ 32)
    by (apply Z.pow_le_mono_r; lia).
  rewrite u32_small by lia. exact Hr.
Qed.

(** X3.  [Store] of a block hasher, with [kBucketBits] from 0 to 32 and
    [kBlockBits] not negative: the key lies below [kBucketSize] and the slot
    below [kBlockSize]; the position goes to that slot, the counter of the
    key goes up by one (modulo 2^16), and no other cell of [num_] or
    [buckets_] and neither dictionary counter changes. *)
Theorem block_store_writes_one_slot_within_bounds :
  forall P data p ix s,
    0 <= Block.kBucketBits P <= 32 ->
    0 <= Block.kBlockBits P ->
    let key := Block.HashBytes P data p in
    let minor_ix := Z.land (Block.num_ s key) (Block.kBlockMask P) in
    let s' := Block.Store P data p ix s in
    0 <= key < 2 ^ Block.kBucketBits P /\
    0 <= minor_ix < Block.kBlockSize P /\
    Block.buckets_ s' key minor_ix = ix /\
    Block.num_ s' key = u16 (Block.num_ s key + 1) /\
    (forall k j, k <> key \/ j <> minor_ix ->
                 Block.buckets_ s' k j = Block.buckets_ s k j) /\
    (forall k, k <> key -> Block.num_ s' k = Block.num_ s k) /\
    Block.num_dict_lookups_ s' = Block.num_dict_lookups_ s /\
    Block.num_dict_matches_ s' = Block.num_dict_matches_ s.
Proof.
  intros P data p ix s Hbucket Hblock key minor_ix s'.
  subst s'. unfold Block.Store. cbv zeta. fold key. fold minor_ix.
  cbn [Block.buckets_ Block.num_ Block.num_dict_lookups_
       Block.num_dict_matches_].
  split; [apply Block_HashBytes_range; exact Hbucket |]. split.
  { destruct (block_size_cases P) as [[_ Hneg] | [_ [Hsize Hland]]];
      [lia |].
    subst minor_ix. rewrite Hland, Hsize.
    apply Z.mod_pos_bound. apply Z.pow_pos_nonneg; lia. }
  rewrite !upd_same.
  split; [reflexivity |]. split; [reflexivity |]. split.
  - intros k j Hother. unfold upd at 1.
    destruct (Z.eqb_spec k key) as [-> | _]; [| reflexivity].
    apply upd_other. destruct Hother; [contradiction | assumption].
  - split; [| split; reflexivity].
    intros k Hk. apply upd_other. exact Hk.
Qed.

Lemma block_store_writes_one_slot_within_bounds_witness :
  let key := Block.HashBytes H5 period8 0 in
  let minor_ix := Z.land (Block.num_ warm16 key) (Block.kBlockMask H5) in
  let s' := Block.Store H5 period8 0 16 warm16 in
  0 <= key < 2 ^ Block.kBucketBits H5 /\
  0 <= minor_ix < Block.kBlockSize H5 /\
  Block.buckets_ s' key minor_ix = 16 /\
  Block.num_ s' key = u16 (Block.num_ warm16 key + 1) /\
  (forall k j, k <> key \/ j <> minor_ix ->
               Block.buckets_ s' k j = Block.buckets_ warm16 k j) /\
  (forall k, k <> key -> Block.num_ s' k = Block.num_ warm16 k) /\
  Block.num_dict_lookups_ s' = Block.num_dict_lookups_ warm16 /\
  Block.num_dict_matches_ s' = Block.num_dict_matches_ warm16.
Proof.
  apply (block_store_writes_one_slot_within_bounds H5 period8 0 16 warm16).
  - vm_compute. split; discriminate.
  - vm_compute. discriminate.
Defined.

(** X4.  [Store] of a quick hasher, with [kBucketBits] from 0 to 32 and a
    positive [kBucketSweep]: the cell written is [buckets_[key + off]] with
    [key] below [kBucketSize] and [off] below [kBucketSweep], inside the
    array of [kBucketSize + kBucketSweep] cells; no other cell and neither
    dictionary counter changes. *)
Theorem quick_store_writes_one_cell_within_bounds :
  forall P data p ix s,
    0 <= Quick.kBucketBits P <= 32 ->
    0 < Quick.kBucketSweep P ->
    let key := Quick.HashBytes P data p in
    let off := Z.shiftr (u32 ix) 3 mod Quick.kBucketSweep P in
    let s' := Quick.Store P data p ix s in
    0 <= key < 2 ^ Quick.kBucketBits P /\
    0 <= off < Quick.kBucketSweep P /\
    Quick.buckets_ s' (key + off) = u32 ix /\
    (forall j, j <> key + off -> Quick.buckets_ s' j = Quick.buckets_ s j) /\
    Quick.num_dict_lookups_ s' = Quick.num_dict_lookups_ s /\
    Quick.num_dict_matches_ s' = Quick.num_dict_matches_ s.
Proof.
  intros P data p ix s Hbits Hsweep key off s'.
  subst s'. unfold Quick.Store. cbv zeta. fold key. fold off.
  cbn [Quick.buckets_ Quick.num_dict_lookups_ Quick.num_dict_matches_].
  split; [apply Quick_HashBytes_range; exact Hbits |].
  split; [apply Z.mod_pos_bound; exact Hsweep |].
  split; [apply upd_same |].
  split; [| split; reflexivity].
  intros j Hj. apply upd_other. exact Hj.
Qed.

Lemma quick_store_writes_one_cell_within_bounds_witness :
  let key := Quick.HashBytes H4 period8 0 in
  let off := Z.shiftr (u32 40) 3 mod Quick.kBucketSweep H4 in
  let s' := Quick.Store H4 period8 0 40 fresh_quick in
  0 <= key < 2 ^ Quick.kBucketBits H4 /\
  0 <= off < Quick.kBucketSweep H4 /\
  Quick.buckets_ s' (key + off) = u32 40 /\
  (forall j, j <> key + off ->
             Quick.buckets_ s' j = Quick.buckets_ fresh_quick j) /\
  Quick.num_dict_lookups_ s' = Quick.num_dict_lookups_ fresh_quick /\
  Quick.num_dict_matches_ s' = Quick.num_dict_matches_ fresh_quick.
Proof.
  apply (quick_store_writes_one_cell_within_bounds H4 period8 0 40
           fresh_quick).
  - vm_compute. split; discriminate.
  - vm_compute. reflexivity.
Defined.

(** ** FindLongestMatch: what a search leaves in the hasher *)

Lemma block_dictionary_step_counts :
  forall (D : DoubleOps) SD data mask cur_ix max_length max_backward key0 d k,
    let d' := Block.dictionary_step SD data mask cur_ix max_length
                max_backward key0 d k in
    Block.lookups d' = u64 (Block.lookups d + 1) /\
    ((Block.matches d' = Block.matches d /\ Block.loc d' = Block.loc d) \/
     Block.match_found (Block.loc d') = true).
Proof.
  intros D SD data mask cur_ix max_length max_backward key0 d k d'.
  subst d'. unfold Block.dictionary_step. cbv zeta.
  split_ifs;
    cbn [Block.lookups Block.matches Block.loc Block.accept
         Block.match_found];
    split; auto.
Qed.

(** X5.  A search of a block hasher writes neither [num_] nor [buckets_].  It
    either stays away from the static dictionary and leaves the hasher as it
    was, or the quota test [num_dict_lookups_ >> 7 <= num_dict_matches_]
    held on entry and [num_dict_lookups_] went up by two; then
    [num_dict_matches_] moves only in a search that returns true. *)
Theorem block_search_leaves_the_table :
  forall (D : DoubleOps) SD P s data mask distance_cache cur_ix max_length
         max_backward o,
    let r := Block.FindLongestMatch SD P s data mask distance_cache cur_ix
               max_length max_backward o in
    Block.num_ (Block.hasher r) = Block.num_ s /\
    Block.buckets_ (Block.hasher r) = Block.buckets_ s /\
    ((Block.dict_reads r = [] /\ Block.hasher r = s) \/
     (Z.shiftr (Block.num_dict_lookups_ s) 7 <= Block.num_dict_matches_ s /\
      Block.num_dict_lookups_ (Block.hasher r)
      = u64 (u64 (Block.num_dict_lookups_ s + 1) + 1) /\
      (Block.num_dict_matches_ (Block.hasher r) = Block.num_dict_matches_ s \/
       Block.ret r = true))).
Proof.
  intros D SD P s data mask dc cur_ix max_length max_backward o r.
  subst r. unfold Block.FindLongestMatch. cbv zeta.
  set (L2 := Block.bucket_loop _ _ _ _ _ _ _ _ _ _).
  unfold Block.probe_dictionary. cbv zeta.
  destruct (negb (Block.match_found L2)) eqn:Hfound;
    [| cbn [andb Block.hasher Block.dict_reads]; auto].
  destruct (Z.leb_spec (Z.shiftr (Block.num_dict_lookups_ s) 7)
              (Block.num_dict_matches_ s)) as [Hquota | Hquota];
    cbn [andb Block.hasher Block.dict_reads Block.ret Block.num_
         Block.buckets_ Block.num_dict_lookups_ Block.num_dict_matches_];
    [| auto].
  split; [reflexivity |]. split; [reflexivity |]. right.
  split; [exact Hquota |].
  change (zrange 2) with [0; 1]. cbn [fold_left].
  set (d0 := {| Block.loc := L2; Block.lookups := _; Block.matches := _;
                Block.reads := _ |}).
  set (key0 := Z.shiftl _ 1).
  destruct (block_dictionary_step_counts D SD data mask cur_ix max_length
              max_backward key0 d0 0) as [Hl1 Hm1].
  set (d1 := Block.dictionary_step _ _ _ _ _ _ _ d0 0) in *.
  destruct (block_dictionary_step_counts D SD data mask cur_ix max_length
              max_backward key0 d1 1) as [Hl2 Hm2].
  set (d2 := Block.dictionary_step _ _ _ _ _ _ _ d1 1) in *.
  split; [rewrite Hl2, Hl1; reflexivity |].
  destruct Hm2 as [[Hm2 Hloc2] | Hf2]; [| right; exact Hf2].
  destruct Hm1 as [[Hm1 _] | Hf1].
  - left. rewrite Hm2, Hm1. reflexivity.
  - right. rewrite Hloc2. exact Hf1.
Qed.

(** X6.  A search of a quick hasher writes no cell of [buckets_].  It either
    stays away from the static dictionary and leaves the hasher as it was,
    or the hasher uses the dictionary, the quota test held on entry and
    [num_dict_lookups_] went up by one; then [num_dict_matches_] goes up,
    by one, only in a search that returns true. *)
Theorem quick_search_leaves_the_table :
  forall (D : DoubleOps) SD P s rb mask distance_cache cur_ix max_length
         max_backward o,
    let r := Quick.FindLongestMatch SD P s rb mask distance_cache cur_ix
               max_length max_backward o in
    Quick.buckets_ (Quick.hasher r) = Quick.buckets_ s /\
    ((Quick.dict_reads r = [] /\ Quick.hasher r = s) \/
     (Quick.kUseDictionary P = true /\
      Z.shiftr (Quick.num_dict_lookups_ s) 7 <= Quick.num_dict_matches_ s /\
      Quick.num_dict_lookups_ (Quick.hasher r)
      = u64 (Quick.num_dict_lookups_ s + 1) /\
      (Quick.num_dict_matches_ (Quick.hasher r) = Quick.num_dict_matches_ s \/
       (Quick.ret r = true /\
        Quick.num_dict_matches_ (Quick.hasher r)
        = u64 (Quick.num_dict_matches_ s + 1))))).
Proof.
  intros D SD P s rb mask dc cur_ix max_length max_backward o r.
  assert (Hdict : forall L,
    let r := Quick.probe_dictionary SD P s rb mask cur_ix max_length
               max_backward L in
    Quick.buckets_ (Quick.hasher r) = Quick.buckets_ s /\
    ((Quick.dict_reads r = [] /\ Quick.hasher r = s) \/
     (Quick.kUseDictionary P = true /\
      Z.shiftr (Quick.num_dict_lookups_ s) 7 <= Quick.num_dict_matches_ s /\
      Quick.num_dict_lookups_ (Quick.hasher r)
      = u64 (Quick.num_dict_lookups_ s + 1) /\
      (Quick.num_dict_matches_ (Quick.hasher r) = Quick.num_dict_matches_ s \/
       (Quick.ret r = true /\
        Quick.num_dict_matches_ (Quick.hasher r)
        = u64 (Quick.num_dict_matches_ s + 1)))))).
  { intros L. unfold Quick.probe_dictionary. cbv zeta.
    destruct (Quick.kUseDictionary P);
      [| cbn [andb Quick.hasher Quick.dict_reads]; auto].
    destruct (negb (Quick.match_found L));
      [| cbn [andb Quick.hasher Quick.dict_reads]; auto].
    destruct (Z.leb_spec (Z.shiftr (Quick.num_dict_lookups_ s) 7)
                (Quick.num_dict_matches_ s)) as [Hquota | Hquota];
      cbn [andb]; [| cbn [Quick.hasher Quick.dict_reads]; auto].
    split_ifs;
      cbn [Quick.hasher Quick.dict_reads Quick.ret Quick.count_match
           Quick.count_lookup Quick.buckets_ Quick.num_dict_lookups_
           Quick.num_dict_matches_];
      (split; [reflexivity |]); right; repeat split; auto. }
  subst r. unfold Quick.FindLongestMatch.
  destruct (Quick.probe_last_distance _ _ _ _ _ _ _) as [r0 L | L].
  - cbn [Quick.early Quick.hasher Quick.dict_reads]. auto.
  - destruct (Quick.kBucketSweep P =? 1); [| apply Hdict].
    destruct (Quick.lookup_single _ _ _ _ _ _ _ _ _) as [r1 L' | L'];
      [| apply Hdict].
    cbn [Quick.early Quick.hasher Quick.dict_reads]. auto.
Qed.

(** ** FindLongestMatch: a reported match is a match *)

Lemma u32_to_int32 : forall x, u32 (to_int32 x) = u32 x.
Proof.
  intros x. unfold to_int32, u32. cbv zeta.
  destruct (x mod 2 ^ 32 <? 2 ^ 31).
  - apply Z.mod_mod. lia.
  - rewrite <- (Z.mod_mod x (2 ^ 32)) at 2 by lia.
    rewrite <- (Z_mod_plus_full (x mod 2 ^ 32 - 2 ^ 32) 1 (2 ^ 32)).
    f_equal. lia.
Qed.

Lemma u32_idem : forall x, u32 (u32 x) = u32 x.
Proof. intros x. unfold u32. apply Z.mod_mod. lia. Qed.

Lemma u32_sub_congr : forall a b b',
  u32 b = u32 b' -> u32 (a - b) = u32 (a - b').
Proof.
  intros a b b' Hb. unfold u32 in *.
  rewrite <- (Zminus_mod_idemp_r a b), Hb, Zminus_mod_idemp_r. reflexivity.
Qed.

Lemma u32_sub_sub : forall a p, u32 (a - u32 (a - p)) = u32 p.
Proof.
  intros a p. rewrite (u32_sub_congr a (u32 (a - p)) (a - p))
    by apply u32_idem.
  f_equal. lia.
Qed.

Lemma land_u32 : forall x mask,
  0 <= mask < 2 ^ 32 -> Z.land (u32 x) mask = Z.land x mask.
Proof.
  intros x mask Hmask. unfold u32.
  rewrite <- Z.land_ones, <- Z.land_assoc by lia. f_equal.
  rewrite Z.land_comm, Z.land_ones by lia. apply Z.mod_small. exact Hmask.
Qed.

Lemma land_congr : forall a b mask,
  0 <= mask < 2 ^ 32 -> u32 a = u32 b -> Z.land a mask = Z.land b mask.
Proof.
  intros a b mask Hmask Hab.
  rewrite <- (land_u32 a), <- (land_u32 b), Hab by exact Hmask. reflexivity.
Qed.

Lemma to_int32_nonzero : forall x, to_int32 x <> 0 -> 1 <= u32 (to_int32 x).
Proof.
  intros x Hx. pose proof (u32_range (to_int32 x)) as Hr.
  destruct (Z.eq_dec (u32 (to_int32 x)) 0) as [Hz | Hnz]; [| lia].
  exfalso. apply Hx. revert Hz. unfold to_int32, u32. cbv zeta.
  set (y := x mod 2 ^ 32).
  assert (0 <= y < 2 ^ 32) by (apply Z.mod_pos_bound; lia).
  destruct (y <? 2 ^ 31) eqn:Hy; intros Hz.
  - rewrite Z.mod_small in Hz by lia. exact Hz.
  - apply Z.ltb_ge in Hy. exfalso.
    assert (Hq : (y - 2 ^ 32) mod 2 ^ 32 = y).
    { symmetry. apply Z.mod_unique with (q := -1); lia. }
    lia.
Qed.

Lemma match_length_same_bytes : forall n m1 p1 m2 p2,
  same_bytes m1 p1 m2 p2 (match_length n m1 p1 m2 p2).
Proof.
  induction n as [| n IH]; intros m1 p1 m2 p2 j Hj; cbn [match_length] in Hj.
  - lia.
  - destruct (Z.eqb_spec (m1 p1) (m2 p2)) as [Heq | Hne]; [| lia].
    destruct (Z.eq_dec j 0) as [-> | Hj0].
    + rewrite !Z.add_0_r. exact Heq.
    + replace (p1 + j) with (p1 + 1 + (j - 1)) by lia.
      replace (p2 + j) with (p2 + 1 + (j - 1)) by lia.
      apply IH. lia.
Qed.

Lemma FindMatchLengthWithLimit_positive : forall m1 p1 m2 p2 limit,
  1 <= FindMatchLengthWithLimit m1 p1 m2 p2 limit ->
  FindMatchLengthWithLimit m1 p1 m2 p2 limit <= limit.
Proof.
  intros m1 p1 m2 p2 limit Hpos. unfold FindMatchLengthWithLimit in *.
  pose proof (match_length_bound (Z.to_nat limit) m1 p1 m2 p2). lia.
Qed.

Section WindowMatches.
Context {D : DoubleOps}.
Variable SD : StaticDictionary.
Variable data : Mem.
Variable mask : Z.
Variables cur_ix max_length max_backward : Z.
Hypothesis Hmask : 0 <= mask < 2 ^ 32.

(** A candidate at [p], [dist] before [cur_ix] modulo 2^32, whose match
    length is at least [min_len]. *)
Lemma window_copy : forall p dist min_len code score,
  u32 (cur_ix - dist) = u32 p ->
  1 <= min_len ->
  let len := FindMatchLengthWithLimit data (Z.land p mask)
               data (Z.land cur_ix mask) max_length in
  min_len <= len ->
  code = len ->
  copies_window data mask cur_ix max_length min_len
    {| best_len_out := len; best_len_code_out := code;
       best_distance_out := dist; best_score_out := score |}.
Proof.
  intros p dist min_len code score Hdist Hmin len Hlen Hcode.
  unfold copies_window.
  cbn [best_len_out best_len_code_out best_distance_out].
  split; [| split; [exact Hcode |]].
  - split; [exact Hlen |].
    apply FindMatchLengthWithLimit_positive. fold len. lia.
  - rewrite (land_congr _ p mask Hmask Hdist).
    apply match_length_same_bytes.
Qed.

(** A word of the static dictionary accepted by the dictionary probe. *)
Lemma word_copy : forall v backward score,
  let len := Z.land v 31 in
  let dist := Z.shiftr v 5 in
  let offset := kBrotliDictionaryOffsetsByLength SD len + len * dist in
  let matchlen := FindMatchLengthWithLimit data (Z.land cur_ix mask)
                    (kBrotliDictionary SD) offset len in
  len <= max_length ->
  len - kCutoffTransformsCount < matchlen ->
  0 < matchlen ->
  copies_word SD data mask cur_ix max_length
    {| best_len_out := matchlen; best_len_code_out := len;
       best_distance_out := backward; best_score_out := score |}.
Proof.
  intros v backward score len dist offset matchlen Hmax Hcut Hpos.
  assert (Hlen : 0 <= len < 32).
  { subst len. change 31 with (Z.ones 5). rewrite Z.land_ones by lia.
    apply Z.mod_pos_bound. lia. }
  unfold copies_word.
  cbn [best_len_out best_len_code_out best_distance_out].
  split; [| split; [exact Hmax | split; [lia | split; [exact Hcut |]]]].
  - split; [exact Hpos |].
    apply FindMatchLengthWithLimit_positive. fold offset. fold matchlen. lia.
  - exists dist. apply match_length_same_bytes.
Qed.

Lemma window_found_last_distance_step : forall distance_cache L i,
  window_found data mask cur_ix max_length max_backward L ->
  window_found data mask cur_ix max_length max_backward
    (Block.last_distance_step data mask distance_cache cur_ix max_length
       max_backward L i).
Proof.
  intros dc L i HL. unfold Block.last_distance_step. cbv zeta.
  destruct (cur_ix <=? _); [exact HL |].
  destruct (Z.ltb_spec max_backward
              (u32 (dc (kDistanceCacheIndex i) + kDistanceCacheOffset i)))
    as [| Hmax]; [exact HL |].
  destruct (Block.tail_differs _ _ _ _ _); [exact HL |].
  destruct ((3 <=? _) || _) eqn:Hlen; [| exact HL].
  destruct (d_lt _ _); [| exact HL].
  intros _. cbn [Block.accept Block.out]. split.
  - apply window_copy with (p := u32 (cur_ix - (dc (kDistanceCacheIndex i)
                                                 + kDistanceCacheOffset i)));
      [symmetry; apply u32_idem | lia | | reflexivity].
    unfold Block.cur_ix_masked in Hlen.
    apply orb_true_iff in Hlen. destruct Hlen as [H3 | H2].
    + apply Z.leb_le in H3. lia.
    + apply andb_true_iff in H2. destruct H2 as [H2 _].
      apply Z.eqb_eq in H2. lia.
  - cbn [best_distance_out]. exact Hmax.
Qed.

Lemma window_found_last_distances : forall distance_cache l L,
  window_found data mask cur_ix max_length max_backward L ->
  window_found data mask cur_ix max_length max_backward
    (fold_left (Block.last_distance_step data mask distance_cache cur_ix
                  max_length max_backward) l L).
Proof.
  intros dc. induction l as [| i l IH]; intros L HL; [exact HL |].
  apply IH. apply window_found_last_distance_step. exact HL.
Qed.

Lemma window_found_bucket_loop : forall P s fuel i L,
  window_found data mask cur_ix max_length max_backward L ->
  window_found data mask cur_ix max_length max_backward
    (Block.bucket_loop P s data mask cur_ix max_length max_backward fuel i L).
Proof.
  intros P s. induction fuel as [| fuel IH]; intros i L HL; [exact HL |].
  cbn [Block.bucket_loop]. cbv zeta.
  destruct (Block.down P s data mask cur_ix <=? i); [| exact HL].
  destruct (0 <=? _); [| apply IH; exact HL].
  set (prev := Block.buckets_ s _ _).
  destruct (Z.ltb_spec max_backward (u32 (cur_ix - prev))) as [| Hmax];
    [exact HL |].
  destruct (Block.tail_differs _ _ _ _ _); [apply IH; exact HL |].
  destruct (Z.leb_spec 4
              (FindMatchLengthWithLimit data (Z.land prev mask) data
                 (Block.cur_ix_masked mask cur_ix) max_length))
    as [Hlen |]; [| apply IH; exact HL].
  destruct (d_lt _ _); apply IH; [| exact HL].
  intros _. cbn [Block.accept Block.out]. split.
  - apply window_copy with (p := prev);
      [| lia | unfold Block.cur_ix_masked in Hlen; lia | reflexivity].
    rewrite (u32_sub_congr cur_ix _ (u32 (cur_ix - prev)))
      by apply u32_to_int32.
    apply u32_sub_sub.
  - cbn [best_distance_out]. rewrite u32_to_int32, u32_idem. exact Hmax.
Qed.

Lemma word_or_unchanged_step : forall L0 m0 key0 d k,
  word_or_unchanged SD data mask cur_ix max_length L0 m0 d ->
  word_or_unchanged SD data mask cur_ix max_length L0 m0
    (Block.dictionary_step SD data mask cur_ix max_length max_backward
       key0 d k).
Proof.
  intros L0 m0 key0 d k Hd. unfold Block.dictionary_step. cbv zeta.
  destruct (0 <? _); [| exact Hd].
  destruct (Z.leb_spec (Z.land (kStaticDictionaryHash SD (u32 (key0 + k))) 31)
              max_length) as [Hmax |]; [| exact Hd].
  destruct (_ && _) eqn:Hcut; [| exact Hd].
  destruct (d_lt _ _); [| exact Hd].
  right. cbn [Block.loc Block.accept Block.match_found Block.out].
  split; [reflexivity |].
  apply andb_true_iff in Hcut. destruct Hcut as [Hcut Hpos].
  apply Z.ltb_lt in Hcut. apply Z.ltb_lt in Hpos.
  unfold Block.cur_ix_masked in *.
  apply word_copy; assumption.
Qed.

End WindowMatches.

(** X7.  A search of a block hasher that returns true reports a match of the
    data (for a ring buffer mask below 2^32).  Either the match is a copy
    from the ring buffer and [num_dict_matches_] is as before: the length is
    between 2 and [max_length], the length code is the length, the distance
    is at most [max_backward] (as [uint32_t]) and the bytes that far before
    [cur_ix] are those at [cur_ix].  Or the static dictionary was read and
    the match is one of its words. *)
Theorem block_true_search_reports_a_match :
  forall (D : DoubleOps) SD P s data mask distance_cache cur_ix max_length
         max_backward o,
    0 <= mask < 2 ^ 32 ->
    let r := Block.FindLongestMatch SD P s data mask distance_cache cur_ix
               max_length max_backward o in
    Block.ret r = true ->
    (Block.num_dict_matches_ (Block.hasher r) = Block.num_dict_matches_ s /\
     copies_window data mask cur_ix max_length 2 (Block.outs r) /\
     u32 (best_distance_out (Block.outs r)) <= max_backward) \/
    (Block.dict_reads r <> [] /\
     copies_word SD data mask cur_ix max_length (Block.outs r)).
Proof.
  intros D SD P s data mask dc cur_ix max_length max_backward o Hmask r.
  subst r. unfold Block.FindLongestMatch. cbv zeta.
  set (L2 := Block.bucket_loop _ _ _ _ _ _ _ _ _ _).
  assert (H2 : window_found data mask cur_ix max_length max_backward L2).
  { apply window_found_bucket_loop; [exact Hmask |].
    apply window_found_last_distances; [exact Hmask |].
    intros Hfound. discriminate Hfound. }
  unfold Block.probe_dictionary. cbv zeta.
  destruct (negb (Block.match_found L2) && _) eqn:Hgate.
  - cbn [Block.ret Block.outs Block.hasher Block.dict_reads
         Block.num_dict_matches_].
    apply andb_true_iff in Hgate. destruct Hgate as [Hnot _].
    apply negb_true_iff in Hnot.
    change (zrange 2) with [0; 1]. cbn [fold_left].
    set (d0 := {| Block.loc := L2; Block.lookups := _; Block.matches := _;
                  Block.reads := _ |}).
    set (key0 := Z.shiftl _ 1).
    assert (H0 : word_or_unchanged SD data mask cur_ix max_length L2
                   (Block.num_dict_matches_ s) d0)
      by (left; split; reflexivity).
    pose proof (word_or_unchanged_step SD data mask cur_ix max_length
                  max_backward L2 _ key0 _ 0 H0) as H1.
    pose proof (word_or_unchanged_step SD data mask cur_ix max_length
                  max_backward L2 _ key0 _ 1 H1) as Hd.
    rewrite block_dictionary_step_reads.
    destruct Hd as [[Hloc _] | [_ Hword]].
    + rewrite Hloc. congruence.
    + intros _. right. split; [| exact Hword].
      intros Hnil. apply app_eq_nil in Hnil. destruct Hnil as [_ Hnil].
      discriminate Hnil.
  - cbn [Block.ret Block.outs Block.hasher]. intros Hfound. left.
    split; [reflexivity |]. apply H2. exact Hfound.
Qed.

Lemma block_true_search_reports_a_match_witness :
  let s := StoreAll H5
             (List.map (fun i => {| st_data := repeat_after_xyz; st_p := i;
                                    st_ix := i |}) (zrange 11))
             (Block.Reset fresh_block) in
  let r := Block.FindLongestMatch (D := exact_scores) no_words H5 s
             repeat_after_xyz 63 (table [11; 4; 15; 16]) 11 8 11
             (entry 0 0 0 4) in
  (Block.num_dict_matches_ (Block.hasher r) = Block.num_dict_matches_ s /\
   copies_window repeat_after_xyz 63 11 8 2 (Block.outs r) /\
   u32 (best_distance_out (Block.outs r)) <= 11) \/
  (Block.dict_reads r <> [] /\
   copies_word no_words repeat_after_xyz 63 11 8 (Block.outs r)).
Proof.
  intros s.
  apply (block_true_search_reports_a_match exact_scores no_words H5 s
           repeat_after_xyz 63 (table [11; 4; 15; 16]) 11 8 11
           (entry 0 0 0 4)).
  - lia.
  - vm_compute. reflexivity.
Defined.

Section QuickMatches.
Context {D : DoubleOps}.
Variable SD : StaticDictionary.
Variable P : Quick.params.
Variable s : Quick.state.
Variable rb : Mem.
Variable mask : Z.
Variable distance_cache : Z -> Z.
Variables cur_ix max_length max_backward : Z.
Variable o : Out.
Hypothesis Hmask : 0 <= mask < 2 ^ 32.

Lemma q_window_match_probe_last_distance :
  match Quick.probe_last_distance P rb mask distance_cache cur_ix max_length
          o with
  | Return r L =>
      r = true /\
      q_window_match P rb mask distance_cache cur_ix max_length max_backward
        o (Quick.out L)
  | Continue L =>
      Quick.match_found L = true ->
      q_window_match P rb mask distance_cache cur_ix max_length max_backward
        o (Quick.out L)
  end.
Proof.
  unfold q_window_match, last_distance_hits, Quick.probe_last_distance.
  cbv zeta.
  destruct (_ <? cur_ix); [| intros Hf; discriminate Hf].
  destruct (_ =? _); [| intros Hf; discriminate Hf].
  destruct (Z.leb_spec 4
              (FindMatchLengthWithLimit rb
                 (Z.land (u32 (cur_ix - distance_cache 0)) mask) rb
                 (Quick.cur_ix_masked mask cur_ix) max_length))
    as [Hlen |]; [| intros Hf; discriminate Hf].
  assert (Hcopy : forall score,
    copies_window rb mask cur_ix max_length 4
      {| best_len_out :=
           FindMatchLengthWithLimit rb
             (Z.land (u32 (cur_ix - distance_cache 0)) mask) rb
             (Quick.cur_ix_masked mask cur_ix) max_length;
         best_len_code_out :=
           FindMatchLengthWithLimit rb
             (Z.land (u32 (cur_ix - distance_cache 0)) mask) rb
             (Quick.cur_ix_masked mask cur_ix) max_length;
         best_distance_out := distance_cache 0;
         best_score_out := score |}).
  { intros score.
    apply window_copy with (p := u32 (cur_ix - distance_cache 0));
      [exact Hmask | symmetry; apply u32_idem | lia | exact Hlen
      | reflexivity]. }
  destruct (Quick.kBucketSweep P =? 1); cbn [Quick.accept Quick.out].
  - split; [reflexivity |]. split; [apply Hcopy | left; reflexivity].
  - intros _. split; [apply Hcopy | left; reflexivity].
Qed.

Lemma bucket_distance : forall prev,
  (to_int32 (cur_ix - prev) =? 0)
  || (max_backward <? u32 (to_int32 (cur_ix - prev))) = false ->
  u32 (cur_ix - to_int32 (cur_ix - prev)) = u32 prev /\
  1 <= u32 (to_int32 (cur_ix - prev)) <= max_backward.
Proof.
  intros prev Hgate. apply orb_false_iff in Hgate.
  destruct Hgate as [Hzero Hmax].
  apply Z.eqb_neq in Hzero. apply Z.ltb_ge in Hmax. split.
  - rewrite (u32_sub_congr cur_ix _ (cur_ix - prev)) by apply u32_to_int32.
    f_equal. lia.
  - split; [apply to_int32_nonzero; exact Hzero | exact Hmax].
Qed.

Lemma q_window_match_sweep_step : forall L i,
  (Quick.match_found L = true ->
   q_window_match P rb mask distance_cache cur_ix max_length max_backward o
     (Quick.out L)) ->
  Quick.match_found
    (Quick.sweep_step P s rb mask cur_ix max_length max_backward L i) = true ->
  q_window_match P rb mask distance_cache cur_ix max_length max_backward o
    (Quick.out
       (Quick.sweep_step P s rb mask cur_ix max_length max_backward L i)).
Proof.
  intros L i HL. unfold Quick.sweep_step. cbv zeta.
  destruct (negb _); [exact HL |].
  set (prev := Quick.buckets_ s _).
  destruct (_ || _) eqn:Hgate; [exact HL |].
  destruct (bucket_distance prev Hgate) as [Hprev Hdist].
  destruct (Z.leb_spec 4
              (FindMatchLengthWithLimit rb (Z.land prev mask) rb
                 (Quick.cur_ix_masked mask cur_ix) max_length))
    as [Hlen |]; [| exact HL].
  destruct (d_lt _ _); [| exact HL].
  intros _. cbn [Quick.accept Quick.out]. split.
  - apply window_copy with (p := prev);
      [exact Hmask | exact Hprev | lia | exact Hlen | reflexivity].
  - right. exact Hdist.
Qed.

Lemma q_window_match_lookup_sweep : forall L,
  (Quick.match_found L = true ->
   q_window_match P rb mask distance_cache cur_ix max_length max_backward o
     (Quick.out L)) ->
  Quick.match_found
    (Quick.lookup_sweep P s rb mask cur_ix max_length max_backward L) = true ->
  q_window_match P rb mask distance_cache cur_ix max_length max_backward o
    (Quick.out
       (Quick.lookup_sweep P s rb mask cur_ix max_length max_backward L)).
Proof.
  unfold Quick.lookup_sweep. generalize (zrange (Quick.kBucketSweep P)).
  induction l as [| i l IH]; intros L HL; [exact HL |].
  cbn [fold_left]. apply IH. apply q_window_match_sweep_step. exact HL.
Qed.

Lemma q_window_match_lookup_single : forall best_len_in L,
  match Quick.lookup_single P s rb mask cur_ix max_length max_backward
          best_len_in L with
  | Return true L' =>
      q_window_match P rb mask distance_cache cur_ix max_length max_backward
        o (Quick.out L')
  | Return false _ => True
  | Continue L' => L' = L
  end.
Proof.
  intros best_len_in L. unfold Quick.lookup_single. cbv zeta.
  destruct (negb _); [exact I |].
  set (prev := Quick.buckets_ s _).
  destruct (_ || _) eqn:Hgate; [exact I |].
  destruct (bucket_distance prev Hgate) as [Hprev Hdist].
  destruct (Z.leb_spec 4
              (FindMatchLengthWithLimit rb (Z.land prev mask) rb
                 (Quick.cur_ix_masked mask cur_ix) max_length))
    as [Hlen |]; [| reflexivity].
  cbn [Quick.out]. split.
  - apply window_copy with (p := prev);
      [exact Hmask | exact Hprev | lia | exact Hlen | reflexivity].
  - right. exact Hdist.
Qed.

Lemma q_probe_dictionary_match : forall L,
  (Quick.match_found L = true ->
   q_window_match P rb mask distance_cache cur_ix max_length max_backward o
     (Quick.out L)) ->
  let r := Quick.probe_dictionary SD P s rb mask cur_ix max_length
             max_backward L in
  Quick.ret r = true ->
  (Quick.num_dict_matches_ (Quick.hasher r) = Quick.num_dict_matches_ s /\
   q_window_match P rb mask distance_cache cur_ix max_length max_backward o
     (Quick.outs r)) \/
  (Quick.dict_reads r <> [] /\
   copies_word SD rb mask cur_ix max_length (Quick.outs r)).
Proof.
  intros L HL r. subst r. unfold Quick.probe_dictionary. cbv zeta.
  destruct (Quick.match_found L) eqn:Hfound.
  - rewrite andb_false_r. cbn [andb Quick.ret Quick.outs Quick.hasher].
    intros _. left. split; [reflexivity | apply HL; reflexivity].
  - destruct (_ && _); [| intros Hf; discriminate Hf].
    destruct (0 <? _); [| intros Hf; discriminate Hf].
    destruct (Z.leb_spec
                (Z.land (kStaticDictionaryHash SD
                           (Z.shiftl (Hash 14 rb
                                        (Quick.cur_ix_masked mask cur_ix)) 1))
                   31) max_length) as [Hmax |];
      [| intros Hf; discriminate Hf].
    destruct (_ && _) eqn:Hcut; [| intros Hf; discriminate Hf].
    destruct (d_lt _ _); [| intros Hf; discriminate Hf].
    intros _. right. cbn [Quick.dict_reads Quick.outs].
    split; [discriminate |].
    apply andb_true_iff in Hcut. destruct Hcut as [Hcut Hpos].
    apply Z.ltb_lt in Hcut. apply Z.ltb_lt in Hpos.
    unfold Quick.cur_ix_masked in *.
    apply word_copy; assumption.
Qed.

End QuickMatches.

(** X8.  A search of a quick hasher that returns true reports a match of the
    data (for a ring buffer mask below 2^32).  Either the match is a copy
    from the ring buffer and [num_dict_matches_] is as before: the length is
    between 4 and [max_length], the length code is the length, the bytes
    that far before [cur_ix] are those at [cur_ix], and the distance lies
    between 1 and [max_backward] (as [uint32_t]) unless the probe of
    [distance_cache[0]] accepted a match.  Or the static dictionary was read
    and the match is one of its words. *)
Theorem quick_true_search_reports_a_match :
  forall (D : DoubleOps) SD P s rb mask distance_cache cur_ix max_length
         max_backward o,
    0 <= mask < 2 ^ 32 ->
    let r := Quick.FindLongestMatch SD P s rb mask distance_cache cur_ix
               max_length max_backward o in
    Quick.ret r = true ->
    (Quick.num_dict_matches_ (Quick.hasher r) = Quick.num_dict_matches_ s /\
     copies_window rb mask cur_ix max_length 4 (Quick.outs r) /\
     (last_distance_hits P rb mask distance_cache cur_ix max_length o = true \/
      1 <= u32 (best_distance_out (Quick.outs r)) <= max_backward)) \/
    (Quick.dict_reads r <> [] /\
     copies_word SD rb mask cur_ix max_length (Quick.outs r)).
Proof.
  intros D SD P s rb mask dc cur_ix max_length max_backward o Hmask r.
  subst r. unfold Quick.FindLongestMatch.
  pose proof (q_window_match_probe_last_distance P rb mask dc cur_ix
                max_length max_backward o Hmask) as Hprobe.
  destruct (Quick.probe_last_distance _ _ _ _ _ _ _) as [r0 L | L].
  - destruct Hprobe as [_ Hmatch]. intros _. left.
    split; [reflexivity | exact Hmatch].
  - destruct (Quick.kBucketSweep P =? 1).
    + pose proof (q_window_match_lookup_single P s rb mask dc cur_ix
                    max_length max_backward o Hmask (best_len_out o) L)
        as Hsingle.
      destruct (Quick.lookup_single _ _ _ _ _ _ _ _ _) as [r1 L' | L'].
      * cbn [Quick.early Quick.ret Quick.outs Quick.hasher].
        intros Hret. subst r1. left.
        split; [reflexivity | exact Hsingle].
      * subst L'.
        apply q_probe_dictionary_match. exact Hprobe.
    + apply q_probe_dictionary_match.
      apply q_window_match_lookup_sweep; [exact Hmask | exact Hprobe].
Qed.

Lemma quick_true_search_reports_a_match_witness :
  let s := fold_left (fun s i => Quick.Store H1 all_x i i s) (zrange 4)
             fresh_quick in
  let r := Quick.FindLongestMatch (D := exact_scores) no_words H1 s all_x
             255 (table [1; 11; 15; 16]) 4 32 255 (entry 0 0 0 4) in
  (Quick.num_dict_matches_ (Quick.hasher r) = Quick.num_dict_matches_ s /\
   copies_window all_x 255 4 32 4 (Quick.outs r) /\
   (last_distance_hits H1 all_x 255 (table [1; 11; 15; 16]) 4 32
      (entry 0 0 0 4) = true \/
    1 <= u32 (best_distance_out (Quick.outs r)) <= 255)) \/
  (Quick.dict_reads r <> [] /\
   copies_word no_words all_x 255 4 32 (Quick.outs r)).
Proof.
  intros s.
  apply (quick_true_search_reports_a_match exact_scores no_words H1 s all_x
           255 (table [1; 11; 15; 16]) 4 32 255 (entry 0 0 0 4)).
  - lia.
  - vm_compute. reflexivity.
Defined.

(** ** StoreHashes: the stores of a range of data *)

Lemma zrange_snoc : forall n : nat,
  zrange (Z.of_nat (S n)) = zrange (Z.of_nat n) ++ [Z.of_nat n].
Proof.
  intros n. unfold zrange. rewrite !Nat2Z.id, seq_S, map_app. reflexivity.
Qed.

Lemma zrange_shift : forall (n : nat) (p : Z),
  List.map (fun k => p + k) (zrange (Z.of_nat (S n)))
  = p :: List.map (fun k => p + 1 + k) (zrange (Z.of_nat n)).
Proof.
  intros n p. unfold zrange. rewrite !Nat2Z.id.
  cbn [seq List.map]. rewrite Z.add_0_r. f_equal.
  rewrite <- seq_shift, !map_map. apply map_ext.
  intros k. lia.
Qed.

Lemma zrange_offset_0 : forall n,
  List.map (fun k => 0 + k) (zrange n) = zrange n.
Proof.
  intros n. rewrite <- (map_id (zrange n)) at 2. apply map_ext.
  intros k. lia.
Qed.

Lemma u64_small : forall x, 0 <= x < 2 ^ 64 -> u64 x = x.
Proof. intros x Hx. unfold u64. apply Z.mod_small. exact Hx. Qed.

Lemma Block_StoreHashes_loop_unroll :
  forall P data data_p len startix mask fuel p s,
    0 <= p -> p + Z.of_nat fuel <= len -> len <= 2 ^ 64 ->
    Block.StoreHashes_loop P data data_p len startix mask fuel p s
    = fold_left (fun s k => Block.Store P data (data_p + Z.land k mask)
                              (startix + k) s)
        (List.map (fun k => p + k) (zrange (Z.of_nat fuel))) s.
Proof.
  intros P data data_p len startix mask.
  induction fuel as [| fuel IH]; intros p s Hp Hfuel Hlen; [reflexivity |].
  rewrite zrange_shift. cbn [Block.StoreHashes_loop fold_left].
  rewrite u64_small by lia.
  destruct (Z.ltb_spec p len); [| lia].
  apply IH; lia.
Qed.

Lemma Quick_StoreHashes_loop_unroll :
  forall P data data_p len startix mask fuel p s,
    0 <= p -> p + Z.of_nat fuel <= len -> len <= 2 ^ 64 ->
    Quick.StoreHashes_loop P data data_p len startix mask fuel p s
    = fold_left (fun s k => Quick.Store P data (data_p + Z.land k mask)
                              (startix + k) s)
        (List.map (fun k => p + k) (zrange (Z.of_nat fuel))) s.
Proof.
  intros P data data_p len startix mask.
  induction fuel as [| fuel IH]; intros p s Hp Hfuel Hlen; [reflexivity |].
  rewrite zrange_shift. cbn [Quick.StoreHashes_loop fold_left].
  rewrite u64_small by lia.
  destruct (Z.ltb_spec p len); [| lia].
  apply IH; lia.
Qed.

Lemma StoreAll_map : forall P (f : Z -> store_call) l s,
  StoreAll P (List.map f l) s
  = fold_left (fun s k => Block.Store P (st_data (f k)) (st_p (f k))
                            (st_ix (f k)) s) l s.
Proof.
  intros P f. unfold StoreAll.
  induction l as [| k l IH]; intros s; [reflexivity |].
  cbn [List.map fold_left]. apply IH.
Qed.

Lemma stored_at_length : forall P h calls,
  (List.length (stored_at P h calls) <= List.length calls)%nat.
Proof.
  intros P h calls. unfold stored_at.
  rewrite length_rev, length_map. apply filter_length_le.
Qed.

(** X9.  [StoreHashes] of a block hasher over [len] bytes, [len] below 2^31,
    is the sequence of the calls [Store(&data[p & mask], startix + p)] for
    [p = 0, ..., len - 1].  Hence after [Reset] and a [StoreHashes] of fewer
    than 2^16 bytes, [num_[h]] counts the positions of the range with the
    key [h], and the newest [min(num_[h], kBlockSize)] of them are in the
    ring of [h], the newest first at [(num_[h] - 1) & kBlockMask]. *)
Theorem block_store_hashes_stores_the_range :
  forall P data data_p len startix mask s,
    0 <= len < 2 ^ 31 ->
    Block.StoreHashes P data data_p len startix mask s
    = StoreAll P (StoreHashes_calls data data_p len startix mask) s /\
    (len < 2 ^ 16 ->
     forall h,
       let s' := Block.StoreHashes P data data_p len startix mask
                   (Block.Reset s) in
       let hist := stored_at P h
                     (StoreHashes_calls data data_p len startix mask) in
       Block.num_ s' h = Z.of_nat (List.length hist) /\
       forall j, 0 <= j < Z.min (Block.num_ s' h) (Block.kBlockSize P) ->
         Block.buckets_ s' h
           (Z.land (Block.num_ s' h - 1 - j) (Block.kBlockMask P))
         = nth (Z.to_nat j) hist 0).
Proof.
  intros P data data_p len startix mask s Hlen.
  assert (Heq : forall s0,
    Block.StoreHashes P data data_p len startix mask s0
    = StoreAll P (StoreHashes_calls data data_p len startix mask) s0).
  { intros s0. unfold Block.StoreHashes, StoreHashes_calls.
    rewrite Block_StoreHashes_loop_unroll by lia.
    rewrite Z2Nat.id, zrange_offset_0, StoreAll_map by lia. reflexivity. }
  split; [apply Heq |].
  intros Hshort h s' hist. subst s'. rewrite Heq.
  assert (Hcount : Z.of_nat (List.length hist) < 2 ^ 16).
  { subst hist.
    pose proof (stored_at_length P h
                  (StoreHashes_calls data data_p len startix mask)) as Hle.
    unfold StoreHashes_calls in Hle at 2.
    rewrite length_map in Hle. unfold zrange in Hle.
    rewrite length_map, length_seq in Hle. lia. }
  destruct (bucket_inv_StoreAll P h
              (StoreHashes_calls data data_p len startix mask)
              (Block.Reset s) []) as [Hnum Hslots].
  - apply bucket_inv_Reset.
  - rewrite app_nil_r. exact Hcount.
  - rewrite app_nil_r in Hnum, Hslots. fold hist in Hnum, Hslots.
    split; [exact Hnum |].
    intros j Hj. rewrite Hnum in *. apply Hslots. exact Hj.
Qed.

Lemma block_store_hashes_stores_the_range_witness :
  Block.StoreHashes H5 abab 0 6 0 15 fresh_block
  = StoreAll H5 (StoreHashes_calls abab 0 6 0 15) fresh_block /\
  (6 < 2 ^ 16 ->
   forall h,
     let s' := Block.StoreHashes H5 abab 0 6 0 15 (Block.Reset fresh_block) in
     let hist := stored_at H5 h (StoreHashes_calls abab 0 6 0 15) in
     Block.num_ s' h = Z.of_nat (List.length hist) /\
     forall j, 0 <= j < Z.min (Block.num_ s' h) (Block.kBlockSize H5) ->
       Block.buckets_ s' h
         (Z.land (Block.num_ s' h - 1 - j) (Block.kBlockMask H5))
       = nth (Z.to_nat j) hist 0).
Proof.
  apply (block_store_hashes_stores_the_range H5 abab 0 6 0 15 fresh_block).
  lia.
Defined.

Lemma Quick_stores_newest_wins : forall P data data_p startix mask s (n : nat),
  let cell := fun p => Quick_cell P data (data_p + Z.land p mask)
                         (startix + p) in
  let s' := fold_left (fun s k => Quick.Store P data (data_p + Z.land k mask)
                                    (startix + k) s)
              (zrange (Z.of_nat n)) s in
  (forall p, 0 <= p < Z.of_nat n ->
     (forall p', p < p' < Z.of_nat n -> cell p' <> cell p) ->
     Quick.buckets_ s' (cell p) = u32 (startix + p)) /\
  (forall c, (forall p, 0 <= p < Z.of_nat n -> cell p <> c) ->
     Quick.buckets_ s' c = Quick.buckets_ s c) /\
  Quick.num_dict_lookups_ s' = Quick.num_dict_lookups_ s /\
  Quick.num_dict_matches_ s' = Quick.num_dict_matches_ s.
Proof.
  intros P data data_p startix mask s n cell.
  induction n as [| n IH]; intros s'.
  - subst s'. cbn [fold_left]. split; [intros p Hp; lia |].
    split; [reflexivity |]. split; reflexivity.
  - subst s'. rewrite zrange_snoc, fold_left_app. cbn [fold_left].
    cbv zeta in IH. destruct IH as [Hnew [Hold [Hl Hm]]].
    set (sn := fold_left _ (zrange (Z.of_nat n)) s) in *.
    unfold Quick.Store. cbv zeta.
    cbn [Quick.buckets_ Quick.num_dict_lookups_ Quick.num_dict_matches_].
    fold (Quick_cell P data (data_p + Z.land (Z.of_nat n) mask)
            (startix + Z.of_nat n)).
    fold (cell (Z.of_nat n)).
    split; [| split; [| split; assumption]].
    + intros p Hp Hlast.
      destruct (Z.eq_dec p (Z.of_nat n)) as [-> | Hne].
      * apply upd_same.
      * rewrite upd_other by (apply not_eq_sym, Hlast; lia).
        apply Hnew; [lia |]. intros p' Hp'. apply Hlast. lia.
    + intros c Hc. rewrite upd_other by (apply not_eq_sym, Hc; lia).
      apply Hold. intros p Hp. apply Hc. lia.
Qed.

(** X10.  [StoreHashes] of a quick hasher over [len] bytes, [len] below 2^31:
    the cell written for the position [p] of the range holds
    [startix + p] afterwards unless a later position of the range was
    written to the same cell; a cell that no position of the range is
    written to, and the two dictionary counters, are as before. *)
Theorem quick_store_hashes_newest_wins :
  forall P data data_p len startix mask s,
    0 <= len < 2 ^ 31 ->
    let cell := fun p => Quick_cell P data (data_p + Z.land p mask)
                           (startix + p) in
    let s' := Quick.StoreHashes P data data_p len startix mask s in
    (forall p, 0 <= p < len ->
       (forall p', p < p' < len -> cell p' <> cell p) ->
       Quick.buckets_ s' (cell p) = u32 (startix + p)) /\
    (forall c, (forall p, 0 <= p < len -> cell p <> c) ->
       Quick.buckets_ s' c = Quick.buckets_ s c) /\
    Quick.num_dict_lookups_ s' = Quick.num_dict_lookups_ s /\
    Quick.num_dict_matches_ s' = Quick.num_dict_matches_ s.
Proof.
  intros P data data_p len startix mask s Hlen cell s'.
  subst s'. unfold Quick.StoreHashes.
  rewrite Quick_StoreHashes_loop_unroll by lia.
  rewrite Z2Nat.id, zrange_offset_0 by lia.
  pose proof (Quick_stores_newest_wins P data data_p startix mask s
                (Z.to_nat len)) as Hfold.
  cbv zeta in Hfold. rewrite Z2Nat.id in Hfold by lia. exact Hfold.
Qed.

Lemma quick_store_hashes_newest_wins_witness :
  let cell := fun p => Quick_cell H1 all_x (0 + Z.land p 255) (0 + p) in
  let s' := Quick.StoreHashes H1 all_x 0 4 0 255 fresh_quick in
  (forall p, 0 <= p < 4 ->
     (forall p', p < p' < 4 -> cell p' <> cell p) ->
     Quick.buckets_ s' (cell p) = u32 (0 + p)) /\
  (forall c, (forall p, 0 <= p < 4 -> cell p <> c) ->
     Quick.buckets_ s' c = Quick.buckets_ fresh_quick c) /\
  Quick.num_dict_lookups_ s' = Quick.num_dict_lookups_ fresh_quick /\
  Quick.num_dict_matches_ s' = Quick.num_dict_matches_ fresh_quick.
Proof.
  apply (quick_store_hashes_newest_wins H1 all_x 0 4 0 255 fresh_quick).
  lia.
Defined.

(** ** FindAllMatches: the order of the matches *)

Lemma to_int32_id : forall x, 0 <= x < 2 ^ 31 -> to_int32 x = x.
Proof. intros x Hx. apply to_int32_small. lia. Qed.

Lemma sorted_below_push : forall orig bound m b,
  sorted_below orig bound b ->
  bound < length m ->
  2 <= length m ->
  sorted_below orig (length m) (push m b).
Proof.
  intros orig bound m b [Hpos [Hbound Hsorted]] Hm H2.
  unfold sorted_below, push. cbn [arr pos].
  split; [lia |]. split.
  - intros i Hi. unfold upd.
    destruct (Z.eqb_spec i (pos b)) as [| Hne]; [lia |].
    specialize (Hbound i ltac:(lia)). lia.
  - intros i j Hi Hij Hj. unfold upd.
    destruct (Z.eqb_spec i (pos b)) as [| Hi']; [lia |].
    destruct (Z.eqb_spec j (pos b)) as [| Hj'].
    + specialize (Hbound i ltac:(lia)). lia.
    + apply Hsorted; lia.
Qed.

Lemma sorted_below_rewind_push : forall orig m b,
  2 <= length m ->
  sorted_below orig (length m) (push m (rewind orig b)).
Proof.
  intros orig m b H2. unfold sorted_below, push, rewind. cbn [arr pos].
  split; [lia |]. split.
  - intros i Hi. replace i with orig by lia. rewrite upd_same. lia.
  - intros i j Hi Hij Hj. lia.
Qed.

Lemma sorted_below_weaken : forall orig bound bound' b,
  sorted_below orig bound b -> bound <= bound' ->
  sorted_below orig bound' b.
Proof.
  intros orig bound bound' b [Hpos [Hbound Hsorted]] Hle.
  split; [exact Hpos |]. split; [| exact Hsorted].
  intros i Hi. specialize (Hbound i Hi). lia.
Qed.


Section BlockOrder.
Variable SD : StaticDictionary.
Variable P : Block.params.
Variable s : Block.state.
Variable data : Mem.
Variable mask : Z.
Variables cur_ix max_length max_backward : Z.
Variable orig : Z.
Hypothesis Hmax : 0 <= max_length < 2 ^ 31.





End BlockOrder.



(** ** The BT4 matchfinder: insertion of a position *)

Lemma AdvanceOneByte_start :
  forall P data cur_ix mask max_length orig record t matches best_len0,
    BT4.nice_length_ t <= max_length ->
    let d := BT4_start P data cur_ix mask record t matches in
    BT4.AdvanceOneByte P data cur_ix mask max_length orig record t matches
      best_len0
    = if BT4.out_of_window cur_ix (BT4.tree d) (BT4.prev_ix d)
      then BT4.finish d
      else BT4.descend data cur_ix mask max_length orig record best_len0
             (BT4.depth_budget (BT4.tree d)) d.
Proof.
  intros P data cur_ix mask max_length orig record t matches best_len0 Hnice.
  unfold BT4.AdvanceOneByte, BT4_start, BT4_probes, BT4_slot2, BT4_slot3,
    BT4_slot4.
  destruct (Z.ltb_spec max_length (BT4.nice_length_ t)); [lia |].
  cbv zeta.
  destruct (BT4.probe_subtable cur_ix record _ 3 _ _) as [t3 b3].
  reflexivity.
Qed.

Section Descent.
Variable data : Mem.
Variables cur_ix mask max_length orig : Z.
Variable record : bool.
Variable best_len0 : Z.
Variable I : BT4.descent -> Prop.
Variable R : BT4.result -> Prop.
Hypothesis Hfinish : forall d, I d -> R (BT4.finish d).
Hypothesis Hstep : forall d, I d ->
  match BT4.extend data cur_ix mask max_length orig record best_len0 d with
  | inl r => R r
  | inr d1 =>
      let d2 := BT4.branch data cur_ix mask d1 in
      R (BT4.finish d2) /\
      (BT4.out_of_window cur_ix (BT4.tree d2) (BT4.prev_ix d2) = false ->
       I d2)
  end.

(** A property of the locals that each round of the loop keeps holds of
    what the loop leaves behind. *)
Lemma descend_invariant : forall n d,
  I d ->
  R (BT4.descend data cur_ix mask max_length orig record best_len0 n d).
Proof.
  induction n as [| n IH]; intros d Hd; cbn [BT4.descend].
  - apply Hfinish. exact Hd.
  - specialize (Hstep d Hd).
    destruct (BT4.extend _ _ _ _ _ _ _ d) as [r | d1]; [exact Hstep |].
    cbv zeta in *. destruct Hstep as [Hfin Hnext].
    destruct (BT4.out_of_window _ _ _); [exact Hfin |].
    destruct n as [| n]; [exact Hfin |].
    apply IH. apply Hnext. reflexivity.
Qed.

Lemma AdvanceOneByte_invariant : forall P t matches,
  BT4.nice_length_ t <= max_length ->
  let d := BT4_start P data cur_ix mask record t matches in
  R (BT4.finish d) ->
  (BT4.out_of_window cur_ix (BT4.tree d) (BT4.prev_ix d) = false -> I d) ->
  R (BT4.AdvanceOneByte P data cur_ix mask max_length orig record t matches
       best_len0).
Proof.
  intros P t matches Hnice d Hfin Hd.
  rewrite AdvanceOneByte_start by exact Hnice. fold d.
  destruct (BT4.out_of_window _ _ _); [exact Hfin |].
  apply descend_invariant. apply Hd. reflexivity.
Qed.

End Descent.

Lemma same_hash_tabs_set_child : forall t t' i v,
  same_hash_tabs t t' -> same_hash_tabs t (BT4.set_child i v t').
Proof. intros t t' i v H. exact H. Qed.

Lemma probe_subtable_tables : forall cur_ix record slot len same_prefix t b,
  let tb := BT4.probe_subtable cur_ix record slot len same_prefix (t, b) in
  BT4.hash_tabs_ (fst tb) = upd slot cur_ix (BT4.hash_tabs_ t) /\
  BT4.window_mask_ (fst tb) = BT4.window_mask_ t /\
  BT4.max_search_depth_ (fst tb) = BT4.max_search_depth_ t /\
  BT4.nice_length_ (fst tb) = BT4.nice_length_ t /\
  BT4.child_tab_ (fst tb) = BT4.child_tab_ t.
Proof.
  intros. subst tb. unfold BT4.probe_subtable.
  destruct (_ && _ && _); repeat split; reflexivity.
Qed.

Lemma BT4_probes_tables : forall P data cur_ix mask record t matches,
  let tb := BT4_probes P data cur_ix mask record t matches in
  BT4.hash_tabs_ (fst tb)
  = upd (BT4_slot3 P data cur_ix mask) cur_ix
      (upd (BT4_slot2 P data cur_ix mask) cur_ix (BT4.hash_tabs_ t)) /\
  BT4.window_mask_ (fst tb) = BT4.window_mask_ t /\
  BT4.max_search_depth_ (fst tb) = BT4.max_search_depth_ t /\
  BT4.nice_length_ (fst tb) = BT4.nice_length_ t /\
  BT4.child_tab_ (fst tb) = BT4.child_tab_ t.
Proof.
  intros P data cur_ix mask record t matches tb. subst tb.
  unfold BT4_probes. cbv zeta.
  set (same2 := fun prev_ix : Z => _ =? BROTLI_UNALIGNED_LOAD16 _ _).
  set (same3 := fun prev_ix : Z => _ =? BROTLI_LOADED_U32_TO_U24 _).
  destruct (probe_subtable_tables cur_ix record (BT4_slot2 P data cur_ix mask)
              2 same2 t matches) as [Hh2 [Hw2 [Hd2 [Hn2 Hc2]]]].
  destruct (BT4.probe_subtable cur_ix record _ 2 same2 (t, matches))
    as [t2 b2].
  cbn [fst] in Hh2, Hw2, Hd2, Hn2, Hc2.
  destruct (probe_subtable_tables cur_ix record (BT4_slot3 P data cur_ix mask)
              3 same3 t2 b2) as [Hh3 [Hw3 [Hd3 [Hn3 Hc3]]]].
  rewrite Hh3, Hw3, Hd3, Hn3, Hc3, Hh2, Hw2, Hd2, Hn2, Hc2.
  repeat split; reflexivity.
Qed.

Lemma BT4_slots_range : forall P data cur_ix mask,
  0 <= BT4.kHash2Log P <= 32 ->
  0 <= BT4.kHash3Log P <= 32 ->
  0 <= BT4.kHash4Log P <= 32 ->
  0 <= BT4_slot2 P data cur_ix mask < BT4.kHash3Offset P /\
  BT4.kHash3Offset P <= BT4_slot3 P data cur_ix mask < BT4.kHash4Offset P /\
  BT4.kHash4Offset P <= BT4_slot4 P data cur_ix mask
  < BT4.kHashTotalLength P.
Proof.
  intros P data cur_ix mask H2 H3 H4.
  unfold BT4_slot2, BT4_slot3, BT4_slot4, BT4.kHashTotalLength,
    BT4.kHash4Offset, BT4.kHash3Offset, BT4.kHash2Offset, BT4.kHash2Length,
    BT4.kHash3Length, BT4.kHash4Length.
  rewrite !Z.shiftl_1_l.
  set (seq4 := BROTLI_UNALIGNED_LOAD32 _ _).
  pose proof (BT4_Hash_range (BROTLI_LOADED_U32_TO_U16 seq4) _ H2).
  pose proof (BT4_Hash_range (BROTLI_LOADED_U32_TO_U24 seq4) _ H3).
  pose proof (BT4_Hash_range seq4 _ H4).
  lia.
Qed.

(** X12.  [AdvanceOneByte] with enough lookahead ([nice_length_ <= max_length])
    and subtables of at most 2^32 cells: the three cells of [hash_tabs_]
    that belong to the two, three and four bytes at [cur_ix] lie in their
    subtables and hold [cur_ix] afterwards; every other cell of
    [hash_tabs_], the window mask, the search depth and the nice length are
    as before. *)
Theorem bt4_insertion_updates_three_hash_cells :
  forall P data cur_ix mask max_length orig record t matches best_len0,
    BT4.nice_length_ t <= max_length ->
    0 <= BT4.kHash2Log P <= 32 ->
    0 <= BT4.kHash3Log P <= 32 ->
    0 <= BT4.kHash4Log P <= 32 ->
    let slot2 := BT4_slot2 P data cur_ix mask in
    let slot3 := BT4_slot3 P data cur_ix mask in
    let slot4 := BT4_slot4 P data cur_ix mask in
    let t' := BT4.finder (BT4.AdvanceOneByte P data cur_ix mask max_length
                            orig record t matches best_len0) in
    0 <= slot2 < BT4.kHash3Offset P /\
    BT4.kHash3Offset P <= slot3 < BT4.kHash4Offset P /\
    BT4.kHash4Offset P <= slot4 < BT4.kHashTotalLength P /\
    BT4.hash_tabs_ t' slot2 = cur_ix /\
    BT4.hash_tabs_ t' slot3 = cur_ix /\
    BT4.hash_tabs_ t' slot4 = cur_ix /\
    (forall j, j <> slot2 -> j <> slot3 -> j <> slot4 ->
               BT4.hash_tabs_ t' j = BT4.hash_tabs_ t j) /\
    BT4.window_mask_ t' = BT4.window_mask_ t /\
    BT4.max_search_depth_ t' = BT4.max_search_depth_ t /\
    BT4.nice_length_ t' = BT4.nice_length_ t.
Proof.
  intros P data cur_ix mask max_length orig record t matches best_len0 Hnice
    H2 H3 H4 slot2 slot3 slot4 t'.
  destruct (BT4_slots_range P data cur_ix mask H2 H3 H4) as [R2 [R3 R4]].
  fold slot2 in R2. fold slot3 in R3. fold slot4 in R4.
  destruct (BT4_probes_tables P data cur_ix mask record t matches)
    as [Hh [Hw [Hd Hn]]].
  fold slot2 slot3 in Hh.
  set (t4 := BT4.tree (BT4_start P data cur_ix mask record t matches)).
  assert (Hsame : same_hash_tabs t4 t').
  { subst t'.
    apply (AdvanceOneByte_invariant data cur_ix mask max_length orig record
             best_len0
             (fun d => same_hash_tabs t4 (BT4.tree d))
             (fun r => same_hash_tabs t4 (BT4.finder r))).
    - intros d Hinv. exact Hinv.
    - intros d Hinv. unfold BT4.extend. cbv zeta.
      split_ifs; cbn [BT4.finder BT4.tree]; try exact Hinv;
        unfold BT4.branch; cbv zeta; split_ifs;
          cbn [BT4.finish BT4.finder BT4.tree BT4.prev_ix];
          (split; [exact Hinv | intros _; exact Hinv]).
    - exact Hnice.
    - repeat split.
    - intros _. repeat split. }
  destruct Hsame as [Hh' [Hw' [Hd' Hn']]].
  assert (Ht4 : BT4.hash_tabs_ t4
                = upd slot4 cur_ix
                    (upd slot3 cur_ix (upd slot2 cur_ix (BT4.hash_tabs_ t)))).
  { subst t4. unfold BT4_start. cbv zeta.
    cbn [BT4.tree BT4.set_hash BT4.hash_tabs_]. rewrite Hh. reflexivity. }
  rewrite Hh', Hw', Hd', Hn', Ht4.
  split; [exact R2 |]. split; [exact R3 |]. split; [exact R4 |].
  split; [| split; [| split; [| split]]].
  - rewrite !upd_other by lia. apply upd_same.
  - rewrite upd_other by lia. apply upd_same.
  - apply upd_same.
  - intros j J2 J3 J4. rewrite !upd_other by assumption. reflexivity.
  - subst t4. unfold BT4_start. cbv zeta.
    cbn [BT4.tree BT4.set_hash BT4.window_mask_ BT4.max_search_depth_
         BT4.nice_length_].
    destruct Hn as [Hn Hc]. repeat split; assumption.
Qed.

Lemma bt4_insertion_updates_three_hash_cells_witness :
  let slot2 := BT4_slot2 H10 period8 16 1023 in
  let slot3 := BT4_slot3 H10 period8 16 1023 in
  let slot4 := BT4_slot4 H10 period8 16 1023 in
  let t' := BT4.finder (BT4.AdvanceOneByte H10 period8 16 1023 64 0 true
                          fresh_bt4 empty_matches 0) in
  0 <= slot2 < BT4.kHash3Offset H10 /\
  BT4.kHash3Offset H10 <= slot3 < BT4.kHash4Offset H10 /\
  BT4.kHash4Offset H10 <= slot4 < BT4.kHashTotalLength H10 /\
  BT4.hash_tabs_ t' slot2 = 16 /\
  BT4.hash_tabs_ t' slot3 = 16 /\
  BT4.hash_tabs_ t' slot4 = 16 /\
  (forall j, j <> slot2 -> j <> slot3 -> j <> slot4 ->
             BT4.hash_tabs_ t' j = BT4.hash_tabs_ fresh_bt4 j) /\
  BT4.window_mask_ t' = BT4.window_mask_ fresh_bt4 /\
  BT4.max_search_depth_ t' = BT4.max_search_depth_ fresh_bt4 /\
  BT4.nice_length_ t' = BT4.nice_length_ fresh_bt4.
Proof.
  apply (bt4_insertion_updates_three_hash_cells H10 period8 16 1023 64 0 true
           fresh_bt4 empty_matches 0).
  - vm_compute. discriminate.
  - vm_compute. split; discriminate.
  - vm_compute. split; discriminate.
  - vm_compute. split; discriminate.
Defined.

(** ** The BT4 matchfinder: the matches that are recorded *)

Lemma BT4_probes_no_record : forall P data cur_ix mask t matches,
  snd (BT4_probes P data cur_ix mask false t matches) = matches.
Proof. intros. reflexivity. Qed.

(** X13.  [AdvanceOneByte] with [record_matches] false, as [SkipByte] calls it,
    stores no match: the pointer into the caller's array comes back
    unchanged and nothing was written through it.  [*best_len_ret] is left
    alone or set to 3. *)
Theorem bt4_skip_records_no_match :
  forall P data cur_ix mask max_length orig t matches best_len0,
    let r := BT4.AdvanceOneByte P data cur_ix mask max_length orig false t
               matches best_len0 in
    BT4.matches_ret r = matches /\
    (BT4.best_len_ret r = best_len0 \/ BT4.best_len_ret r = 3).
Proof.
  intros P data cur_ix mask max_length orig t matches best_len0 r. subst r.
  destruct (Z_lt_le_dec max_length (BT4.nice_length_ t)) as [Hshort | Hnice].
  - unfold BT4.AdvanceOneByte.
    destruct (Z.ltb_spec max_length (BT4.nice_length_ t)); [| lia].
    cbn [BT4.matches_ret BT4.best_len_ret]. auto.
  - apply (AdvanceOneByte_invariant data cur_ix mask max_length orig false
             best_len0
             (fun d => BT4.matches d = matches /\ BT4.best_len d = 3)
             (fun r => BT4.matches_ret r = matches /\
                       (BT4.best_len_ret r = best_len0 \/
                        BT4.best_len_ret r = 3))).
    + intros d [Hm Hb]. cbn [BT4.finish BT4.matches_ret BT4.best_len_ret].
      auto.
    + intros d [Hm Hb]. unfold BT4.extend. cbv zeta. cbn [negb].
      split_ifs; cbn [BT4.matches_ret BT4.best_len_ret]; auto;
        unfold BT4.branch; cbv zeta; split_ifs;
          cbn [BT4.finish BT4.matches_ret BT4.best_len_ret BT4.matches
               BT4.best_len]; auto.
    + exact Hnice.
    + cbn [BT4.finish BT4.matches_ret BT4.best_len_ret BT4_start BT4.matches
           BT4.best_len].
      rewrite BT4_probes_no_record. auto.
    + intros _. cbn [BT4_start BT4.matches BT4.best_len].
      rewrite BT4_probes_no_record. auto.
Qed.

Lemma in_window_push : forall window_mask old m b,
  in_window window_mask old b ->
  u32 (distance m) <= u32 (window_mask - 15) ->
  in_window window_mask old (push m b).
Proof.
  intros window_mask old m b Hb Hm m' [<- | Hin].
  - right. exact Hm.
  - apply Hb. exact Hin.
Qed.

Lemma in_window_probe_subtable :
  forall cur_ix record slot len same_prefix t b old,
    in_window (BT4.window_mask_ t) old b ->
    in_window (BT4.window_mask_ t) old
      (snd (BT4.probe_subtable cur_ix record slot len same_prefix (t, b))).
Proof.
  intros cur_ix record slot len same_prefix t b old Hb.
  unfold BT4.probe_subtable.
  destruct record; [| exact Hb].
  destruct (Z.leb_spec (u32 (cur_ix - BT4.hash_tabs_ t slot))
              (u32 (BT4.window_mask_ t - 15))) as [Hwin |]; [| exact Hb].
  destruct (same_prefix _); [| exact Hb].
  cbn [andb snd]. apply in_window_push; [exact Hb |].
  cbn [BackwardMatch2 distance]. rewrite u32_to_int32. exact Hwin.
Qed.

Lemma in_window_probes : forall P data cur_ix mask record t matches,
  in_window (BT4.window_mask_ t) (written matches)
    (snd (BT4_probes P data cur_ix mask record t matches)).
Proof.
  intros P data cur_ix mask record t matches. unfold BT4_probes. cbv zeta.
  set (same2 := fun prev_ix : Z => _ =? BROTLI_UNALIGNED_LOAD16 _ _).
  set (same3 := fun prev_ix : Z => _ =? BROTLI_LOADED_U32_TO_U24 _).
  pose proof (in_window_probe_subtable cur_ix record
                (BT4_slot2 P data cur_ix mask) 2 same2 t matches
                (written matches)) as H2.
  destruct (probe_subtable_tables cur_ix record (BT4_slot2 P data cur_ix mask)
              2 same2 t matches) as [_ [Hw2 _]].
  destruct (BT4.probe_subtable cur_ix record _ 2 same2 (t, matches))
    as [t2 b2].
  cbn [fst snd] in H2, Hw2. rewrite <- Hw2.
  apply in_window_probe_subtable. rewrite Hw2. apply H2.
  intros m Hm. left. exact Hm.
Qed.

(** X14.  Every match that [AdvanceOneByte] stores has a distance of at most
    [window_mask_ - 15], read as [uint32_t]. *)
Theorem bt4_recorded_matches_lie_in_window :
  forall P data cur_ix mask max_length orig record t matches best_len0,
    let r := BT4.AdvanceOneByte P data cur_ix mask max_length orig record t
               matches best_len0 in
    forall m, In m (written (BT4.matches_ret r)) ->
      In m (written matches) \/
      u32 (distance m) <= u32 (BT4.window_mask_ t - 15).
Proof.
  intros P data cur_ix mask max_length orig record t matches best_len0 r.
  subst r.
  destruct (Z_lt_le_dec max_length (BT4.nice_length_ t)) as [Hshort | Hnice].
  - unfold BT4.AdvanceOneByte.
    destruct (Z.ltb_spec max_length (BT4.nice_length_ t)); [| lia].
    cbn [BT4.matches_ret]. intros m Hm. left. exact Hm.
  - set (W := BT4.window_mask_ t).
    change (in_window W (written matches)
              (BT4.matches_ret
                 (BT4.AdvanceOneByte P data cur_ix mask max_length orig record
                    t matches best_len0))).
    assert (Hstart : in_window W (written matches)
                       (BT4.matches
                          (BT4_start P data cur_ix mask record t matches)) /\
                     BT4.window_mask_
                       (BT4.tree
                          (BT4_start P data cur_ix mask record t matches))
                     = W).
    { cbn [BT4_start BT4.matches BT4.tree BT4.set_hash BT4.window_mask_].
      split; [apply in_window_probes |].
      apply (BT4_probes_tables P data cur_ix mask record t matches). }
    destruct Hstart as [Hstart Hmask].
    apply (AdvanceOneByte_invariant data cur_ix mask max_length orig record
             best_len0
             (fun d => in_window W (written matches) (BT4.matches d) /\
                       BT4.window_mask_ (BT4.tree d) = W /\
                       BT4.out_of_window cur_ix (BT4.tree d) (BT4.prev_ix d)
                       = false)
             (fun r => in_window W (written matches) (BT4.matches_ret r))).
    + intros d [Hm _]. exact Hm.
    + intros d [Hm [Hw Hin]].
      assert (Hnew : forall l,
        in_window W (written matches)
          (push (BackwardMatch2 (to_int32 (cur_ix - BT4.prev_ix d)) l)
             (BT4.matches d))).
      { intros l. apply in_window_push; [exact Hm |].
        cbn [BackwardMatch2 distance]. rewrite u32_to_int32.
        unfold BT4.out_of_window in Hin. rewrite Hw in Hin.
        apply Z.ltb_ge in Hin. exact Hin. }
      assert (Hnice_new : forall l,
        in_window W (written matches)
          (push (BackwardMatch2 (to_int32 (cur_ix - BT4.prev_ix d)) l)
             (rewind orig (BT4.matches d)))).
      { intros l. exact (Hnew l). }
      unfold BT4.extend. cbv zeta.
      split_ifs; cbn [BT4.matches_ret]; try exact Hm;
        try apply Hnice_new;
        unfold BT4.branch; cbv zeta; split_ifs;
          cbn [BT4.finish BT4.matches_ret BT4.matches BT4.tree BT4.prev_ix
               BT4.set_child BT4.window_mask_];
          (split; [first [exact Hm | apply Hnew]
                  | intros Hin'; split; [first [exact Hm | apply Hnew]
                                        | split; [exact Hw | exact Hin']]]).
    + exact Hnice.
    + exact Hstart.
    + intros Hin. split; [exact Hstart | split; [exact Hmask | exact Hin]].
Qed.

Lemma bt4_recorded_matches_lie_in_window_witness :
  let r := BT4.AdvanceOneByte H10 period8 16 1023 64 0 true bt4_after_8
             empty_matches 0 in
  let m := BackwardMatch2 8 64 in
  In m (written (BT4.matches_ret r)) /\
  (In m (written empty_matches) \/
   u32 (distance m) <= u32 (BT4.window_mask_ bt4_after_8 - 15)).
Proof.
  split.
  - vm_compute. left. reflexivity.
  - apply (bt4_recorded_matches_lie_in_window H10 period8 16 1023 64 0 true
             bt4_after_8 empty_matches 0 (BackwardMatch2 8 64)).
    vm_compute. left. reflexivity.
Defined.

(** ** The BT4 matchfinder: the order of the matches *)


Lemma sorted_probe_subtable :
  forall cur_ix slot len same_prefix t b orig bound,
    sorted_below orig bound b ->
    bound < len -> 2 <= len ->
    sorted_below orig len
      (snd (BT4.probe_subtable cur_ix true slot len same_prefix (t, b))).
Proof.
  intros cur_ix slot len same_prefix t b orig bound Hb Hbound Hlen.
  unfold BT4.probe_subtable.
  destruct (_ && _ && _); cbn [snd].
  - rewrite <- (length_BackwardMatch2
                  (to_int32 (cur_ix - BT4.hash_tabs_ t slot)) len) at 1.
    apply sorted_below_push with (1 := Hb);
      rewrite length_BackwardMatch2; lia.
  - apply sorted_below_weaken with (1 := Hb). lia.
Qed.

Lemma sorted_probes : forall P data cur_ix mask t matches,
  sorted_below (pos matches) 3
    (snd (BT4_probes P data cur_ix mask true t matches)).
Proof.
  intros P data cur_ix mask t matches. unfold BT4_probes. cbv zeta.
  set (same2 := fun prev_ix : Z => _ =? BROTLI_UNALIGNED_LOAD16 _ _).
  set (same3 := fun prev_ix : Z => _ =? BROTLI_LOADED_U32_TO_U24 _).
  assert (H0 : sorted_below (pos matches) 1 matches).
  { split; [lia |]. split; intros; lia. }
  pose proof (sorted_probe_subtable cur_ix (BT4_slot2 P data cur_ix mask) 2
                same2 t matches (pos matches) 1 H0 ltac:(lia) ltac:(lia))
    as H2.
  destruct (BT4.probe_subtable cur_ix true _ 2 same2 (t, matches))
    as [t2 b2].
  cbn [snd] in H2.
  apply sorted_probe_subtable with (bound := 2); [exact H2 | lia | lia].
Qed.

Section TreeOrder.
Variable data : Mem.
Variables cur_ix mask max_length orig : Z.
Variable best_len0 : Z.
Variable nl : Z.
Hypothesis Hnl : 4 <= nl <= max_length.
Hypothesis Hmax : max_length < 2 ^ 31.

Lemma bt4_reported_finish : forall d,
  bt4_sorted orig nl d -> bt4_reported orig nl max_length (BT4.finish d).
Proof.
  intros d [Hs [Hb _]]. unfold bt4_reported.
  cbn [BT4.finish BT4.matches_ret BT4.best_len_ret].
  split; [exact Hs |]. split; [lia |]. intros Hnice. lia.
Qed.

Lemma bt4_sorted_branch : forall d,
  bt4_sorted orig nl d -> bt4_sorted orig nl (BT4.branch data cur_ix mask d).
Proof.
  intros d [Hs [Hb [Hl [Hlt [Hgt Hn]]]]]. unfold BT4.branch. cbv zeta.
  destruct (data _ <? data _); unfold bt4_sorted;
    cbn [BT4.matches BT4.best_len BT4.len BT4.best_lt_len BT4.best_gt_len
         BT4.tree BT4.set_child BT4.nice_length_];
    (split; [exact Hs |]); (split; [exact Hb |]).
  - destruct (BT4.best_gt_len d <? BT4.len d) eqn:Hcmp;
      [apply Z.ltb_lt in Hcmp |]; repeat split; try lia; exact Hn.
  - destruct (BT4.best_lt_len d <? BT4.len d) eqn:Hcmp;
      [apply Z.ltb_lt in Hcmp |]; repeat split; try lia; exact Hn.
Qed.

Lemma bt4_sorted_extend : forall d,
  bt4_sorted orig nl d ->
  match BT4.extend data cur_ix mask max_length orig true best_len0 d with
  | inl r => bt4_reported orig nl max_length r
  | inr d1 => bt4_sorted orig nl d1
  end.
Proof.
  intros d Hd. pose proof Hd as [Hs [Hb [Hl [Hlt [Hgt Hn]]]]].
  unfold BT4.extend. cbv zeta.
  destruct (data _ =? data _); [| exact Hd].
  cbn [negb].
  assert (Hlen1 : u32 (BT4.len d + 1) = BT4.len d + 1)
    by (apply u32_small; lia).
  rewrite !Hlen1.
  assert (Hlimit : u32 (max_length - (BT4.len d + 1))
                   = max_length - (BT4.len d + 1))
    by (apply u32_small; lia).
  rewrite !Hlimit.
  set (fml := FindMatchLengthWithLimit _ _ _ _ _).
  assert (Hfml : 0 <= fml <= max_length - (BT4.len d + 1))
    by (apply FindMatchLengthWithLimit_bound; lia).
  assert (Hlen2 : u32 (BT4.len d + 1 + fml) = BT4.len d + 1 + fml)
    by (apply u32_small; lia).
  rewrite !Hlen2.
  set (len2 := BT4.len d + 1 + fml) in *.
  assert (Hm : forall dist,
    length (BackwardMatch2 dist (to_int32 len2)) = len2).
  { intros dist. rewrite length_BackwardMatch2. apply to_int32_id. lia. }
  unfold BT4.nice_len. rewrite Hn, Z.min_l by lia.
  destruct (Z.ltb_spec (BT4.best_len d) len2) as [Hlonger | Hshorter].
  - destruct (Z.leb_spec nl len2) as [Hnice | Hmore].
    + unfold bt4_reported. cbn [BT4.matches_ret BT4.best_len_ret].
      split; [| split; [lia |]].
      * rewrite <- (Hm (to_int32 (cur_ix - BT4.prev_ix d))) at 1.
        apply sorted_below_rewind_push. rewrite Hm. lia.
      * intros _. cbn [push rewind pos arr]. split; [reflexivity |].
        rewrite upd_same. apply Hm.
    + unfold bt4_sorted.
      cbn [BT4.matches BT4.best_len BT4.len BT4.best_lt_len BT4.best_gt_len
           BT4.tree].
      split; [| repeat split; try lia; exact Hn].
      rewrite <- (Hm (to_int32 (cur_ix - BT4.prev_ix d))) at 1.
      apply sorted_below_push with (1 := Hs); rewrite Hm; lia.
  - unfold bt4_sorted.
    cbn [BT4.matches BT4.best_len BT4.len BT4.best_lt_len BT4.best_gt_len
         BT4.tree].
    split; [exact Hs |]. repeat split; try lia; exact Hn.
Qed.

Lemma bt4_reported_AdvanceOneByte : forall P t matches,
  BT4.nice_length_ t = nl ->
  pos matches = orig ->
  bt4_reported orig nl max_length
    (BT4.AdvanceOneByte P data cur_ix mask max_length orig true t matches
       best_len0).
Proof.
  intros P t matches Hnice Hpos.
  assert (Hstart : bt4_sorted orig nl
                     (BT4_start P data cur_ix mask true t matches)).
  { unfold bt4_sorted.
    cbn [BT4_start BT4.matches BT4.best_len BT4.len BT4.best_lt_len
         BT4.best_gt_len BT4.tree BT4.set_hash BT4.nice_length_].
    split; [rewrite <- Hpos; apply sorted_probes |].
    repeat split; try lia.
    rewrite <- Hnice.
    apply (BT4_probes_tables P data cur_ix mask true t matches). }
  apply (AdvanceOneByte_invariant data cur_ix mask max_length orig true
           best_len0 (bt4_sorted orig nl) (bt4_reported orig nl max_length)).
  - apply bt4_reported_finish.
  - intros d Hd. pose proof (bt4_sorted_extend d Hd) as Hext.
    destruct (BT4.extend _ _ _ _ _ _ _ d) as [r | d1]; [exact Hext |].
    cbv zeta. split.
    + apply bt4_reported_finish, bt4_sorted_branch. exact Hext.
    + intros _. apply bt4_sorted_branch. exact Hext.
  - lia.
  - apply bt4_reported_finish. exact Hstart.
  - intros _. exact Hstart.
Qed.

End TreeOrder.

(** X15.  [AdvanceOneByte] that records matches, for a nice length of at
    least 4, enough lookahead and [max_length] below 2^31: the matches
    between the start of the caller's array and the returned pointer have
    lengths from 2 up to [*best_len_ret], in strictly increasing order;
    [*best_len_ret] lies between 3 and [max_length]; and if it reaches the
    nice length, one match is returned, of that length. *)
Theorem bt4_tree_matches_sorted_and_nice_match_alone :
  forall P data cur_ix mask max_length t matches best_len0,
    4 <= BT4.nice_length_ t ->
    BT4.nice_length_ t <= max_length ->
    max_length < 2 ^ 31 ->
    let orig := pos matches in
    let r := BT4.AdvanceOneByte P data cur_ix mask max_length orig true t
               matches best_len0 in
    let b := BT4.matches_ret r in
    3 <= BT4.best_len_ret r <= max_length /\
    orig <= pos b /\
    (forall i, orig <= i < pos b ->
               2 <= length (arr b i) <= BT4.best_len_ret r) /\
    (forall i j, orig <= i -> i < j -> j < pos b ->
                 length (arr b i) < length (arr b j)) /\
    (BT4.nice_length_ t <= BT4.best_len_ret r ->
     pos b = orig + 1 /\ length (arr b orig) = BT4.best_len_ret r).
Proof.
  intros P data cur_ix mask max_length t matches best_len0 H4 Hnice Hmax
    orig r b.
  destruct (bt4_reported_AdvanceOneByte data cur_ix mask max_length orig
              best_len0 (BT4.nice_length_ t) ltac:(lia) Hmax P t matches
              eq_refl eq_refl) as [[Hpos [Hbound Hsorted]] [Hbest Halone]].
  fold r in Hpos, Hbound, Hsorted, Hbest, Halone.
  fold b in Hpos, Hbound, Hsorted, Halone.
  repeat split; try assumption; try lia;
    try (apply Hbound; assumption); apply Halone; assumption.
Qed.

Lemma bt4_tree_matches_sorted_and_nice_match_alone_witness :
  let r := BT4.AdvanceOneByte H10 period8 16 1023 64 0 true bt4_after_8
             empty_matches 0 in
  let b := BT4.matches_ret r in
  3 <= BT4.best_len_ret r <= 64 /\
  0 <= pos b /\
  (forall i, 0 <= i < pos b -> 2 <= length (arr b i) <= BT4.best_len_ret r) /\
  (forall i j, 0 <= i -> i < j -> j < pos b ->
               length (arr b i) < length (arr b j)) /\
  (BT4.nice_length_ bt4_after_8 <= BT4.best_len_ret r ->
   pos b = 0 + 1 /\ length (arr b 0) = BT4.best_len_ret r).
Proof.
  apply (bt4_tree_matches_sorted_and_nice_match_alone H10 period8 16 1023 64
           bt4_after_8 empty_matches 0).
  - vm_compute. discriminate.
  - vm_compute. discriminate.
  - lia.
Defined.



(** ** The BT4 matchfinder after [Reset] *)

Lemma probe_subtable_out_of_window :
  forall cur_ix record slot len same_prefix t b,
    u32 (BT4.window_mask_ t - 15) < u32 (cur_ix - BT4.hash_tabs_ t slot) ->
    BT4.probe_subtable cur_ix record slot len same_prefix (t, b)
    = (BT4.set_hash slot cur_ix t, b).
Proof.
  intros cur_ix record slot len same_prefix t b Hout.
  unfold BT4.probe_subtable.
  destruct (Z.leb_spec (u32 (cur_ix - BT4.hash_tabs_ t slot))
              (u32 (BT4.window_mask_ t - 15))); [lia |].
  rewrite andb_false_r. reflexivity.
Qed.

Lemma sentinel_out_of_window : forall cur_ix window_mask,
  15 <= window_mask ->
  0 <= cur_ix ->
  cur_ix + window_mask < 2 ^ 32 ->
  u32 (window_mask - 15) < u32 (cur_ix - u32 (- window_mask)).
Proof.
  intros cur_ix window_mask Hw Hcur Hsum.
  rewrite (u32_sub_congr cur_ix (u32 (- window_mask)) (- window_mask))
    by apply u32_idem.
  replace (cur_ix - - window_mask) with (cur_ix + window_mask) by lia.
  rewrite !u32_small by lia. lia.
Qed.

(** X17.  After [Reset], the insertion of a position [cur_ix] with
    [cur_ix + window_mask_] below 2^32, for a window mask of at least 15,
    subtables of at most 2^32 cells and enough lookahead, finds the three
    cells of [hash_tabs_] empty: it stores no match, sets [*best_len_ret]
    to 3, and gives the new node two empty children (the value
    [-window_mask_]); no other cell of [child_tab_] changes. *)
Theorem bt4_first_insertion_after_reset :
  forall P data cur_ix mask max_length orig record t matches best_len0,
    0 <= BT4.kHash2Log P <= 32 ->
    0 <= BT4.kHash3Log P <= 32 ->
    0 <= BT4.kHash4Log P <= 32 ->
    15 <= BT4.window_mask_ t ->
    0 <= cur_ix ->
    cur_ix + BT4.window_mask_ t < 2 ^ 32 ->
    BT4.nice_length_ t <= max_length ->
    let r := BT4.AdvanceOneByte P data cur_ix mask max_length orig record
               (BT4.Reset P t) matches best_len0 in
    let node := 2 * Z.land cur_ix (BT4.window_mask_ t) in
    BT4.matches_ret r = matches /\
    BT4.best_len_ret r = 3 /\
    BT4.child_tab_ (BT4.finder r) node = u32 (- BT4.window_mask_ t) /\
    BT4.child_tab_ (BT4.finder r) (node + 1) = u32 (- BT4.window_mask_ t) /\
    (forall j, j <> node -> j <> node + 1 ->
               BT4.child_tab_ (BT4.finder r) j = BT4.child_tab_ t j).
Proof.
  intros P data cur_ix mask max_length orig record t matches best_len0
    H2 H3 H4 Hw Hcur Hsum Hnice r node.
  destruct (BT4_slots_range P data cur_ix mask H2 H3 H4) as [R2 [R3 R4]].
  unfold BT4.kHashTotalLength in R4.
  assert (Hempty : forall j, 0 <= j < BT4.kHashTotalLength P ->
                             BT4.hash_tabs_ (BT4.Reset P t) j
                             = u32 (- BT4.window_mask_ t)).
  { intros j Hj. cbn [BT4.Reset BT4.hash_tabs_].
    destruct (Z.leb_spec 0 j); [| lia].
    destruct (Z.ltb_spec j (BT4.kHashTotalLength P)); [| lia].
    reflexivity. }
  unfold BT4.kHashTotalLength in Hempty.
  pose proof (sentinel_out_of_window cur_ix _ Hw Hcur Hsum) as Hout.
  assert (Hprobes : BT4_probes P data cur_ix mask record (BT4.Reset P t)
                      matches
                    = (BT4.set_hash (BT4_slot3 P data cur_ix mask) cur_ix
                         (BT4.set_hash (BT4_slot2 P data cur_ix mask) cur_ix
                            (BT4.Reset P t)), matches)).
  { unfold BT4_probes. cbv zeta.
    rewrite probe_subtable_out_of_window
      by (rewrite Hempty by lia; exact Hout).
    rewrite probe_subtable_out_of_window; [reflexivity |].
    cbn [BT4.set_hash BT4.hash_tabs_ BT4.window_mask_].
    rewrite upd_other by lia. rewrite Hempty by lia. exact Hout. }
  subst r. rewrite AdvanceOneByte_start by exact Hnice.
  unfold BT4_start. cbv zeta. rewrite Hprobes.
  cbn [fst snd BT4.tree BT4.prev_ix BT4.set_hash BT4.hash_tabs_
       BT4.window_mask_ BT4.Reset].
  unfold BT4.out_of_window.
  cbn [BT4.window_mask_ BT4.set_hash BT4.Reset].
  rewrite !upd_other by lia.
  destruct (Z.leb_spec 0 (BT4_slot4 P data cur_ix mask)); [| lia].
  destruct (Z.ltb_spec (BT4_slot4 P data cur_ix mask)
              (BT4.kHashTotalLength P));
    [| unfold BT4.kHashTotalLength in *; lia].
  cbn [andb].
  destruct (Z.ltb_spec (u32 (BT4.window_mask_ t - 15))
              (u32 (cur_ix - u32 (- BT4.window_mask_ t)))); [| lia].
  cbn [BT4.finish BT4.matches_ret BT4.best_len_ret BT4.finder BT4.matches
       BT4.best_len BT4.close BT4.pending_lt_ptr BT4.pending_gt_ptr BT4.tree
       BT4.set_child BT4.child_tab_ BT4.sentinel BT4.window_mask_].
  fold node. rewrite Z.add_0_r.
  split; [reflexivity |]. split; [reflexivity |].
  split; [| split].
  - rewrite upd_other by lia. apply upd_same.
  - apply upd_same.
  - intros j Hj Hj1. rewrite !upd_other by assumption. reflexivity.
Qed.

Lemma bt4_first_insertion_after_reset_witness :
  let r := BT4.AdvanceOneByte H10 period8 16 1023 64 0 true
             (BT4.Reset H10 fresh_bt4) empty_matches 0 in
  let node := 2 * Z.land 16 (BT4.window_mask_ fresh_bt4) in
  BT4.matches_ret r = empty_matches /\
  BT4.best_len_ret r = 3 /\
  BT4.child_tab_ (BT4.finder r) node = u32 (- BT4.window_mask_ fresh_bt4) /\
  BT4.child_tab_ (BT4.finder r) (node + 1)
  = u32 (- BT4.window_mask_ fresh_bt4) /\
  (forall j, j <> node -> j <> node + 1 ->
             BT4.child_tab_ (BT4.finder r) j = BT4.child_tab_ fresh_bt4 j).
Proof.
  apply (bt4_first_insertion_after_reset H10 period8 16 1023 64 0 true
           fresh_bt4 empty_matches 0).
  - vm_compute. split; discriminate.
  - vm_compute. split; discriminate.
  - vm_compute. split; discriminate.
  - vm_compute. discriminate.
  - lia.
  - vm_compute. reflexivity.
  - vm_compute. discriminate.
Defined.

(** ** WarmupHash: where the positions of a custom dictionary go *)

Lemma warmup_one_key : forall P dict dict_p s (n : nat),
  Z.of_nat n < 2 ^ 16 ->
  let key := Block.HashBytes P dict dict_p in
  let s' := store_each (BlockHasher P) dict (fun _ => dict_p)
              (zrange (Z.of_nat n)) (Block.Reset s) in
  Block.num_ s' key = Z.of_nat n /\
  (forall h, h <> key -> Block.num_ s' h = 0) /\
  (1 <= Z.of_nat n ->
   Block.buckets_ s' key (Z.land (Z.of_nat n - 1) (Block.kBlockMask P))
   = Z.of_nat n - 1).
Proof.
  intros P dict dict_p s n. induction n as [| n IH]; intros Hn key s'.
  - subst s'. cbn [zrange Z.to_nat seq List.map store_each fold_left].
    cbn [Block.Reset Block.num_]. split; [reflexivity |].
    split; [reflexivity | lia].
  - subst s'. unfold store_each in *. rewrite zrange_snoc, fold_left_app.
    cbn [fold_left]. cbv zeta in IH.
    destruct (IH ltac:(lia)) as [Hnum [Hothers _]].
    set (sn := fold_left _ (zrange (Z.of_nat n)) (Block.Reset s)) in *.
    cbn [Store BlockHasher]. unfold Block.Store. cbv zeta. fold key.
    fold key in Hnum, Hothers.
    cbn [Block.num_ Block.buckets_]. rewrite Hnum, !upd_same.
    split; [rewrite u16_small by lia; lia |]. split.
    + intros h Hh. rewrite upd_other by exact Hh. apply Hothers. exact Hh.
    + intros _. replace (Z.of_nat (S n) - 1) with (Z.of_nat n) by lia.
      apply upd_same.
Qed.

(** X18.  [WarmupHash] on a block hasher that has just been reset, for a
    dictionary of fewer than 2^16 bytes: each of its stores hashes the
    bytes at [dict] itself, so that all [size - 3] positions are counted
    under the key of the first four bytes, the last of them,
    [size - 4], being the newest entry of that ring; the counter of every
    other key stays 0.  A dictionary of fewer than 4 bytes stores
    nothing. *)
Theorem warmup_stores_under_the_key_of_the_first_bytes :
  forall P size dict dict_p s,
    0 <= size < 2 ^ 16 ->
    let key := Block.HashBytes P dict dict_p in
    let s' := WarmupHash (BlockHasher P) size dict dict_p (Block.Reset s) in
    Block.num_ s' key = Z.max 0 (size - 3) /\
    (forall h, h <> key -> Block.num_ s' h = 0) /\
    (4 <= size ->
     Block.buckets_ s' key (Z.land (size - 4) (Block.kBlockMask P))
     = size - 4).
Proof.
  intros P size dict dict_p s Hsize key s'. subst s'.
  rewrite (WarmupHash_stores (BlockHasher P))
    by (cbn [kHashTypeLength BlockHasher]; unfold Block.kHashTypeLength; lia).
  unfold warmup_positions. cbn [kHashTypeLength BlockHasher].
  unfold Block.kHashTypeLength.
  destruct (Z_lt_le_dec size 4) as [Hshort | Hlong].
  - unfold zrange. replace (Z.to_nat (size - 4 + 1)) with 0%nat by lia.
    cbn [seq List.map store_each fold_left Block.Reset Block.num_].
    split; [lia |]. split; [reflexivity | lia].
  - pose proof (warmup_one_key P dict dict_p s (Z.to_nat (size - 4 + 1))
                  ltac:(lia)) as Hone.
    cbv zeta in Hone. rewrite Z2Nat.id in Hone by lia. fold key in Hone.
    destruct Hone as [Hnum [Hothers Hnewest]].
    split; [rewrite Hnum; lia |]. split; [exact Hothers |].
    intros _. specialize (Hnewest ltac:(lia)).
    replace (size - 4 + 1 - 1) with (size - 4) in Hnewest by lia.
    exact Hnewest.
Qed.

Lemma warmup_stores_under_the_key_of_the_first_bytes_witness :
  let key := Block.HashBytes H5 period8 0 in
  let s' := WarmupHash (BlockHasher H5) 6 period8 0
              (Block.Reset fresh_block) in
  Block.num_ s' key = Z.max 0 (6 - 3) /\
  (forall h, h <> key -> Block.num_ s' h = 0) /\
  (4 <= 6 ->
   Block.buckets_ s' key (Z.land (6 - 4) (Block.kBlockMask H5)) = 6 - 4).
Proof.
  apply (warmup_stores_under_the_key_of_the_first_bytes H5 6 period8 0
           fresh_block).
  lia.
Defined.

(** ** The key of a quick hasher *)

Lemma shifted_load64 : forall (m : Mem) (p : Z),
  (forall i, 0 <= i < 8 -> 0 <= m (p + i) < 256) ->
  u64 (Z.shiftl (BROTLI_UNALIGNED_LOAD64 m p) 24)
  = 2 ^ 24 * (m p + 2 ^ 8 * m (p + 1) + 2 ^ 16 * m (p + 2)
              + 2 ^ 24 * m (p + 3) + 2 ^ 32 * m (p + 4)).
Proof.
  intros m p Hbytes.
  pose proof (Hbytes 0 ltac:(lia)) as H0. rewrite Z.add_0_r in H0.
  pose proof (Hbytes 1 ltac:(lia)) as H1.
  pose proof (Hbytes 2 ltac:(lia)) as H2.
  pose proof (Hbytes 3 ltac:(lia)) as H3.
  pose proof (Hbytes 4 ltac:(lia)) as H4.
  pose proof (Hbytes 5 ltac:(lia)) as H5.
  pose proof (Hbytes 6 ltac:(lia)) as H6.
  pose proof (Hbytes 7 ltac:(lia)) as H7.
  unfold u64, BROTLI_UNALIGNED_LOAD64, BROTLI_UNALIGNED_LOAD32.
  rewrite Z.shiftl_mul_pow2 by lia.
  replace (p + 4 + 1) with (p + 5) by lia.
  replace (p + 4 + 2) with (p + 6) by lia.
  replace (p + 4 + 3) with (p + 7) by lia.
  symmetry.
  apply Z.mod_unique
    with (q := m (p + 5) + 2 ^ 8 * m (p + 6) + 2 ^ 16 * m (p + 7)); lia.
Qed.

(** X19.  The key of a quick hasher is a hash of five bytes ([kHashLength]):
    although [HashBytes] loads eight bytes, two byte sequences that agree
    on their first five bytes have the same key. *)
Theorem quick_hash_reads_five_bytes :
  forall P (data : Mem) p (data' : Mem) p',
    (forall i, 0 <= i < 8 -> 0 <= data (p + i) < 256) ->
    (forall i, 0 <= i < 8 -> 0 <= data' (p' + i) < 256) ->
    (forall i, 0 <= i < Quick.kHashLength ->
               data (p + i) = data' (p' + i)) ->
    Quick.HashBytes P data p = Quick.HashBytes P data' p'.
Proof.
  intros P data p data' p' Hbytes Hbytes' Hsame.
  unfold Quick.kHashLength in Hsame.
  unfold Quick.HashBytes. cbv zeta.
  rewrite (shifted_load64 data p Hbytes), (shifted_load64 data' p' Hbytes').
  pose proof (Hsame 0 ltac:(lia)) as E0. rewrite !Z.add_0_r in E0.
  rewrite E0, (Hsame 1), (Hsame 2), (Hsame 3), (Hsame 4) by lia.
  reflexivity.
Qed.

Lemma quick_hash_reads_five_bytes_witness :
  Quick.HashBytes H1 (mem_of [97; 98; 99; 100; 101; 102; 103; 104]) 0
  = Quick.HashBytes H1 (mem_of [97; 98; 99; 100; 101; 1; 2; 3]) 0.
Proof.
  apply (quick_hash_reads_five_bytes H1
           (mem_of [97; 98; 99; 100; 101; 102; 103; 104]) 0
           (mem_of [97; 98; 99; 100; 101; 1; 2; 3]) 0).
  - intros i Hi.
    assert (Hcases : i = 0 \/ i = 1 \/ i = 2 \/ i = 3 \/ i = 4 \/ i = 5 \/
                     i = 6 \/ i = 7) by lia.
    destruct Hcases as [-> | [-> | [-> | [-> | [-> | [-> | [-> | ->]]]]]]];
      vm_compute; (split; [discriminate | reflexivity]).
  - intros i Hi.
    assert (Hcases : i = 0 \/ i = 1 \/ i = 2 \/ i = 3 \/ i = 4 \/ i = 5 \/
                     i = 6 \/ i = 7) by lia.
    destruct Hcases as [-> | [-> | [-> | [-> | [-> | [-> | [-> | ->]]]]]]];
      vm_compute; (split; [discriminate | reflexivity]).
  - intros i Hi. unfold Quick.kHashLength in Hi.
    assert (Hcases : i = 0 \/ i = 1 \/ i = 2 \/ i = 3 \/ i = 4) by lia.
    destruct Hcases as [-> | [-> | [-> | [-> | ->]]]]; reflexivity.
Defined.

(** ** Store, then FindLongestMatch *)

(** X20.  A quick hasher with [kBucketSweep = 1] finds what [Store] has just
    put under the key of the current bytes: if the position [p] was stored
    under that key, lies between 1 and [max_backward] before [cur_ix], and
    agrees with the data at [cur_ix] on at least 4 bytes, then a search
    entered with [*best_len_out = 0] returns true with a length of at
    least 4. *)
Theorem quick_finds_the_stored_position :
  forall (D : DoubleOps) SD P s0 rb mask distance_cache cur_ix max_length
         max_backward o p,
    Quick.kBucketSweep P = 1 ->
    best_len_out o = 0 ->
    0 <= p < 2 ^ 32 ->
    Quick.HashBytes P rb (Z.land p mask)
    = Quick.HashBytes P rb (Z.land cur_ix mask) ->
    to_int32 (cur_ix - p) <> 0 ->
    u32 (to_int32 (cur_ix - p)) <= max_backward ->
    4 <= FindMatchLengthWithLimit rb (Z.land p mask) rb (Z.land cur_ix mask)
           max_length ->
    let s := Quick.Store P rb (Z.land p mask) p s0 in
    let r := Quick.FindLongestMatch SD P s rb mask distance_cache cur_ix
               max_length max_backward o in
    Quick.ret r = true /\ 4 <= best_len_out (Quick.outs r).
Proof.
  intros D SD P s0 rb mask dc cur_ix max_length max_backward o p Hsweep
    Hzero Hp Hkey Hnonzero Hnear Hlen s r.
  assert (Hcell : Quick.buckets_ s (Quick.key P rb mask cur_ix) = p).
  { subst s. unfold Quick.Store, Quick.key, Quick.cur_ix_masked. cbv zeta.
    cbn [Quick.buckets_]. rewrite Hsweep, Z.mod_1_r, Z.add_0_r, Hkey.
    rewrite upd_same. apply u32_small. exact Hp. }
  assert (Hfirst : rb (Z.land cur_ix mask + 0) = rb (Z.land p mask + 0)).
  { symmetry. apply (match_length_same_bytes (Z.to_nat max_length)).
    unfold FindMatchLengthWithLimit in Hlen. lia. }
  subst r. unfold Quick.FindLongestMatch, Quick.probe_last_distance.
  cbv zeta. rewrite Hsweep, Z.eqb_refl.
  assert (Hsingle :
    let L0 := {| Quick.out := o;
                 Quick.best_score := best_score_out o;
                 Quick.best_len := best_len_out o;
                 Quick.compare_char :=
                   rb (Quick.cur_ix_masked mask cur_ix + best_len_out o);
                 Quick.match_found := false |} in
    let res :=
      match Quick.lookup_single P s rb mask cur_ix max_length max_backward
              (best_len_out o) L0 with
      | Return r1 L' => Quick.early s r1 L'
      | Continue L' =>
          Quick.probe_dictionary SD P s rb mask cur_ix max_length
            max_backward L'
      end in
    Quick.ret res = true /\ 4 <= best_len_out (Quick.outs res)).
  { cbv zeta. unfold Quick.lookup_single. cbv zeta.
    rewrite Hcell, Hzero. cbn [Quick.compare_char].
    unfold Quick.cur_ix_masked. rewrite Hfirst, Z.eqb_refl. cbn [negb].
    destruct (Z.eqb_spec (to_int32 (cur_ix - p)) 0); [contradiction |].
    destruct (Z.ltb_spec max_backward (u32 (to_int32 (cur_ix - p))));
      [lia |].
    cbn [orb].
    destruct (Z.leb_spec 4
                (FindMatchLengthWithLimit rb (Z.land p mask) rb
                   (Z.land cur_ix mask) max_length)); [| lia].
    cbn [Quick.early Quick.ret Quick.outs Quick.out best_len_out].
    split; [reflexivity | assumption]. }
  cbv zeta in Hsingle.
  destruct (_ <? cur_ix); [| exact Hsingle].
  destruct (_ =? _); [| exact Hsingle].
  destruct (Z.leb_spec 4
              (FindMatchLengthWithLimit rb
                 (Z.land (u32 (cur_ix - dc 0)) mask) rb
                 (Quick.cur_ix_masked mask cur_ix) max_length));
    [| exact Hsingle].
  cbn [Quick.early Quick.ret Quick.outs Quick.accept Quick.out best_len_out].
  split; [reflexivity | assumption].
Qed.

Lemma quick_finds_the_stored_position_witness :
  let s := Quick.Store H1 all_x (Z.land 0 255) 0 fresh_quick in
  let r := Quick.FindLongestMatch (D := exact_scores) no_words H1 s all_x 255
             (table [0; 11; 15; 16]) 4 32 255 (entry 0 0 0 4) in
  Quick.ret r = true /\ 4 <= best_len_out (Quick.outs r).
Proof.
  apply (quick_finds_the_stored_position exact_scores no_words H1 fresh_quick
           all_x 255 (table [0; 11; 15; 16]) 4 32 255 (entry 0 0 0 4) 0).
  - reflexivity.
  - reflexivity.
  - lia.
  - reflexivity.
  - vm_compute. discriminate.
  - vm_compute. discriminate.
  - vm_compute. discriminate.
Defined.

(** ** FindAllMatches of a block hasher: each match is a match *)

Lemma u32_u64 : forall x, u32 (u64 x) = u32 x.
Proof.
  intros x. unfold u32, u64.
  rewrite (Z.div_mod x (2 ^ 64)) at 2 by lia.
  replace (2 ^ 64 * (x / 2 ^ 64) + x mod 2 ^ 64)
    with (x mod 2 ^ 64 + 2 ^ 32 * (x / 2 ^ 64) * 2 ^ 32) by lia.
  rewrite Z_mod_plus_full. reflexivity.
Qed.

Lemma u32_le : forall x, 0 <= x -> u32 x <= x.
Proof. intros x Hx. unfold u32. apply Z.mod_le; lia. Qed.

Lemma all_cells_push : forall Q orig m b,
  all_cells Q orig b -> Q m -> all_cells Q orig (push m b).
Proof.
  intros Q orig m b Hb Hm i Hi. cbn [push pos arr] in *. unfold upd.
  destruct (Z.eqb_spec i (pos b)); [exact Hm | apply Hb; lia].
Qed.

Lemma all_cells_rewind_push : forall Q orig m b,
  Q m -> all_cells Q orig (push m (rewind orig b)).
Proof.
  intros Q orig m b Hm i Hi. cbn [push rewind pos arr] in *.
  replace i with orig by lia. rewrite upd_same. exact Hm.
Qed.

Section BlockMatches.
Variable SD : StaticDictionary.
Variable P : Block.params.
Variable s : Block.state.
Variable data : Mem.
Variable mask : Z.
Variables cur_ix max_length max_backward : Z.
Variable orig : Z.
Hypothesis Hmask : 0 <= mask < 2 ^ 32.
Hypothesis Hmax : 0 <= max_length < 2 ^ 31.

Lemma cells_record_match : forall p backward c,
  all_cells (window_match data mask cur_ix max_length max_backward) orig
    (Block.buf c) ->
  1 <= Block.longest c ->
  u32 (cur_ix - to_int32 backward) = u32 p ->
  u32 (to_int32 backward) <= max_backward ->
  let c' := Block.record_match orig backward
              (FindMatchLengthWithLimit data (Z.land p mask) data
                 (Block.cur_ix_masked mask cur_ix) max_length) c in
  all_cells (window_match data mask cur_ix max_length max_backward) orig
    (Block.buf c') /\
  1 <= Block.longest c'.
Proof.
  intros p backward c Hc Hl Hprev Hnear c'. subst c'.
  unfold Block.record_match.
  set (len := FindMatchLengthWithLimit _ _ _ _ _).
  destruct (Z.ltb_spec (Block.longest c) len) as [Hlonger |];
    [| split; assumption].
  assert (Hlen : len <= max_length)
    by (apply FindMatchLengthWithLimit_positive; fold len; lia).
  cbn [Block.longest Block.buf]. split; [| lia].
  assert (Hm : window_match data mask cur_ix max_length max_backward
                 (BackwardMatch2 (to_int32 backward) (to_int32 len))).
  { unfold window_match. rewrite length_BackwardMatch2.
    cbn [BackwardMatch2 distance]. rewrite to_int32_id by lia.
    split; [lia |]. split; [exact Hnear |].
    rewrite (land_congr _ p mask Hmask Hprev).
    apply match_length_same_bytes. }
  destruct (kMaxZopfliLen <? len).
  - apply all_cells_rewind_push. exact Hm.
  - apply all_cells_push; assumption.
Qed.

Lemma cells_short_scan : forall fuel i c,
  all_cells (window_match data mask cur_ix max_length max_backward) orig
    (Block.buf c) ->
  1 <= Block.longest c ->
  let c' := Block.short_scan data mask cur_ix max_length max_backward orig
              fuel i c in
  all_cells (window_match data mask cur_ix max_length max_backward) orig
    (Block.buf c') /\
  1 <= Block.longest c'.
Proof.
  induction fuel as [| fuel IH]; intros i c Hc Hl; [split; assumption |].
  cbn [Block.short_scan]. cbv zeta.
  destruct (_ && _); [| split; assumption].
  destruct (Z.ltb_spec max_backward (u64 (cur_ix - i))) as [| Hnear];
    [split; assumption |].
  destruct (_ || _); [apply IH; assumption |].
  assert (Hback : u32 (to_int32 (u64 (cur_ix - i))) = u32 (cur_ix - i))
    by (rewrite u32_to_int32; apply u32_u64).
  destruct (cells_record_match i (u64 (cur_ix - i)) c Hc Hl) as [Hc' Hl'].
  - rewrite (u32_sub_congr cur_ix _ (cur_ix - i)) by exact Hback.
    f_equal. lia.
  - rewrite u32_to_int32.
    pose proof (u32_le (u64 (cur_ix - i))
                  ltac:(apply Z.mod_pos_bound; lia)).
    lia.
  - apply IH; assumption.
Qed.

Lemma cells_bucket_scan : forall fuel i c,
  all_cells (window_match data mask cur_ix max_length max_backward) orig
    (Block.buf c) ->
  1 <= Block.longest c ->
  let c' := Block.bucket_scan P s data mask cur_ix max_length max_backward
              orig fuel i c in
  all_cells (window_match data mask cur_ix max_length max_backward) orig
    (Block.buf c') /\
  1 <= Block.longest c'.
Proof.
  induction fuel as [| fuel IH]; intros i c Hc Hl; [split; assumption |].
  cbn [Block.bucket_scan]. cbv zeta.
  destruct (_ <=? i); [| split; assumption].
  destruct (0 <=? _); [| apply IH; assumption].
  set (prev := Block.buckets_ s _ _).
  destruct (Z.ltb_spec max_backward (u32 (cur_ix - prev))) as [| Hnear];
    [split; assumption |].
  destruct (Block.tail_differs _ _ _ _ _); [apply IH; assumption |].
  destruct (cells_record_match prev (u32 (cur_ix - prev)) c Hc Hl)
    as [Hc' Hl'].
  - rewrite (u32_sub_congr cur_ix _ (u32 (cur_ix - prev)))
      by apply u32_to_int32.
    apply u32_sub_sub.
  - rewrite u32_to_int32, u32_idem. exact Hnear.
  - apply IH; assumption.
Qed.

Lemma cells_dictionary_loop : forall dict_matches ls b,
  (forall l, In l ls -> 4 <= l) ->
  all_cells (fun m => window_match data mask cur_ix max_length max_backward m
                      \/ dictionary_word_match max_backward m) orig b ->
  all_cells (fun m => window_match data mask cur_ix max_length max_backward m
                      \/ dictionary_word_match max_backward m) orig
    (fold_left (Block.dictionary_match SD max_backward dict_matches) ls b).
Proof.
  intros dict_matches. induction ls as [| l ls IH]; intros b Hls Hb;
    [exact Hb |].
  cbn [fold_left]. apply IH; [intros l' Hl'; apply Hls; right; exact Hl' |].
  unfold Block.dictionary_match. cbv zeta.
  destruct (_ <? kInvalidMatch SD); [| exact Hb].
  apply all_cells_push; [exact Hb |].
  right. exists (dict_matches l). rewrite length_BackwardMatch3.
  split; [apply Hls; left; reflexivity | reflexivity].
Qed.

End BlockMatches.

(** X21.  [FindAllMatches] of a block hasher, for a ring buffer mask below 2^32
    and [max_length] below 2^31: each match between the start of the
    caller's array and the returned end is a copy from the ring buffer, of
    2 to [max_length] bytes at most [max_backward] back, the bytes that far
    before [cur_ix] being those at [cur_ix], or it stands for a word of the
    static dictionary, with at least 4 bytes and the distance
    [max_backward + (dict_id >> 5) + 1]. *)
Theorem block_all_matches_are_matches :
  forall SD P s data mask cur_ix max_length max_backward num_matches matches
         orig,
    0 <= mask < 2 ^ 32 ->
    0 <= max_length < 2 ^ 31 ->
    let b := snd (Block.FindAllMatches SD P s data mask cur_ix max_length
                    max_backward num_matches matches orig) in
    forall i, orig <= i < pos b ->
      window_match data mask cur_ix max_length max_backward (arr b i) \/
      dictionary_word_match max_backward (arr b i).
Proof.
  intros SD P s data mask cur_ix max_length max_backward num_matches matches
    orig Hmask Hmax b.
  subst b. unfold Block.FindAllMatches. cbv zeta. cbn [snd].
  assert (Hscan : let c := Block.scan_matches P s data mask cur_ix max_length
                             max_backward matches orig in
                  all_cells (window_match data mask cur_ix max_length
                               max_backward) orig (Block.buf c) /\
                  1 <= Block.longest c).
  { unfold Block.scan_matches. cbv zeta.
    assert (Hshort :
      let c := Block.short_scan data mask cur_ix max_length max_backward orig
                 (Z.to_nat (to_int32 (cur_ix - 1)
                            - Block.stop cur_ix))
                 (to_int32 (cur_ix - 1))
                 {| Block.longest := 1;
                    Block.buf := {| arr := matches; pos := orig;
                                    written := [] |} |} in
      all_cells (window_match data mask cur_ix max_length max_backward) orig
        (Block.buf c) /\
      1 <= Block.longest c).
    { apply cells_short_scan; [exact Hmask | exact Hmax | |].
      - intros i Hi. cbn [Block.buf pos] in Hi. lia.
      - cbn [Block.longest]. lia. }
    cbv zeta in Hshort. destruct Hshort as [Hc Hl].
    apply cells_bucket_scan; assumption. }
  cbv zeta in Hscan. destruct Hscan as [Hc Hl].
  set (c := Block.scan_matches _ _ _ _ _ _ _ _ _) in *.
  assert (Hboth : all_cells
                    (fun m => window_match data mask cur_ix max_length
                                max_backward m
                              \/ dictionary_word_match max_backward m)
                    orig (Block.buf c)).
  { intros i Hi. left. apply Hc. exact Hi. }
  unfold Block.dictionary_pass. cbv zeta.
  destruct (FindAllStaticDictionaryMatches SD _ _ _ _ _)
    as [found dict_matches].
  destruct found; [| exact Hboth].
  apply cells_dictionary_loop; [| exact Hboth].
  intros l Hl'. apply in_map_iff in Hl'. destruct Hl' as [k [<- Hk]].
  unfold zrange in Hk. apply in_map_iff in Hk.
  destruct Hk as [n [<- Hn]]. lia.
Qed.

Lemma block_all_matches_are_matches_witness :
  let b := snd (Block.FindAllMatches no_words H5 warm16 period8 63 16 8 16 0
                  (arr empty_matches) 0) in
  window_match period8 63 16 8 16 (arr b 0) \/
  dictionary_word_match 16 (arr b 0).
Proof.
  apply (block_all_matches_are_matches no_words H5 warm16 period8 63 16 8 16
           0 (arr empty_matches) 0 ltac:(lia) ltac:(lia) 0).
  vm_compute. split; [discriminate | reflexivity].
Defined.

(** ** The BT4 matchfinder: the depth of the search *)

Lemma extend_keeps_tree :
  forall data cur_ix mask max_length orig record best_len0 d,
    match BT4.extend data cur_ix mask max_length orig record best_len0 d with
    | inl r =>
        exists i v j w,
          BT4.child_stores (BT4.finder r)
          = (i, v) :: (j, w) :: BT4.child_stores (BT4.tree d)
    | inr d1 => BT4.tree d1 = BT4.tree d
    end.
Proof.
  intros. unfold BT4.extend. cbv zeta.
  split_ifs; cbn [BT4.tree BT4.finder]; try reflexivity;
    unfold BT4.splice; cbv zeta; cbn [BT4.set_child BT4.child_stores];
    do 4 eexists; reflexivity.
Qed.

Lemma branch_stores_one : forall data cur_ix mask d,
  exists i v,
    BT4.child_stores (BT4.tree (BT4.branch data cur_ix mask d))
    = (i, v) :: BT4.child_stores (BT4.tree d).
Proof.
  intros. unfold BT4.branch. cbv zeta.
  destruct (data _ <? data _);
    cbn [BT4.tree BT4.set_child BT4.child_stores]; do 2 eexists; reflexivity.
Qed.

Lemma finish_stores_two : forall d,
  exists i v j w,
    BT4.child_stores (BT4.finder (BT4.finish d))
    = (i, v) :: (j, w) :: BT4.child_stores (BT4.tree d).
Proof.
  intros d. cbn [BT4.finish BT4.finder BT4.close BT4.set_child
                 BT4.child_stores].
  do 4 eexists. reflexivity.
Qed.

Lemma descend_stores : forall data cur_ix mask max_length orig record
  best_len0 n d,
  exists new,
    BT4.child_stores
      (BT4.finder (BT4.descend data cur_ix mask max_length orig record
                     best_len0 n d))
    = new ++ BT4.child_stores (BT4.tree d) /\
    (List.length new <= n + 2)%nat.
Proof.
  intros data cur_ix mask max_length orig record best_len0.
  induction n as [| n IH]; intros d; cbn [BT4.descend].
  - destruct (finish_stores_two d) as [i [v [j [w Hfin]]]].
    exists [(i, v); (j, w)]. split; [exact Hfin | cbn; lia].
  - pose proof (extend_keeps_tree data cur_ix mask max_length orig record
                  best_len0 d) as Hext.
    destruct (BT4.extend _ _ _ _ _ _ _ d) as [r | d1].
    + destruct Hext as [i [v [j [w Hr]]]].
      exists [(i, v); (j, w)]. split; [exact Hr | cbn; lia].
    + cbv zeta.
      destruct (branch_stores_one data cur_ix mask d1) as [i [v Hbr]].
      rewrite Hext in Hbr.
      set (d2 := BT4.branch data cur_ix mask d1) in *.
      assert (Hfin : exists new,
                BT4.child_stores (BT4.finder (BT4.finish d2))
                = new ++ BT4.child_stores (BT4.tree d) /\
                (List.length new <= S n + 2)%nat).
      { destruct (finish_stores_two d2) as [i' [v' [j' [w' Hfin]]]].
        exists [(i', v'); (j', w'); (i, v)].
        split; [rewrite Hfin, Hbr; reflexivity | cbn; lia]. }
      destruct (BT4.out_of_window _ _ _); [exact Hfin |].
      destruct n as [| n]; [exact Hfin |].
      destruct (IH d2) as [new [Hnew Hlen]].
      exists (new ++ [(i, v)]). split.
      * rewrite Hnew, Hbr, <- app_assoc. reflexivity.
      * rewrite length_app. cbn [List.length]. lia.
Qed.

Lemma BT4_probes_child_stores : forall P data cur_ix mask record t matches,
  BT4.child_stores (fst (BT4_probes P data cur_ix mask record t matches))
  = BT4.child_stores t.
Proof.
  intros P data cur_ix mask record t matches. unfold BT4_probes. cbv zeta.
  set (same2 := fun prev_ix : Z => _ =? BROTLI_UNALIGNED_LOAD16 _ _).
  set (same3 := fun prev_ix : Z => _ =? BROTLI_LOADED_U32_TO_U24 _).
  destruct (probe_subtable_keeps_children cur_ix record
              (BT4_slot2 P data cur_ix mask) 2 same2 t matches) as [Hs2 _].
  destruct (BT4.probe_subtable cur_ix record _ 2 same2 (t, matches))
    as [t2 b2].
  cbn [fst] in Hs2.
  destruct (probe_subtable_keeps_children cur_ix record
              (BT4_slot3 P data cur_ix mask) 3 same3 t2 b2) as [Hs3 _].
  rewrite Hs3. exact Hs2.
Qed.

(** X22.  The search depth bounds the work of [AdvanceOneByte]: for
    [max_search_depth_] from 1 to 2^32 - 1, a call assigns at most
    [max_search_depth_ + 2] cells of [child_tab_], one for each node that
    the descent passes and two when it ends. *)
Theorem bt4_search_depth_bounds_the_descent :
  forall P data cur_ix mask max_length orig record t matches best_len0,
    1 <= BT4.max_search_depth_ t < 2 ^ 32 ->
    let t' := BT4.finder (BT4.AdvanceOneByte P data cur_ix mask max_length
                            orig record t matches best_len0) in
    exists new,
      BT4.child_stores t' = new ++ BT4.child_stores t /\
      Z.of_nat (List.length new) <= BT4.max_search_depth_ t + 2.
Proof.
  intros P data cur_ix mask max_length orig record t matches best_len0
    Hdepth t'. subst t'.
  destruct (Z_lt_le_dec max_length (BT4.nice_length_ t)) as [Hshort | Hnice].
  - unfold BT4.AdvanceOneByte.
    destruct (Z.ltb_spec max_length (BT4.nice_length_ t)); [| lia].
    exists []. cbn [BT4.finder app List.length]. split; [reflexivity | lia].
  - rewrite AdvanceOneByte_start by exact Hnice. cbv zeta.
    set (d := BT4_start P data cur_ix mask record t matches).
    assert (Htree : BT4.child_stores (BT4.tree d) = BT4.child_stores t).
    { subst d. cbn [BT4_start BT4.tree BT4.set_hash BT4.child_stores].
      apply BT4_probes_child_stores. }
    assert (Hbudget : BT4.depth_budget (BT4.tree d)
                      = Z.to_nat (BT4.max_search_depth_ t)).
    { unfold BT4.depth_budget. subst d.
      cbn [BT4_start BT4.tree BT4.set_hash BT4.max_search_depth_].
      destruct (BT4_probes_tables P data cur_ix mask record t matches)
        as [_ [_ [Hd _]]].
      rewrite Hd, u32_small by lia. lia. }
    destruct (BT4.out_of_window _ _ _).
    + destruct (finish_stores_two d) as [i [v [j [w Hfin]]]].
      exists [(i, v); (j, w)]. rewrite Hfin, Htree.
      split; [reflexivity | cbn [List.length]; lia].
    + destruct (descend_stores data cur_ix mask max_length orig record
                  best_len0 (BT4.depth_budget (BT4.tree d)) d)
        as [new [Hnew Hlen]].
      exists new. rewrite Hnew, Htree. split; [reflexivity |].
      rewrite Hbudget in Hlen. lia.
Qed.

Lemma bt4_search_depth_bounds_the_descent_witness :
  let t' := BT4.finder (BT4.AdvanceOneByte H10 period8 16 1023 64 0 true
                          fresh_bt4 empty_matches 0) in
  exists new,
    BT4.child_stores t' = new ++ BT4.child_stores fresh_bt4 /\
    Z.of_nat (List.length new) <= BT4.max_search_depth_ fresh_bt4 + 2.
Proof.
  apply (bt4_search_depth_bounds_the_descent H10 period8 16 1023 64 0 true
           fresh_bt4 empty_matches 0).
  vm_compute. split; [discriminate | reflexivity].
Defined.


Section BlockFound.
Context {D : DoubleOps}.
Variable P : Block.params.
Variable s : Block.state.
Variable data : Mem.
Variable mask : Z.
Variable distance_cache : Z -> Z.
Variables cur_ix max_length max_backward : Z.

Lemma last_distance_step_found_or_same : forall L i,
  let L' := Block.last_distance_step data mask distance_cache cur_ix
              max_length max_backward L i in
  Block.match_found L' = true \/ L' = L.
Proof.
  intros L i L'. subst L'. unfold Block.last_distance_step. cbv zeta.
  split_ifs; auto.
Qed.

Lemma found_last_distance_step : forall L i,
  Block.match_found L = true ->
  Block.match_found
    (Block.last_distance_step data mask distance_cache cur_ix max_length
       max_backward L i) = true.
Proof.
  intros L i HL.
  destruct (last_distance_step_found_or_same L i) as [Hf | ->];
    [exact Hf | exact HL].
Qed.



End BlockFound.


